(** * Noah's Game asset tools: a shallow embedding and its properties

    The repository holds two command-line scripts.

    - [tools/art_pipeline.py]: chroma-key removal, trimming, resizing,
      sprite-sheet slicing and mirroring of RGBA images.
    - [tools/generate_beans.py]: one call to a generative-image endpoint whose
      answer is decoded and written to disk.

    Images are the RGBA pixel buffers the scripts work on; the file system is a
    finite map from paths to images; Python exceptions are an explicit outcome.
    The imaging library (Pillow) and the array library (NumPy) are modelled
    operation by operation, as far as the scripts call them.
    [full_pipeline], [mirror_directions] and the command-line dispatch are
    modelled on top of the five file operations; the prompt and the request
    payload of the generation script are left out.

    The model follows the libraries where they accept their input.  It does
    not follow the encoder when it refuses an image without pixels or a
    path without a known extension, [os.makedirs] when it refuses the empty
    path, the array library when it refuses an integer beyond the binary64
    range, or the rounding of the resampling position where it falls
    exactly between two source pixels; paths are compared as texts, and
    texts hold the characters below U+0100.  A property that such a case
    could reach excludes it by a hypothesis, or allows for it in its
    conclusion. *)

From Stdlib Require Import ZArith List String Ascii Bool Lia Floats.
From Stdlib Require Import DecimalNat DecimalString.
From stdpp Require Import gmap strings list.

Open Scope Z_scope.

(* ===================================================================== *)
(** ** Python outcomes: a value, or a raised exception                    *)
(* ===================================================================== *)

Inductive exn : Type :=
| ZeroDivisionError
| ValueError
| FileNotFoundError
| TypeError
| KeyError
| IndexError
| UnicodeDecodeError
| BinasciiError.

(** A computation over a state [S] ends with a value or with an exception;
    the state reached so far is kept in both cases (what was written before
    an exception stays written). *)
Inductive outcome (S A : Type) : Type :=
| Ok (a : A) (s : S)
| Raise (e : exn) (s : S).
Arguments Ok {S A} a s.
Arguments Raise {S A} e s.

Definition M (S A : Type) : Type := S -> outcome S A.

Definition ret {S A} (a : A) : M S A := fun s => Ok a s.
Definition raise {S A} (e : exn) : M S A := fun s => Raise e s.
Definition bind {S A B} (m : M S A) (k : A -> M S B) : M S B :=
  fun s => match m s with
           | Ok a s' => k a s'
           | Raise e s' => Raise e s'
           end.

Declare Scope py_scope.
Delimit Scope py_scope with py.
Notation "'let!' x ':=' m 'in' k" := (bind m (fun x => k))
  (at level 10, x name, m at level 100, k at level 200) : py_scope.
Notation "'do!' m 'in' k" := (bind m (fun _ => k))
  (at level 10, m at level 100, k at level 200) : py_scope.

(** [for x in xs: body x], stopping at the first exception. *)
Fixpoint for_each {S A} (xs : list A) (body : A -> M S unit) : M S unit :=
  match xs with
  | [] => ret tt
  | x :: rest => bind (body x) (fun _ => for_each rest body)
  end.

(** [range(n)] of a Python integer: [0, 1, ..., n - 1], empty when [n <= 0]. *)
Definition range (n : Z) : list Z := seqZ 0 n.

(** [a // b]: floor division, [ZeroDivisionError] on a zero divisor.
    [Z.div] rounds towards minus infinity, as Python does. *)
Definition floordiv {S} (a b : Z) : M S Z :=
  if b =? 0 then raise ZeroDivisionError else ret (a / b).

(* ===================================================================== *)
(** ** Pixels and images                                                  *)
(* ===================================================================== *)

(** One RGBA pixel; each channel is an unsigned byte held in a [Z]. *)
Record pixel : Type := RGBA { red : Z; green : Z; blue : Z; alpha : Z }.

Definition byte_range (c : Z) : Prop := 0 <= c < 256.
Definition pixel_ok (p : pixel) : Prop :=
  byte_range (red p) /\ byte_range (green p) /\ byte_range (blue p) /\ byte_range (alpha p).

Definition transparent : pixel := RGBA 0 0 0 0.

Definition pixel_eqb (p q : pixel) : bool :=
  (red p =? red q) && (green p =? green q) && (blue p =? blue q) && (alpha p =? alpha q).

(** A two-dimensional array, row by row ([a[y][x]]). *)
Abbreviation array2 A := (list (list A)).

Definition aget {A} (a : array2 A) (x y : nat) : option A :=
  match a !! y with
  | Some row => row !! x
  | None => None
  end.

Definition amap {A B} (f : A -> B) (a : list (list A)) : list (list B) :=
  fmap (M := list) (fmap (M := list) f) a.

Definition azip {A B C} (f : A -> B -> C) (a : array2 A) (b : array2 B) : array2 C :=
  zip_with (zip_with f) a b.

(** [np.any(mask)]. *)
Definition aany (mask : array2 bool) : bool := existsb (existsb id) mask.

(** [f x y] for every [x < w] and [y < h], row by row. *)
Definition tabulate {A} (w h : nat) (f : nat -> nat -> A) : array2 A :=
  (fun y => (fun x => f x y) <$> seq 0 w) <$> seq 0 h.

(** A Pillow image in mode RGBA: its size and its pixel rows. *)
Record image : Type := Image { width : nat; height : nat; rows : array2 pixel }.

(** The rows agree with the declared size. *)
Definition image_ok (img : image) : Prop :=
  length (rows img) = height img /\
  Forall (fun row => length row = width img) (rows img).

Definition getpixel (img : image) (x y : nat) : option pixel := aget (rows img) x y.

(** The pixel at integer coordinates, [None] outside the buffer. *)
Definition pixel_at (img : image) (x y : Z) : option pixel :=
  if (0 <=? x) && (0 <=? y) then getpixel img (Z.to_nat x) (Z.to_nat y) else None.

(* ===================================================================== *)
(** ** The file system                                                    *)
(* ===================================================================== *)

(** Paths map to the RGBA image their file decodes to.  A path is the
    file it names: two spellings of one file are two keys.  Directories are
    not modelled, and neither are the refusals of the encoder or of the
    device; the properties that depend on one of these say so in their
    hypotheses. *)
Abbreviation fsys := (gmap string image).

(** [Image.open(path).convert("RGBA")]. *)
Definition open_rgba (path : string) : M fsys image :=
  fun fs => match fs !! path with
            | Some img => Ok img fs
            | None => Raise FileNotFoundError fs
            end.

(** An image without pixels.  No file decodes to one; [crop] makes one
    from an empty box. *)
Definition empty_image (img : image) : bool :=
  (width img =? 0)%nat || (height img =? 0)%nat.

(** [img.save(path)], for an image and a path that the encoder accepts: the
    file is written.  The library refuses an image without pixels and a path
    whose extension names no format, both with [ValueError]; these refusals
    are not part of [save], and a property on a run that could meet one
    excludes it by hypothesis. *)
Definition save (img : image) (path : string) : M fsys unit :=
  fun fs => Ok tt (<[path := img]> fs).

(** [os.makedirs(output_dir, exist_ok=True)] for a directory that exists or
    can be made.  The empty path is refused with [FileNotFoundError]; that
    is not part of [makedirs]. *)
Definition makedirs (dir : string) : M fsys unit := ret tt.

(* ===================================================================== *)
(** ** chroma_key_magenta                                                 *)
(* ===================================================================== *)

(** Core magenta: high R, low G, high B.
    [(r > (255 - tolerance)) & (g < tolerance) & (b > (255 - tolerance))];
    the comparisons of a byte with a Python integer are the exact ones. *)
Definition core_magenta (tolerance : Z) (p : pixel) : bool :=
  (255 - tolerance <? red p) && (green p <? tolerance) && (255 - tolerance <? blue p).

(** [(r - 255) ** 2 + g ** 2 + (b - 255) ** 2], the square of the distance
    from pure magenta.  On bytes it is an integer below [2^18], which binary64
    holds exactly. *)
Definition magenta_dist2 (p : pixel) : Z :=
  (red p - 255) * (red p - 255) + green p * green p + (blue p - 255) * (blue p - 255).

(** [np.sqrt(d2) < n] for an integer [n]: the square root is correctly
    rounded and [n] is an integer, so the comparison is the exact one, and
    [sqrt d2 < n] holds exactly when the integer square root is below [n].
    The array library turns [n] into a binary64 number first, which raises
    [OverflowError] for an integer beyond the binary64 range; [dist_lt] is
    the comparison for the integers in [float_range]. *)
Definition dist_lt (d2 n : Z) : bool := Z.sqrt d2 <? n.

(** Integers that convert to a finite binary64 number. *)
Definition float_range (n : Z) : Prop := - 2 ^ 1023 <= n <= 2 ^ 1023.

(** A Python integer as a binary64 number (round to nearest even). *)
Definition Z2F (z : Z) : float := SF2Prim (binary_normalize 53 1024 z 0 false).

(** [np.clip(v, lo, hi)] on binary64. *)
Definition fclip (v lo hi : float) : float :=
  if PrimFloat.ltb v lo then lo else if PrimFloat.ltb hi v then hi else v.

(** [astype(np.uint8)] of a binary64 number in [0, 255]: truncation. *)
Definition trunc_uint8 (v : float) : Z :=
  match Prim2SF v with
  | S754_finite false m e =>
      let n := match e with
               | Z0 => Zpos m
               | Zpos k => Z.shiftl (Zpos m) (Zpos k)
               | Zneg k => Z.shiftr (Zpos m) (Zpos k)
               end in
      n mod 256
  | _ => 0
  end.

(** [np.clip(distance / (tolerance * 2) * 255, 0, 255).astype(np.uint8)],
    with [distance = np.sqrt(d2)], in binary64 arithmetic. *)
Definition edge_alpha (d2 tolerance : Z) : Z :=
  trunc_uint8
    (fclip (PrimFloat.mul
              (PrimFloat.div (PrimFloat.sqrt (Z2F d2)) (Z2F (tolerance * 2)))
              (Z2F 255))
           (Z2F 0) (Z2F 255)).

(** [np.clip(g.astype(int) + 30, 0, 255).astype(np.uint8)]. *)
Definition despill (g : Z) : Z := Z.min (Z.max (g + 30) 0) 255.

Definition set_alpha (a : Z) (p : pixel) : pixel := RGBA (red p) (green p) (blue p) a.
Definition set_green (g : Z) (p : pixel) : pixel := RGBA (red p) g (blue p) (alpha p).

(** The array part of [chroma_key_magenta], statement by statement. *)
Definition chroma_key_array (tolerance : Z) (data : array2 pixel) : array2 pixel :=
  let magenta_mask := amap (core_magenta tolerance) data in
  let magenta_distance := amap magenta_dist2 data in
  let edge_mask :=
    azip (fun d m => dist_lt d (tolerance * 2) && negb m) magenta_distance magenta_mask in
  (* data[magenta_mask] = [0, 0, 0, 0] *)
  let data1 := azip (fun (m : bool) p => if m then transparent else p) magenta_mask data in
  if aany edge_mask then
    (* data[edge_mask, 3] = alpha_values.astype(np.uint8) *)
    let alpha_values := amap (fun d => edge_alpha d tolerance) magenta_distance in
    let data2 :=
      azip (fun (ea : bool * Z) p => if fst ea then set_alpha (snd ea) p else p)
           (azip pair edge_mask alpha_values) data1 in
    (* data[edge_mask, 1] = clip(data[edge_mask, 1] + 30, 0, 255) *)
    azip (fun (e : bool) p => if e then set_green (despill (green p)) p else p)
         edge_mask data2
  else data1.

(** [np.array(img)] ... [Image.fromarray(data)]: the size is that of the input. *)
Definition chroma_key_image (tolerance : Z) (img : image) : image :=
  Image (width img) (height img) (chroma_key_array tolerance (rows img)).

Definition chroma_key_magenta (input_path output_path : string) (tolerance : Z)
  : M fsys string :=
  (let! img := open_rgba input_path in
   do! save (chroma_key_image tolerance img) output_path in
   ret output_path)%py.

(** What the function does to one pixel, read off the three assignments. *)
Definition chroma_key_pixel (tolerance : Z) (p : pixel) : pixel :=
  if core_magenta tolerance p then transparent
  else if dist_lt (magenta_dist2 p) (tolerance * 2)
       then RGBA (red p) (despill (green p)) (blue p)
                 (edge_alpha (magenta_dist2 p) tolerance)
       else p.

(* ===================================================================== *)
(** ** The Pillow operations the scripts call                             *)
(* ===================================================================== *)

(** A box [(left, upper, right, lower)] in pixel coordinates. *)
Definition box : Type := (Z * Z * Z * Z)%type.

Definition box_width (b : box) : Z := let '(l, _, r, _) := b in r - l.
Definition box_height (b : box) : Z := let '(_, u, _, lo) := b in lo - u.

(** The region a crop copies: [right - left] by [lower - upper] pixels, the
    pixel at [(x, y)] taken from [(left + x, upper + y)] of the source, and
    transparent black where the box leaves the source. *)
Definition crop_region (img : image) (b : box) : image :=
  let '(l, u, r, lo) := b in
  let w := Z.to_nat (r - l) in
  let h := Z.to_nat (lo - u) in
  Image w h
    (tabulate w h (fun x y =>
       match pixel_at img (l + Z.of_nat x) (u + Z.of_nat y) with
       | Some p => p
       | None => transparent
       end)).

(** [img.crop(box)]: a box whose right is left of its left, or whose lower
    is above its upper, is refused with [ValueError]. *)
Definition crop {S} (img : image) (b : box) : M S image :=
  let '(l, u, r, lo) := b in
  if r <? l then raise ValueError
  else if lo <? u then raise ValueError
  else ret (crop_region img b).

Section Getbbox.

(** The library's [alpha_only] flag of [getbbox]: when set (the default
    since Pillow 10) a pixel is content when its alpha is non-zero,
    otherwise when any of its channels is non-zero. *)
Variable alpha_only : bool.

Definition is_content (p : pixel) : bool :=
  if alpha_only then negb (alpha p =? 0)
  else negb (pixel_eqb p transparent).

Definition content_at (img : image) (x y : nat) : bool :=
  match getpixel img x y with
  | Some p => is_content p
  | None => false
  end.

(** The columns, and the rows, that hold a content pixel, in increasing order. *)
Definition content_cols (img : image) : list nat :=
  List.filter (fun x => existsb (fun y => content_at img x y) (seq 0 (height img)))
              (seq 0 (width img)).
Definition content_rows (img : image) : list nat :=
  List.filter (fun y => existsb (fun x => content_at img x y) (seq 0 (width img)))
              (seq 0 (height img)).

(** [img.getbbox()]: the smallest box around the content, [None] when
    there is none. *)
Definition getbbox (img : image) : option box :=
  match content_cols img, content_rows img with
  | x0 :: xs, y0 :: ys =>
      Some (Z.of_nat x0, Z.of_nat y0,
            Z.of_nat (List.last xs x0) + 1, Z.of_nat (List.last ys y0) + 1)
  | _, _ => None
  end.

(** The box [trim_to_content] crops to: the bounding box grown by
    [padding] and clamped to the image. *)
Definition padded_box (img : image) (bbox : box) (padding : Z) : box :=
  let '(b0, b1, b2, b3) := bbox in
  (Z.max 0 (b0 - padding),
   Z.max 0 (b1 - padding),
   Z.min (Z.of_nat (width img)) (b2 + padding),
   Z.min (Z.of_nat (height img)) (b3 + padding)).

Definition trim_to_content (input_path output_path : string) (padding : Z)
  : M fsys string :=
  (let! img := open_rgba input_path in
   match getbbox img with
   | None =>
       do! save img output_path in
       ret output_path
   | Some bbox =>
       let padded := padded_box img bbox padding in
       let! trimmed := crop img padded in
       do! save trimmed output_path in
       ret output_path
   end)%py.

End Getbbox.

(** Nearest-neighbour sampling: output index [i] of [n_out] reads the source
    index under the centre of the output pixel,
    [floor ((i + 1/2) * n_in / n_out)], here in exact arithmetic.  The
    library steps a binary64 position from [n_in / n_out / 2] by
    [n_in / n_out]; where the centre falls exactly between two source
    pixels (a tie) the rounding of that position decides, and it may read
    the left one, [nearest_index - 1].  A property that holds of the library
    allows either neighbour at a tie. *)
Definition nearest_index (i n_in n_out : nat) : nat :=
  ((2 * i + 1) * n_in / (2 * n_out))%nat.

(** [img.resize((w, h), Image.NEAREST)]; a size below one is refused. *)
Definition resize {S} (img : image) (w h : Z) : M S image :=
  if (w <? 1) || (h <? 1) then raise ValueError
  else
    let w' := Z.to_nat w in
    let h' := Z.to_nat h in
    ret (Image w' h'
           (tabulate w' h' (fun x y =>
              match getpixel img (nearest_index x (width img) w')
                                 (nearest_index y (height img) h') with
              | Some p => p
              | None => transparent
              end))).

(** [img.transpose(Image.FLIP_LEFT_RIGHT)]: every row back to front. *)
Definition flip_left_right (img : image) : image :=
  Image (width img) (height img) (reverse <$> rows img).

(* ===================================================================== *)
(** ** resize_nearest, slice_sprite_sheet, mirror_horizontal              *)
(* ===================================================================== *)

Definition resize_nearest (input_path output_path : string) (w h : Z) : M fsys string :=
  (let! img := open_rgba input_path in
   let! resized := resize img w h in
   do! save resized output_path in
   ret output_path)%py.

(** [s.endswith(suffix)]. *)
Definition endswith (s suffix : string) : bool :=
  (String.length suffix <=? String.length s)%nat &&
  String.eqb (substring (String.length s - String.length suffix) (String.length suffix) s)
             suffix.

(** [os.path.join(a, b)] on a POSIX system. *)
Definition path_join (a b : string) : string :=
  if String.prefix "/" b then b
  else if String.eqb a "" || endswith a "/" then (a ++ b)%string
  else (a ++ "/" ++ b)%string.

(** [s.zfill(k)] for a string of digits. *)
Definition zfill (k : nat) (s : string) : string :=
  (string_of_list_ascii (repeat "0"%char (k - String.length s)) ++ s)%string.

(** The decimal digits of a non-negative integer. *)
Definition decimal (n : nat) : string := NilEmpty.string_of_uint (Nat.to_uint n).

(** [f"{i:03d}"]: decimal, padded with zeros to three characters, the sign
    counted in. *)
Definition format_03d (i : Z) : string :=
  if i <? 0 then ("-" ++ zfill 2 (decimal (Z.to_nat (- i))))%string
  else zfill 3 (decimal (Z.to_nat i)).

(** [f"{base_name}_f{i:03d}.png"]. *)
Definition frame_name (base_name : string) (i : Z) : string :=
  (base_name ++ "_f" ++ format_03d i ++ ".png")%string.

(** [os.path.join(output_dir, f"{base_name}_f{i:03d}.png")]. *)
Definition frame_path (output_dir base_name : string) (i : Z) : string :=
  path_join output_dir (frame_name base_name i).

(** The crop box of frame [i]. *)
Definition frame_box (frame_width frame_height i : Z) : box :=
  (i * frame_width, 0, (i + 1) * frame_width, frame_height).

Definition slice_sprite_sheet (sheet_path output_dir base_name : string) (frame_count : Z)
  : M fsys Z :=
  (do! makedirs output_dir in
   let! sheet := open_rgba sheet_path in
   let! frame_width := floordiv (Z.of_nat (width sheet)) frame_count in
   let frame_height := Z.of_nat (height sheet) in
   do! for_each (range frame_count) (fun i =>
         let! frame := crop sheet (frame_box frame_width frame_height i) in
         save frame (frame_path output_dir base_name i)) in
   ret frame_count)%py.

Definition mirror_horizontal (input_path output_path : string) : M fsys string :=
  (let! img := open_rgba input_path in
   let mirrored := flip_left_right img in
   do! save mirrored output_path in
   ret output_path)%py.

(* ===================================================================== *)
(** ** generate_beans.py                                                  *)
(* ===================================================================== *)

(** [sys.exit(code)] raises [SystemExit]; the interpreter ends the process
    with that status.  Any other exception that reaches the top level is
    reported as a traceback and ends the process with status 1. *)
Inductive halt : Type :=
| SystemExit (code : Z)
| Uncaught (e : exn).

(** What the script has done so far: the lines it printed and the files it
    wrote, oldest first. *)
Record console : Type := Console {
  stdout : list string;
  written : list (string * list Byte.byte)
}.

Inductive run (A : Type) : Type :=
| Done (a : A) (c : console)
| Halt (h : halt) (c : console).
Arguments Done {A} a c.
Arguments Halt {A} h c.

Definition Script (A : Type) : Type := console -> run A.

Definition sret {A} (a : A) : Script A := fun c => Done a c.
Definition sbind {A B} (m : Script A) (k : A -> Script B) : Script B :=
  fun c => match m c with
           | Done a c' => k a c'
           | Halt h c' => Halt h c'
           end.
Definition throw {A} (e : exn) : Script A := fun c => Halt (Uncaught e) c.
Definition sys_exit {A} (code : Z) : Script A := fun c => Halt (SystemExit code) c.
Definition print (line : string) : Script unit :=
  fun c => Done tt (Console (stdout c ++ [line]) (written c)).
Definition write_file (path : string) (data : list Byte.byte) : Script unit :=
  fun c => Done tt (Console (stdout c) (written c ++ [(path, data)])).

Declare Scope script_scope.
Delimit Scope script_scope with script.
Notation "'let!' x ':=' m 'in' k" := (sbind m (fun x => k))
  (at level 10, x name, m at level 100, k at level 200) : script_scope.
Notation "'do!' m 'in' k" := (sbind m (fun _ => k))
  (at level 10, m at level 100, k at level 200) : script_scope.

(** The status the process ends with. *)
Definition exit_status {A} (r : run A) : Z :=
  match r with
  | Done _ _ => 0
  | Halt (SystemExit code) _ => code
  | Halt (Uncaught _) _ => 1
  end.

Definition console_of {A} (r : run A) : console :=
  match r with
  | Done _ c => c
  | Halt _ c => c
  end.

(** *** JSON values, with Python's dynamic operations on them *)

(** What [json.loads] returns.  A number keeps its text: the script never
    computes with one. *)
#[local] Set Warnings "-register-all".
Inductive json : Type :=
| JNull
| JBool (b : bool)
| JNum (text : string)
| JStr (s : string)
| JList (items : list json)
| JDict (entries : list (string * json)).

Definition has_key (key : string) (entries : list (string * json)) : bool :=
  existsb (fun kv => String.eqb (fst kv) key) entries.

Fixpoint lookup_key (key : string) (entries : list (string * json)) : option json :=
  match entries with
  | [] => None
  | (k, v) :: rest => if String.eqb k key then Some v else lookup_key key rest
  end.

Definition is_str (key : string) (v : json) : bool :=
  match v with
  | JStr s => String.eqb s key
  | _ => false
  end.

(** [needle in haystack] on strings. *)
Definition is_substring (needle haystack : string) : bool :=
  match index 0 needle haystack with
  | Some _ => true
  | None => String.eqb needle ""
  end.

(** [key in v]: a key of a dict, an element of a list, a substring of a
    string; [TypeError] on anything else. *)
Definition py_in (key : string) (v : json) : Script bool :=
  match v with
  | JDict entries => sret (has_key key entries)
  | JList items => sret (existsb (is_str key) items)
  | JStr s => sret (is_substring key s)
  | _ => throw TypeError
  end.

(** [v[key]] with a string key. *)
Definition py_getitem (v : json) (key : string) : Script json :=
  match v with
  | JDict entries =>
      match lookup_key key entries with
      | Some x => sret x
      | None => throw KeyError
      end
  | _ => throw TypeError
  end.

(** The elements [for x in v] runs over. *)
Definition py_iter (v : json) : Script (list json) :=
  match v with
  | JList items => sret items
  | JDict entries => sret (map (fun kv => JStr (fst kv)) entries)
  | JStr s => sret (map (fun c => JStr (String c EmptyString)) (list_ascii_of_string s))
  | _ => throw TypeError
  end.

(** [v[:n]]. *)
Definition py_slice (v : json) (n : nat) : Script json :=
  match v with
  | JStr s => sret (JStr (substring 0 n s))
  | JList items => sret (JList (firstn n items))
  | _ => throw TypeError
  end.

(** *** Text helpers *)

(** [str.isspace] on one character, what [str.strip] removes.  A string
    of the model holds the characters below U+0100, one per [ascii]; the
    white space among them is U+0009 to U+000D, U+001C to U+0020, U+0085
    and U+00A0.  Text with a character from U+0100 on is outside the
    model. *)
Definition is_space (c : ascii) : bool :=
  let n := nat_of_ascii c in
  ((9 <=? n) && (n <=? 13) || (28 <=? n) && (n <=? 32) ||
   (n =? 133) || (n =? 160))%nat.

Fixpoint lstrip (s : string) : string :=
  match s with
  | String c rest => if is_space c then lstrip rest else s
  | EmptyString => EmptyString
  end.

Definition string_rev (s : string) : string :=
  string_of_list_ascii (rev (list_ascii_of_string s)).

(** [s.strip()]. *)
Definition strip (s : string) : string :=
  string_rev (lstrip (string_rev (lstrip s))).

(** [s.split(sep, 1)] for a one-character separator. *)
Fixpoint split_once (sep : ascii) (s : string) : list string :=
  match s with
  | EmptyString => [EmptyString]
  | String c rest =>
      if Ascii.eqb c sep then [EmptyString; rest]
      else match split_once sep rest with
           | first :: others => String c first :: others
           | [] => [String c EmptyString]
           end
  end.

(** [str(z)] for an integer. *)
Definition str_int (z : Z) : string :=
  if z <? 0 then ("-" ++ decimal (Z.to_nat (- z)))%string else decimal (Z.to_nat z).

(** Digits, least significant first, with a comma after every third one
    that is followed by another. *)
Fixpoint commas_rev (digits : list ascii) (k : nat) : list ascii :=
  match digits with
  | [] => []
  | d :: rest =>
      match rest with
      | [] => [d]
      | _ :: _ =>
          if (k =? 2)%nat then d :: ","%char :: commas_rev rest 0
          else d :: commas_rev rest (S k)
      end
  end.

(** [f"{n:,}"]. *)
Definition format_commas (n : nat) : string :=
  string_of_list_ascii (rev (commas_rev (rev (list_ascii_of_string (decimal n))) 0)).

(** *** The script *)

(** The answer of [urllib.request.urlopen] together with the reading and
    decoding of its body, which happen inside the same [try]. *)
Inductive http_reply : Type :=
| Reply (result : json)
    (** a success status whose body [json.loads] decoded *)
| HTTPError (code : Z) (error_body : option string)
    (** an error status; [None] when the error body is not valid UTF-8 *)
| Failure (message : string).
    (** any other [Exception] raised inside the [try] *)

(** Everything outside the script that it reads or calls. *)
Record world : Type := World {
  env_file : option (list string);
    (** the lines of [.env], [None] when the file cannot be opened *)
  project_dir : string;
  urlopen : string -> http_reply;
    (** the reply to the POST, by request URL *)
  b64decode : string -> option (list Byte.byte);
    (** [base64.b64decode], [None] for [binascii.Error] *)
  py_repr : json -> string;
    (** how an f-string renders a value that is not a string *)
  json_dumps : json -> string
    (** [json.dumps(result, indent=2)] *)
}.

Definition py_str (w : world) (v : json) : string :=
  match v with
  | JStr s => s
  | _ => py_repr w v
  end.

(** The loop over the lines of [.env]. *)
Fixpoint load_api_key (lines : list string) : Script (option string) :=
  match lines with
  | [] => sret None
  | line :: rest =>
      if String.prefix "GEMINI_API_KEY=" line then
        match split_once "="%char (strip line) !! 1%nat with
        | Some value => sret (Some value)
        | None => throw IndexError
        end
      else load_api_key rest
  end.

(** [not api_key]. *)
Definition key_missing (api_key : option string) : bool :=
  match api_key with
  | None => true
  | Some s => String.eqb s ""
  end.

Definition endpoint : string :=
  "https://generativelanguage.googleapis.com/v1beta/models/gemini-3-pro-image-preview:generateContent?key=".

Definition output_path (w : world) : string :=
  path_join (path_join (path_join (path_join (path_join (project_dir w) "assets")
    "characters") "beans") "_raw") "beans-idle-s-v1.png".

Definition no_key_message : string := "ERROR: GEMINI_API_KEY not found in .env".
Definition no_image_message : string := "ERROR: No image was generated. Full response:".

Section Script.

Variable w : world.

(** The loop over the parts of one candidate; the result is [image_saved]. *)
Fixpoint scan_parts (parts : list json) : Script bool :=
  match parts with
  | [] => sret false
  | part :: rest =>
      (let! inline := py_in "inlineData" part in
       if inline then
         let! inline_data := py_getitem part "inlineData" in
         let! data := py_getitem inline_data "data" in
         let! img_data :=
           match data with
           | JStr s => match b64decode w s with
                       | Some bytes => sret bytes
                       | None => throw BinasciiError
                       end
           | _ => throw TypeError
           end in
         do! write_file (output_path w) img_data in
         do! print ("Saved B3ANS sprite to: " ++ output_path w) in
         do! print ("File size: " ++ format_commas (length img_data) ++ " bytes") in
         sret true
       else
         let! text := py_in "text" part in
         do! (if text then
                let! t := py_getitem part "text" in
                let! t200 := py_slice t 200 in
                print ("Text response: " ++ py_str w t200)
              else sret tt) in
         scan_parts rest)%script
  end.

(** The loop over the candidates; the result is [image_saved]. *)
Fixpoint scan_candidates (candidates : list json) : Script bool :=
  match candidates with
  | [] => sret false
  | candidate :: rest =>
      (let! has_content := py_in "content" candidate in
       let! has_parts :=
         (if has_content then
            let! content := py_getitem candidate "content" in
            py_in "parts" content
          else sret false) in
       let! image_saved :=
         (if has_parts then
            let! content := py_getitem candidate "content" in
            let! parts := py_getitem content "parts" in
            let! parts := py_iter parts in
            scan_parts parts
          else sret false) in
       if image_saved then sret true else scan_candidates rest)%script
  end.

Definition extract_image (result : json) : Script bool :=
  (let! has_candidates := py_in "candidates" result in
   if has_candidates then
     let! candidates := py_getitem result "candidates" in
     let! candidates := py_iter candidates in
     scan_candidates candidates
   else sret false)%script.

Definition generate_beans : Script unit :=
  (let! lines :=
     match env_file w with
     | Some lines => sret lines
     | None => throw FileNotFoundError
     end in
   let! api_key := load_api_key lines in
   do! (if key_missing api_key then
          do! print no_key_message in
          sys_exit 1
        else sret tt) in
   let url := (endpoint ++ default "" api_key)%string in
   do! print "Calling Gemini API to generate B3ANS canonical sprite..." in
   do! print "This may take 15-30 seconds..." in
   let! result :=
     match urlopen w url with
     | Reply result => sret result
     | HTTPError code body =>
         let! error_body :=
           match body with
           | Some text => sret text
           | None => throw UnicodeDecodeError
           end in
         do! print ("API Error " ++ str_int code ++ ": " ++ error_body) in
         sys_exit 1
     | Failure message =>
         do! print ("Request failed: " ++ message) in
         sys_exit 1
     end in
   let! image_saved := extract_image result in
   do! (if image_saved then sret tt
        else
          do! print no_image_message in
          do! print (substring 0 2000 (json_dumps w result)) in
          sys_exit 1) in
   do! print (String "010"%char "B3ANS v1 canonical sprite generated successfully!") in
   do! print ("Output: " ++ output_path w) in
   print "Please review the sprite before proceeding with directional poses.")%script.

(** One run of the script from an empty console. *)
Definition run_script : run unit := generate_beans (Console [] []).

End Script.

(* ===================================================================== *)
(** ** Vocabulary of the properties                                       *)
(* ===================================================================== *)

(** The chroma-key test on the channels of a pixel. *)
Definition in_chroma_box (tolerance : Z) (p : pixel) : Prop :=
  255 - tolerance < red p /\ green p < tolerance /\ 255 - tolerance < blue p.

(** The Euclidean distance of [p] from pure magenta is below the integer
    [n], respectively at least [n], stated on the squares. *)
Definition nearer_than (n : Z) (p : pixel) : Prop :=
  0 < n /\ magenta_dist2 p < n * n.
Definition at_least_as_far_as (n : Z) (p : pixel) : Prop :=
  n <= 0 \/ n * n <= magenta_dist2 p.

(** "Which pixels are removed is decided by a threshold on the distance to
    magenta": some threshold, a function of the tolerance alone, separates
    the removed pixels from the others.  The threshold is on the squared
    distance, an integer, which loses nothing: a real bound [d] on the
    distance is the bound [ceil (d * d)] on its square.  [removed] reads
    "fully transparent" off an output pixel. *)
Definition removal_by_distance (removed : pixel -> bool) : Prop :=
  exists threshold : Z -> Z,
    forall tolerance (data : array2 pixel) x y p,
      aget data x y = Some p ->
      pixel_ok p ->
      exists q, aget (chroma_key_array tolerance data) x y = Some q /\
                (removed q = true <-> magenta_dist2 p < threshold tolerance).

Definition is_transparent_black (q : pixel) : bool := pixel_eqb q transparent.
Definition has_zero_alpha (q : pixel) : bool := alpha q =? 0.

(** A box that [crop] accepts. *)
Definition box_ordered (b : box) : Prop :=
  let '(l, u, r, lo) := b in l <= r /\ u <= lo.

(** A box that holds a pixel: its crop is an image that [save] accepts. *)
Definition box_nonempty (b : box) : Prop :=
  let '(l, u, r, lo) := b in l < r /\ u < lo.

(** A file name without a directory part. *)
Definition plain_name (s : string) : Prop :=
  Forall (fun c => c <> "/"%char) (list_ascii_of_string s).


(** *** The generation script *)

Definition key_prefix : string := "GEMINI_API_KEY=".

(** [s.rstrip()]. *)
Definition rstrip (s : string) : string := string_rev (lstrip (string_rev s)).

(** No line of [.env] defines the key. *)
Definition no_key_line (lines : list string) : Prop :=
  Forall (fun line => String.prefix key_prefix line = false) lines.

(** The first line of [.env] that defines the key gives it the value [key]. *)
Definition first_key_line (lines : list string) (key : string) : Prop :=
  exists before rest after,
    lines = before ++ (key_prefix ++ rest)%string :: after /\
    no_key_line before /\
    key = rstrip rest.

Definition calling_lines : list string :=
  ["Calling Gemini API to generate B3ANS canonical sprite...";
   "This may take 15-30 seconds..."].

(** "An HTTP error from the remote call prints a message and ends the
    process with a non-zero status, no file being written": behind the two
    progress lines the script prints a line about the failure. *)
Definition every_http_error_is_reported : Prop :=
  forall (w : world) (lines : list string) (key : string) (code : Z)
         (body : option string),
    env_file w = Some lines ->
    first_key_line lines key ->
    key <> ""%string ->
    urlopen w (endpoint ++ key) = HTTPError code body ->
    exists message,
      stdout (console_of (run_script w)) = calling_lines ++ [message] /\
      exit_status (run_script w) <> 0 /\
      written (console_of (run_script w)) = [].

(** A part as the service sends it, without image data: an object with no
    ["inlineData"] member whose ["text"], if any, is a string. *)
Definition text_part (part : json) : bool :=
  match part with
  | JDict entries =>
      negb (has_key "inlineData" entries) &&
      match lookup_key "text" entries with
      | None | Some (JStr _) => true
      | Some _ => false
      end
  | _ => false
  end.

(** A candidate whose ["content"], if any, is an object whose ["parts"], if
    any, is a list of such parts. *)
Definition candidate_without_image (candidate : json) : bool :=
  match candidate with
  | JDict entries =>
      match lookup_key "content" entries with
      | None => true
      | Some (JDict content) =>
          match lookup_key "parts" content with
          | None => true
          | Some (JList parts) => forallb text_part parts
          | Some _ => false
          end
      | Some _ => false
      end
  | _ => false
  end.

(** A response object that holds no image data. *)
Definition response_without_image (result : json) : bool :=
  match result with
  | JDict entries =>
      match lookup_key "candidates" entries with
      | None => true
      | Some (JList candidates) => forallb candidate_without_image candidates
      | Some _ => false
      end
  | _ => false
  end.

(** The lines the script prints for the text parts of such a response. *)
Definition part_lines (part : json) : list string :=
  match part with
  | JDict entries =>
      match lookup_key "text" entries with
      | Some (JStr s) => [("Text response: " ++ substring 0 200 s)%string]
      | _ => []
      end
  | _ => []
  end.

Definition candidate_lines (candidate : json) : list string :=
  match candidate with
  | JDict entries =>
      match lookup_key "content" entries with
      | Some (JDict content) =>
          match lookup_key "parts" content with
          | Some (JList parts) => flat_map part_lines parts
          | _ => []
          end
      | _ => []
      end
  | _ => []
  end.

Definition response_lines (result : json) : list string :=
  match result with
  | JDict entries =>
      match lookup_key "candidates" entries with
      | Some (JList candidates) => flat_map candidate_lines candidates
      | _ => []
      end
  | _ => []
  end.


(** Reading a decimal string back, leading zeros allowed. *)
Definition read_decimal (s : string) : option nat :=
  option_map Nat.of_uint (NilEmpty.uint_of_string s).

(** What [frame_path] puts in front of the frame number. *)
Definition frame_prefix (output_dir base_name : string) : string :=
  let stem := (base_name ++ "_f")%string in
  if String.prefix "/" stem then stem
  else if String.eqb output_dir "" || endswith output_dir "/" then (output_dir ++ stem)%string
  else (output_dir ++ "/" ++ stem)%string.


(** A step of the script that writes no file. *)
Definition quiet {A} (m : Script A) : Prop :=
  forall c, written (console_of (m c)) = written c.

(** A scan that either saved exactly the one image, and says so, or wrote
    nothing. *)
Definition saved_or_clean (w : world) (r : run bool) : Prop :=
  match r with
  | Done true c => exists data, written c = [(output_path w, data)]
  | Done false c => written c = []
  | Halt _ c => written c = []
  end.

(** A run of the whole script: it ends normally having written exactly the
    one image, or it is halted having written nothing. *)
Definition wrote_image_or_failed (w : world) (r : run unit) : Prop :=
  match r with
  | Done _ c => exists data, written c = [(output_path w, data)]
  | Halt _ c => written c = []
  end.


(* ===================================================================== *)
(** ** Sample inputs                                                      *)
(* ===================================================================== *)

(** A 2 by 2 sprite: pure magenta, a pink edge pixel, a dull magenta inside
    the chroma box, and a green pixel far from magenta. *)
Definition sample_sprite : image :=
  Image 2 2 [[RGBA 255 0 255 255; RGBA 255 100 255 255];
             [RGBA 196 59 196 255; RGBA 10 200 30 255]].

Definition sample_fs : fsys := {["in.png" := sample_sprite]}.

(** A fully transparent 2 by 2 image, and a single opaque white pixel. *)
Definition blank_sprite : image :=
  Image 2 2 [[RGBA 0 0 0 0; RGBA 0 0 0 0]; [RGBA 0 0 0 0; RGBA 0 0 0 0]].

Definition dot_sprite : image := Image 1 1 [[RGBA 255 255 255 255]].

(** A 4 by 3 image with content in columns 1 and 2 of the middle row. *)
Definition bar_sprite : image :=
  Image 4 3 [[RGBA 0 0 0 0; RGBA 0 0 0 0; RGBA 0 0 0 0; RGBA 0 0 0 0];
             [RGBA 0 0 0 0; RGBA 9 9 9 255; RGBA 8 8 8 255; RGBA 0 0 0 0];
             [RGBA 0 0 0 0; RGBA 0 0 0 0; RGBA 0 0 0 0; RGBA 0 0 0 0]].

(** A 3 by 1 strip of three distinct pixels. *)
Definition strip3 : image :=
  Image 3 1 [[RGBA 1 1 1 255; RGBA 2 2 2 255; RGBA 3 3 3 255]].

(** A world for the generation script: the given [.env] lines and reply. *)
Definition sample_world (env : option (list string)) (reply : http_reply) : world :=
  World env "/game" (fun _ => reply) (fun _ => None) (fun _ => ""%string)
        (fun _ => "{}"%string).

Definition env_with_key : list string :=
  [String "#" " local settings"; "GEMINI_API_KEY=abc123  "%string].

Definition env_without_key : list string := ["OTHER_KEY=1"%string].

(** A reply whose one candidate is a number. *)
Definition odd_reply : json :=
  JDict [("candidates"%string, JList [JNum "7"])].

(** A reply with one candidate that holds a single text part. *)
Definition text_only_reply : json :=
  JDict [("candidates"%string,
          JList [JDict [("content"%string,
                         JDict [("parts"%string,
                                 JList [JDict [("text"%string, JStr "no image")]])])]])].


(* ===================================================================== *)
(** ** full_pipeline                                                      *)
(* ===================================================================== *)

(** [s.replace(old, new)] for a non-empty [old]: every occurrence, found
    from the left and not overlapping, is replaced.  [skip] counts the
    characters of an occurrence that are still to be dropped. *)
Fixpoint replace_from (old new : string) (skip : nat) (s : string) : string :=
  match s with
  | EmptyString => EmptyString
  | String c rest =>
      match skip with
      | S k => replace_from old new k rest
      | O =>
          if String.prefix old s
          then (new ++ replace_from old new (String.length old - 1) rest)%string
          else String c (replace_from old new 0 rest)
      end
  end.

Definition str_replace (old new s : string) : string := replace_from old new 0 s.

(** [os.path.exists(path)]. *)
Definition path_exists (path : string) : M fsys bool :=
  fun fs => Ok (match fs !! path with Some _ => true | None => false end) fs.

(** [os.remove(path)]. *)
Definition remove (path : string) : M fsys unit :=
  fun fs => match fs !! path with
            | Some _ => Ok tt (delete path fs)
            | None => Raise FileNotFoundError fs
            end.

Definition keyed_path_of (input_path : string) : string :=
  str_replace ".png" "_keyed.png" input_path.
Definition trimmed_path_of (input_path : string) : string :=
  str_replace ".png" "_trimmed.png" input_path.

Definition full_pipeline (alpha_only : bool) (input_path output_path : string)
    (target_w target_h tolerance padding : Z) : M fsys string :=
  ((* Step 1: Chroma key *)
   let keyed_path := keyed_path_of input_path in
   do! chroma_key_magenta input_path keyed_path tolerance in
   (* Step 2: Trim *)
   let trimmed_path := trimmed_path_of input_path in
   do! trim_to_content alpha_only keyed_path trimmed_path padding in
   (* Step 3: Resize to target *)
   do! resize_nearest trimmed_path output_path target_w target_h in
   (* Clean intermediates *)
   do! for_each [keyed_path; trimmed_path] (fun tmp =>
         let! there := path_exists tmp in
         if there && negb (String.eqb tmp output_path) then remove tmp else ret tt) in
   ret output_path)%py.

(** The image each step of the pipeline writes, as a function of the image
    it reads. *)
Definition trim_image (alpha_only : bool) (padding : Z) (img : image) : image :=
  match getbbox alpha_only img with
  | None => img
  | Some bbox => crop_region img (padded_box img bbox padding)
  end.

Definition resize_image (w h : Z) (img : image) : image :=
  Image (Z.to_nat w) (Z.to_nat h)
    (tabulate (Z.to_nat w) (Z.to_nat h) (fun x y =>
       match getpixel img (nearest_index x (width img) (Z.to_nat w))
                          (nearest_index y (height img) (Z.to_nat h)) with
       | Some p => p
       | None => transparent
       end)).

(* ===================================================================== *)
(** ** mirror_directions and the command line                             *)
(* ===================================================================== *)

(** The file system together with what was printed. *)
Record shell : Type := Shell { files : fsys; printed : list string }.

(** A file operation run inside the shell. *)
Definition on_files {A} (m : M fsys A) : M shell A :=
  fun s => match m (files s) with
           | Ok a fs => Ok a (Shell fs (printed s))
           | Raise e fs => Raise e (Shell fs (printed s))
           end.

(** [print(line)]. *)
Definition echo (line : string) : M shell unit :=
  fun s => Ok tt (Shell (files s) (printed s ++ [line])).

(** A loop that updates a local variable: [for x in xs: acc = body x acc]. *)
Fixpoint for_fold {S A B} (xs : list A) (acc : B) (body : A -> B -> M S B) : M S B :=
  match xs with
  | [] => ret acc
  | x :: rest => bind (body x acc) (fun acc' => for_fold rest acc' body)
  end.

(** [mirror_map.items()], in insertion order. *)
Definition mirror_map : list (string * string) :=
  [("nw", "ne"); ("w", "e"); ("sw", "se")]%string.

Definition sheet_suffixes : list string :=
  [""; "-4f"; "-6f"; "-3f"; "-5f"; "-2f"]%string.

(** [f"{character}-{action}-{direction}{suffix}.png"]. *)
Definition sprite_name (character action direction suffix : string) : string :=
  (character ++ "-" ++ action ++ "-" ++ direction ++ suffix ++ ".png")%string.

Definition mirror_directions (source_dir character action : string) : M shell Z :=
  for_fold mirror_map 0 (fun dirs count =>
    let '(src_dir, dst_dir) := dirs in
    (* Try both single-frame and sprite sheet naming *)
    for_fold sheet_suffixes count (fun suffix count =>
      let src_name := sprite_name character action src_dir suffix in
      let dst_name := sprite_name character action dst_dir suffix in
      let src_path := path_join source_dir src_name in
      let dst_path := path_join source_dir dst_name in
      (let! there := on_files (path_exists src_path) in
       if there then
         do! on_files (mirror_horizontal src_path dst_path) in
         do! echo ("  Mirrored: " ++ src_name ++ " -> " ++ dst_name) in
         ret (count + 1)
       else ret count)%py)).


(** A path without a dot in it. *)
Definition dotless (s : string) : Prop :=
  Forall (fun c => c <> "."%char) (list_ascii_of_string s).

(** The name of a file without its extension: not empty, no dot and no
    directory part. *)
Definition file_stem (s : string) : Prop :=
  s <> ""%string /\ dotless s /\ plain_name s.


(** The eighteen files [mirror_directions] looks for, in the order of its
    two loops, each with the name of its mirror image. *)
Definition direction_jobs (character action : string) : list (string * string) :=
  flat_map (fun dirs =>
              map (fun suffix => (sprite_name character action (fst dirs) suffix,
                                  sprite_name character action (snd dirs) suffix))
                  sheet_suffixes)
           mirror_map.

(** One pass of the inner loop of [mirror_directions]. *)
Definition mirror_job (source_dir : string) (job : string * string) (count : Z)
  : M shell Z :=
  let src_path := path_join source_dir (fst job) in
  let dst_path := path_join source_dir (snd job) in
  (let! there := on_files (path_exists src_path) in
   if there then
     do! on_files (mirror_horizontal src_path dst_path) in
     do! echo ("  Mirrored: " ++ fst job ++ " -> " ++ snd job) in
     ret (count + 1)
   else ret count)%py.

(** The jobs whose source file is there. *)
Definition jobs_found (source_dir : string) (fs : fsys) (jobs : list (string * string))
  : list (string * string) :=
  List.filter (fun job => match fs !! path_join source_dir (fst job) with
                          | Some _ => true
                          | None => false
                          end) jobs.

(** The file system after mirroring the [jobs] whose source is in [fs0]. *)
Definition mirror_all (source_dir : string) (fs0 : fsys) (jobs : list (string * string))
    (fs : fsys) : fsys :=
  foldl (fun m job => match fs0 !! path_join source_dir (fst job) with
                      | Some img => <[path_join source_dir (snd job) := flip_left_right img]> m
                      | None => m
                      end) fs jobs.

(** What [os.path.join] puts in front of the direction in a sprite path. *)
Definition sprite_prefix (source_dir character action : string) : string :=
  let stem := (character ++ "-" ++ action ++ "-")%string in
  if String.prefix "/" stem then stem
  else if String.eqb source_dir "" || endswith source_dir "/" then (source_dir ++ stem)%string
  else (source_dir ++ "/" ++ stem)%string.

(** Direction and suffix of the eighteen sources and of their mirror images. *)
Definition direction_tails : list (string * string) :=
  flat_map (fun dirs =>
              map (fun suffix => ((fst dirs ++ suffix ++ ".png")%string,
                                  (snd dirs ++ suffix ++ ".png")%string))
                  sheet_suffixes)
           mirror_map.


(* ===================================================================== *)
(** ** The command line of art_pipeline.py                                *)
(* ===================================================================== *)

Definition newline : string := String "010"%char EmptyString.

(** The module's docstring, what [print(__doc__)] shows. *)
Definition usage : string :=
  String.concat newline
    ["Art asset post-processing pipeline for Noah's Game.";
     "";
     "Handles chroma key removal, trimming, resizing, sprite sheet slicing,";
     "and direction mirroring. Called after Gemini image generation.";
     "";
     "Usage:";
     "    python3 tools/art_pipeline.py chroma_key input.png output.png [tolerance]";
     "    python3 tools/art_pipeline.py trim input.png output.png [padding]";
     "    python3 tools/art_pipeline.py resize input.png output.png width height";
     "    python3 tools/art_pipeline.py slice sheet.png output_dir base_name frame_count";
     "    python3 tools/art_pipeline.py mirror input.png output.png";
     "    python3 tools/art_pipeline.py full_pipeline input.png output.png width height";
     ""]%string.

Section Main.

(** The library's default for [getbbox], and [int(text)] on an argument,
    [None] when it raises [ValueError]. *)
Variable alpha_only : bool.
Variable py_int : string -> option Z.

(** [sys.argv[i]]. *)
Definition argv_at (argv : list string) (i : nat) : M shell string :=
  match argv !! i with
  | Some arg => ret arg
  | None => raise IndexError
  end.

(** [int(sys.argv[i])]. *)
Definition int_argv (argv : list string) (i : nat) : M shell Z :=
  (let! arg := argv_at argv i in
   match py_int arg with
   | Some z => ret z
   | None => raise ValueError
   end)%py.

(** The [if __name__ == "__main__":] block.  The value is the status the
    process ends with: 1 after [sys.exit(1)], 0 at the end of the block. *)
Definition main (argv : list string) : M shell Z :=
  (if (length argv <? 2)%nat then
     do! echo usage in
     ret 1
   else
     let! cmd := argv_at argv 1 in
     if String.eqb cmd "chroma_key" then
       let! tol := (if (4 <? length argv)%nat then int_argv argv 4 else ret 60) in
       let! input := argv_at argv 2 in
       let! output := argv_at argv 3 in
       let! result := on_files (chroma_key_magenta input output tol) in
       do! echo ("Chroma key done: " ++ result) in
       ret 0
     else if String.eqb cmd "trim" then
       let! pad := (if (4 <? length argv)%nat then int_argv argv 4 else ret 8) in
       let! input := argv_at argv 2 in
       let! output := argv_at argv 3 in
       let! result := on_files (trim_to_content alpha_only input output pad) in
       do! echo ("Trimmed: " ++ result) in
       ret 0
     else if String.eqb cmd "resize" then
       let! input := argv_at argv 2 in
       let! output := argv_at argv 3 in
       let! w := int_argv argv 4 in
       let! h := int_argv argv 5 in
       let! result := on_files (resize_nearest input output w h) in
       do! echo ("Resized: " ++ result) in
       ret 0
     else if String.eqb cmd "slice" then
       let! sheet := argv_at argv 2 in
       let! output_dir := argv_at argv 3 in
       let! base_name := argv_at argv 4 in
       let! frame_count := int_argv argv 5 in
       let! count := on_files (slice_sprite_sheet sheet output_dir base_name frame_count) in
       do! echo ("Sliced into " ++ str_int count ++ " frames") in
       ret 0
     else if String.eqb cmd "mirror" then
       let! input := argv_at argv 2 in
       let! output := argv_at argv 3 in
       let! result := on_files (mirror_horizontal input output) in
       do! echo ("Mirrored: " ++ result) in
       ret 0
     else if String.eqb cmd "full_pipeline" then
       let! input := argv_at argv 2 in
       let! output := argv_at argv 3 in
       let! w := int_argv argv 4 in
       let! h := int_argv argv 5 in
       let! result := on_files (full_pipeline alpha_only input output w h 60 8) in
       do! echo ("Pipeline complete: " ++ result) in
       ret 0
     else if String.eqb cmd "mirror_directions" then
       let! source_dir := argv_at argv 2 in
       let! character := argv_at argv 3 in
       let! action := argv_at argv 4 in
       let! count := mirror_directions source_dir character action in
       do! echo ("Mirrored " ++ str_int count ++ " direction files") in
       ret 0
     else
       do! echo ("Unknown command: " ++ cmd) in
       do! echo usage in
       ret 1)%py.

End Main.

(** The commands the dispatch knows. *)
Definition commands : list string :=
  ["chroma_key"; "trim"; "resize"; "slice"; "mirror"; "full_pipeline";
   "mirror_directions"]%string.

(** The commands that read one file and write its result. *)
Definition file_commands : list string :=
  ["chroma_key"; "trim"; "resize"; "slice"; "mirror"]%string.


(** A step that leaves the state alone, and a step that leaves it alone
    when it raises. *)
Definition stateless {S A} (m : M S A) : Prop :=
  forall s, match m s with
            | Ok _ s' => s' = s
            | Raise _ s' => s' = s
            end.

Definition fails_clean {S A} (m : M S A) : Prop :=
  forall s e s', m s = Raise e s' -> s' = s.


(* ===================================================================== *)
(** ** Vocabulary for the runs of generate_beans.py                       *)
(* ===================================================================== *)

(** The image data a part carries: the string under ["data"] of the object
    under ["inlineData"]. *)
Definition image_data_of (part : json) : option string :=
  match part with
  | JDict entries =>
      match lookup_key "inlineData" entries with
      | Some (JDict inline) =>
          match lookup_key "data" inline with
          | Some (JStr s) => Some s
          | _ => None
          end
      | _ => None
      end
  | _ => None
  end.

(** The list under ["parts"] of the object under ["content"]. *)
Definition parts_of (candidate : json) : option (list json) :=
  match candidate with
  | JDict entries =>
      match lookup_key "content" entries with
      | Some (JDict content) =>
          match lookup_key "parts" content with
          | Some (JList parts) => Some parts
          | _ => None
          end
      | _ => None
      end
  | _ => None
  end.

(** The list under ["candidates"]. *)
Definition candidates_of (result : json) : option (list json) :=
  match result with
  | JDict entries =>
      match lookup_key "candidates" entries with
      | Some (JList candidates) => Some candidates
      | _ => None
      end
  | _ => None
  end.

(** What the script prints once it has the image. *)
Definition saved_lines (w : world) (img_data : list Byte.byte) : list string :=
  [("Saved B3ANS sprite to: " ++ output_path w)%string;
   ("File size: " ++ format_commas (length img_data) ++ " bytes")%string].

Definition success_lines (w : world) : list string :=
  [String "010"%char "B3ANS v1 canonical sprite generated successfully!";
   ("Output: " ++ output_path w)%string;
   "Please review the sprite before proceeding with directional poses."%string].

(** A step of the script that, when it halts, halts on an exception and not
    on [sys.exit]. *)
Definition never_exits {A} (m : Script A) : Prop :=
  forall c, match m c with
            | Halt (SystemExit _) _ => False
            | _ => True
            end.

(** A step that, when it ends the process through [sys.exit], does so with
    status 1. *)
Definition exits_with_one {A} (m : Script A) : Prop :=
  forall c, match m c with
            | Halt (SystemExit code) _ => code = 1
            | _ => True
            end.

(** A reply with one candidate: a line of text, the image, and a part that
    is not even an object. *)
Definition image_reply : json :=
  JDict [("candidates"%string,
          JList [JDict [("content"%string,
                         JDict [("parts"%string,
                                 JList [JDict [("text"%string, JStr "here it is")];
                                        JDict [("inlineData"%string,
                                                JDict [("data"%string, JStr "QUJD")])];
                                        JNull])])];
                 JNull])].

(** A world whose decoder knows the one string of [image_reply]. *)
Definition image_world : world :=
  World (Some env_with_key) "/game" (fun _ => Reply image_reply)
        (fun s => if String.eqb s "QUJD" then Some [Byte.x41; Byte.x42; Byte.x43] else None)
        (fun _ => ""%string) (fun _ => "{}"%string).


(** A 2 by 1 image for the pipeline samples: one magenta pixel, one opaque. *)
Definition keyed_sprite : image :=
  Image 2 1 [[RGBA 255 0 255 255; RGBA 10 200 30 255]].


(** One sprite under two names that differ in the case of the extension. *)
Definition two_heroes : fsys :=
  <["hero.PNG"%string := keyed_sprite]> {["hero.png"%string := keyed_sprite]}.

(** A sprite folder with a west-facing idle strip and a south-west sheet. *)
Definition sprite_folder : fsys :=
  {["sprites/beans-idle-w.png" := strip3;
    "sprites/beans-idle-sw-4f.png" := dot_sprite]}.

(* ===================================================================== *)
(** * Properties                                                          *)
(* ===================================================================== *)

(** ** Arrays *)

Section Arrays.
Context {A B C : Type}.

Lemma aget_amap (f : A -> B) (a : array2 A) x y :
  aget (amap f a) x y = f <$> aget a x y.
Proof.
  unfold aget, amap. rewrite list_lookup_fmap.
  destruct (a !! y) as [row|]; simpl; [apply list_lookup_fmap | reflexivity].
Qed.

Lemma aget_azip (f : A -> B -> C) (a : array2 A) (b : array2 B) x y :
  aget (azip f a b) x y =
    match aget a x y, aget b x y with
    | Some u, Some v => Some (f u v)
    | _, _ => None
    end.
Proof.
  unfold aget, azip. rewrite lookup_zip_with.
  destruct (a !! y) as [ra|]; simpl; [|reflexivity].
  destruct (b !! y) as [rb|]; simpl.
  - rewrite lookup_zip_with.
    destruct (ra !! x); simpl; [|reflexivity].
    destruct (rb !! x); reflexivity.
  - destruct (ra !! x); reflexivity.
Qed.

Lemma aget_tabulate (w h : nat) (f : nat -> nat -> A) x y :
  (x < w)%nat -> (y < h)%nat -> aget (tabulate w h f) x y = Some (f x y).
Proof.
  intros Hx Hy. unfold aget, tabulate.
  rewrite list_lookup_fmap, lookup_seq_lt by assumption. simpl.
  rewrite list_lookup_fmap, lookup_seq_lt by assumption. reflexivity.
Qed.

Lemma tabulate_length (w h : nat) (f : nat -> nat -> A) :
  length (tabulate w h f) = h.
Proof. unfold tabulate. now rewrite length_fmap, length_seq. Qed.

Lemma tabulate_rows (w h : nat) (f : nat -> nat -> A) :
  Forall (fun row => length row = w) (tabulate w h f).
Proof.
  unfold tabulate. apply Forall_fmap, Forall_forall. intros y _. simpl.
  now rewrite length_fmap, length_seq.
Qed.

End Arrays.

Lemma aany_false (mask : array2 bool) x y b :
  aany mask = false -> aget mask x y = Some b -> b = false.
Proof.
  unfold aany, aget. intros Hany Hget.
  destruct (mask !! y) as [row|] eqn:Hrow; [|discriminate].
  destruct b; [|reflexivity].
  assert (existsb (existsb id) mask = true); [|congruence].
  apply existsb_exists. exists row. split.
  - apply list_elem_of_In. eapply list_elem_of_lookup_2; eassumption.
  - apply existsb_exists. exists true. split; [|reflexivity].
    apply list_elem_of_In. eapply list_elem_of_lookup_2; eassumption.
Qed.

(** ** chroma_key_magenta *)

Lemma core_magenta_spec tolerance p :
  core_magenta tolerance p = true <-> in_chroma_box tolerance p.
Proof.
  unfold core_magenta, in_chroma_box.
  rewrite !andb_true_iff, !Z.ltb_lt. tauto.
Qed.

Lemma magenta_dist2_nonneg p : 0 <= magenta_dist2 p.
Proof.
  unfold magenta_dist2.
  pose proof (Z.square_nonneg (red p - 255)).
  pose proof (Z.square_nonneg (green p)).
  pose proof (Z.square_nonneg (blue p - 255)).
  lia.
Qed.

(** [dist_lt] is the exact comparison of the root with an integer. *)
Lemma dist_lt_spec p n :
  dist_lt (magenta_dist2 p) n = true <-> nearer_than n p.
Proof.
  unfold dist_lt, nearer_than. rewrite Z.ltb_lt.
  pose proof (magenta_dist2_nonneg p) as Hd.
  pose proof (Z.sqrt_nonneg (magenta_dist2 p)) as Hs.
  split.
  - intros Hlt. split; [lia|].
    apply Z.sqrt_lt_square; lia.
  - intros [Hn Hlt]. apply Z.sqrt_lt_square; lia.
Qed.

Lemma dist_lt_false p n :
  dist_lt (magenta_dist2 p) n = false <-> at_least_as_far_as n p.
Proof.
  pose proof (dist_lt_spec p n) as Hspec. unfold nearer_than in Hspec.
  unfold at_least_as_far_as.
  destruct (dist_lt (magenta_dist2 p) n).
  - split; [discriminate|]. intros H. exfalso.
    destruct (proj1 Hspec eq_refl). lia.
  - split; [|reflexivity]. intros _.
    destruct (Z_le_gt_dec n 0); [now left|].
    destruct (Z_lt_le_dec (magenta_dist2 p) (n * n)); [|now right].
    assert (false = true) by (apply Hspec; lia). discriminate.
Qed.

(** The array code and the per-pixel reading agree at every position. *)
Lemma chroma_key_array_get tolerance (data : array2 pixel) x y p :
  aget data x y = Some p ->
  aget (chroma_key_array tolerance data) x y = Some (chroma_key_pixel tolerance p).
Proof.
  intros Hp. unfold chroma_key_array.
  set (mask := amap (core_magenta tolerance) data).
  set (dist := amap magenta_dist2 data).
  set (edge := azip _ dist mask).
  assert (Hmask : aget mask x y = Some (core_magenta tolerance p))
    by (unfold mask; rewrite aget_amap, Hp; reflexivity).
  assert (Hdist : aget dist x y = Some (magenta_dist2 p))
    by (unfold dist; rewrite aget_amap, Hp; reflexivity).
  assert (Hedge : aget edge x y =
                  Some (dist_lt (magenta_dist2 p) (tolerance * 2)
                        && negb (core_magenta tolerance p)))
    by (unfold edge; rewrite aget_azip, Hdist, Hmask; reflexivity).
  destruct (aany edge) eqn:Hany.
  - rewrite !aget_azip, Hedge, aget_amap, Hdist, Hmask, Hp. simpl.
    unfold chroma_key_pixel.
    destruct (core_magenta tolerance p); simpl.
    + rewrite andb_false_r. reflexivity.
    + rewrite andb_true_r.
      destruct (dist_lt (magenta_dist2 p) (tolerance * 2)); reflexivity.
  - rewrite aget_azip, Hmask, Hp.
    pose proof (aany_false _ _ _ _ Hany Hedge) as Hoff.
    unfold chroma_key_pixel.
    destruct (core_magenta tolerance p); [reflexivity|].
    simpl in Hoff. rewrite andb_true_r in Hoff. now rewrite Hoff.
Qed.

Lemma chroma_key_magenta_run (fs : fsys) input_path output_path tolerance img :
  fs !! input_path = Some img ->
  chroma_key_magenta input_path output_path tolerance fs =
    Ok output_path (<[output_path := chroma_key_image tolerance img]> fs).
Proof.
  intros Hin. unfold chroma_key_magenta, bind, open_rgba, save, ret.
  now rewrite Hin.
Qed.

Lemma chroma_key_image_getpixel tolerance img x y p :
  getpixel img x y = Some p ->
  getpixel (chroma_key_image tolerance img) x y = Some (chroma_key_pixel tolerance p).
Proof. apply chroma_key_array_get. Qed.


(** C1: chroma-keyed pixels become transparent.  Whatever the image and the
    tolerance, a pixel whose channels satisfy [r > 255 - t], [g < t] and
    [b > 255 - t] is RGBA (0, 0, 0, 0) in the image the function writes. *)
Theorem chroma_keyed_pixels_become_transparent
    (fs : fsys) (input_path output_path : string) (tolerance : Z)
    (img : image) (x y : nat) (p : pixel) :
  fs !! input_path = Some img ->
  getpixel img x y = Some p ->
  255 - tolerance < red p ->
  green p < tolerance ->
  255 - tolerance < blue p ->
  exists fs' out,
    chroma_key_magenta input_path output_path tolerance fs = Ok output_path fs' /\
    fs' !! output_path = Some out /\
    width out = width img /\ height out = height img /\
    getpixel out x y = Some (RGBA 0 0 0 0).
Proof.
  intros Hin Hp Hr Hg Hb.
  exists (<[output_path := chroma_key_image tolerance img]> fs),
         (chroma_key_image tolerance img).
  split; [now apply chroma_key_magenta_run|].
  split; [apply lookup_insert_eq|].
  split; [reflexivity|]. split; [reflexivity|].
  rewrite (chroma_key_image_getpixel _ _ _ _ _ Hp).
  unfold chroma_key_pixel.
  assert (Hcore : core_magenta tolerance p = true)
    by (apply core_magenta_spec; repeat split; assumption).
  now rewrite Hcore.
Qed.

Lemma chroma_keyed_pixels_become_transparent_witness :
  exists fs' out,
    chroma_key_magenta "in.png" "out.png" 60 sample_fs = Ok "out.png" fs' /\
    fs' !! "out.png" = Some out /\
    width out = width sample_sprite /\ height out = height sample_sprite /\
    getpixel out 0 1 = Some (RGBA 0 0 0 0).
Proof.
  apply (chroma_keyed_pixels_become_transparent
           sample_fs "in.png" "out.png" 60 sample_sprite 0 1 (RGBA 196 59 196 255));
    [reflexivity | reflexivity | simpl; lia | simpl; lia | simpl; lia].
Defined.


(** The three cases of the function on one pixel of the written image. *)
Lemma chroma_key_pixel_cases tolerance p :
  (in_chroma_box tolerance p -> chroma_key_pixel tolerance p = transparent) /\
  (~ in_chroma_box tolerance p -> nearer_than (2 * tolerance) p ->
   chroma_key_pixel tolerance p =
     RGBA (red p) (despill (green p)) (blue p) (edge_alpha (magenta_dist2 p) tolerance)) /\
  (~ in_chroma_box tolerance p -> at_least_as_far_as (2 * tolerance) p ->
   chroma_key_pixel tolerance p = p).
Proof.
  unfold chroma_key_pixel. rewrite (Z.mul_comm tolerance 2).
  pose proof (core_magenta_spec tolerance p) as Hcore.
  pose proof (dist_lt_spec p (2 * tolerance)) as Hnear.
  pose proof (dist_lt_false p (2 * tolerance)) as Hfar.
  destruct (core_magenta tolerance p).
  - repeat split; intros; try reflexivity; exfalso; tauto.
  - destruct (dist_lt (magenta_dist2 p) (2 * tolerance)).
    + repeat split; intros; try reflexivity.
      * assert (false = true) by tauto. discriminate.
      * assert (true = false) by tauto. discriminate.
    + repeat split; intros; try reflexivity.
      * assert (false = true) by tauto. discriminate.
      * assert (false = true) by tauto. discriminate.
Qed.

(** C2, as amended: which pixels are overwritten with RGBA (0, 0, 0, 0) is
    decided by the test on the channels ([r > 255 - t], [g < t],
    [b > 255 - t]), not by the distance to magenta.  A pixel that passes the
    test becomes (0, 0, 0, 0).  A pixel that fails it is never overwritten
    with (0, 0, 0, 0): when its distance to magenta is below [2 t] it keeps
    red and blue, its green is raised by 30 (at most to 255) and its alpha
    is rescaled from the distance; otherwise it is unchanged. *)
Theorem removal_is_decided_by_the_channel_test
    (fs : fsys) (input_path output_path : string) (tolerance : Z)
    (img : image) (x y : nat) (p : pixel) :
  fs !! input_path = Some img ->
  getpixel img x y = Some p ->
  pixel_ok p ->
  exists fs' out q,
    chroma_key_magenta input_path output_path tolerance fs = Ok output_path fs' /\
    fs' !! output_path = Some out /\
    getpixel out x y = Some q /\
    (in_chroma_box tolerance p -> q = RGBA 0 0 0 0) /\
    (~ in_chroma_box tolerance p -> nearer_than (2 * tolerance) p ->
     q = RGBA (red p) (Z.min (green p + 30) 255) (blue p)
              (edge_alpha (magenta_dist2 p) tolerance) /\
     q <> RGBA 0 0 0 0) /\
    (~ in_chroma_box tolerance p -> at_least_as_far_as (2 * tolerance) p -> q = p).
Proof.
  intros Hin Hp Hok.
  exists (<[output_path := chroma_key_image tolerance img]> fs),
         (chroma_key_image tolerance img), (chroma_key_pixel tolerance p).
  split; [now apply chroma_key_magenta_run|].
  split; [apply lookup_insert_eq|].
  split; [now apply chroma_key_image_getpixel|].
  destruct (chroma_key_pixel_cases tolerance p) as (Hbox & Hedge & Hfar).
  split; [exact Hbox|]. split; [|exact Hfar].
  intros Hout Hnear. rewrite (Hedge Hout Hnear).
  destruct Hok as (_ & [Hg0 Hg1] & _).
  assert (Hd : despill (green p) = Z.min (green p + 30) 255)
    by (unfold despill; lia).
  rewrite Hd. split; [reflexivity|].
  intros Heq. injection Heq as _ Hgreen _ _. lia.
Qed.

Lemma removal_is_decided_by_the_channel_test_witness :
  exists fs' out q,
    chroma_key_magenta "in.png" "out.png" 60 sample_fs = Ok "out.png" fs' /\
    fs' !! "out.png" = Some out /\
    getpixel out 1 0 = Some q /\
    (in_chroma_box 60 (RGBA 255 100 255 255) -> q = RGBA 0 0 0 0) /\
    (~ in_chroma_box 60 (RGBA 255 100 255 255) ->
     nearer_than (2 * 60) (RGBA 255 100 255 255) ->
     q = RGBA (red (RGBA 255 100 255 255))
              (Z.min (green (RGBA 255 100 255 255) + 30) 255)
              (blue (RGBA 255 100 255 255))
              (edge_alpha (magenta_dist2 (RGBA 255 100 255 255)) 60) /\
     q <> RGBA 0 0 0 0) /\
    (~ in_chroma_box 60 (RGBA 255 100 255 255) ->
     at_least_as_far_as (2 * 60) (RGBA 255 100 255 255) -> q = RGBA 255 100 255 255).
Proof.
  apply (removal_is_decided_by_the_channel_test
           sample_fs "in.png" "out.png" 60 sample_sprite 1 0 (RGBA 255 100 255 255));
    [reflexivity | reflexivity | unfold pixel_ok, byte_range; simpl; lia].
Defined.

(** C2, as stated, fails.  With tolerance 60 the pixel (196, 59, 196) is
    overwritten with (0, 0, 0, 0) although it lies farther from magenta than
    the pixel (255, 100, 255), which keeps alpha 212: no threshold on the
    distance separates them, whether "fully transparent" is read as
    RGBA (0, 0, 0, 0) or as alpha 0. *)
Lemma removal_is_not_a_distance_threshold :
  magenta_dist2 (RGBA 255 100 255 255) < magenta_dist2 (RGBA 196 59 196 255) /\
  chroma_key_array 60 [[RGBA 255 100 255 255; RGBA 196 59 196 255]] =
    [[RGBA 255 130 255 212; RGBA 0 0 0 0]] /\
  ~ removal_by_distance is_transparent_black /\
  ~ removal_by_distance has_zero_alpha.
Proof.
  assert (Hrun : chroma_key_array 60 [[RGBA 255 100 255 255; RGBA 196 59 196 255]] =
                 [[RGBA 255 130 255 212; RGBA 0 0 0 0]]) by (vm_compute; reflexivity).
  assert (Hno : forall removed : pixel -> bool,
             removed (RGBA 255 130 255 212) = false ->
             removed (RGBA 0 0 0 0) = true ->
             ~ removal_by_distance removed).
  { intros removed Hkept Hgone [threshold Hthr].
    destruct (Hthr 60 [[RGBA 255 100 255 255; RGBA 196 59 196 255]] 0%nat 0%nat
                (RGBA 255 100 255 255) eq_refl) as (q1 & Hq1 & Hiff1);
      [unfold pixel_ok, byte_range; simpl; lia|].
    destruct (Hthr 60 [[RGBA 255 100 255 255; RGBA 196 59 196 255]] 1%nat 0%nat
                (RGBA 196 59 196 255) eq_refl) as (q2 & Hq2 & Hiff2);
      [unfold pixel_ok, byte_range; simpl; lia|].
    rewrite Hrun in Hq1, Hq2. injection Hq1 as <-. injection Hq2 as <-.
    apply Hiff2 in Hgone.
    assert (Hlt : magenta_dist2 (RGBA 255 100 255 255) < threshold 60)
      by (vm_compute magenta_dist2 in *; lia).
    apply Hiff1 in Hlt. congruence. }
  split; [reflexivity|]. split; [exact Hrun|].
  split; apply Hno; reflexivity.
Qed.

(** C8: a pixel that is not inside the chroma box and whose distance to
    pure magenta is at least [2 * tolerance] is written unchanged, all four
    channels. *)
Theorem pixels_far_from_magenta_are_unchanged
    (fs : fsys) (input_path output_path : string) (tolerance : Z)
    (img : image) (x y : nat) (p : pixel) :
  fs !! input_path = Some img ->
  getpixel img x y = Some p ->
  at_least_as_far_as (2 * tolerance) p ->
  ~ in_chroma_box tolerance p ->
  exists fs' out,
    chroma_key_magenta input_path output_path tolerance fs = Ok output_path fs' /\
    fs' !! output_path = Some out /\
    getpixel out x y = Some p.
Proof.
  intros Hin Hp Hfar Hout.
  exists (<[output_path := chroma_key_image tolerance img]> fs),
         (chroma_key_image tolerance img).
  split; [now apply chroma_key_magenta_run|].
  split; [apply lookup_insert_eq|].
  rewrite (chroma_key_image_getpixel _ _ _ _ _ Hp).
  f_equal. now apply chroma_key_pixel_cases.
Qed.

Lemma pixels_far_from_magenta_are_unchanged_witness :
  exists fs' out,
    chroma_key_magenta "in.png" "out.png" 60 sample_fs = Ok "out.png" fs' /\
    fs' !! "out.png" = Some out /\
    getpixel out 1 1 = Some (RGBA 10 200 30 255).
Proof.
  apply (pixels_far_from_magenta_are_unchanged
           sample_fs "in.png" "out.png" 60 sample_sprite 1 1 (RGBA 10 200 30 255));
    [reflexivity | reflexivity
    | right; vm_compute; discriminate
    | unfold in_chroma_box; simpl; lia].
Defined.


(** ** Cropping and the bounding box *)

Lemma crop_ordered {S} (img : image) (b : box) (s : S) :
  box_ordered b -> crop img b s = Ok (crop_region img b) s.
Proof.
  destruct b as [[[l u] r] lo]. intros [Hx Hy]. unfold crop.
  destruct (Z.ltb_spec r l); [lia|].
  destruct (Z.ltb_spec lo u); [lia|]. reflexivity.
Qed.

Lemma crop_inverted {S} (img : image) (b : box) (s : S) :
  ~ box_ordered b -> crop img b s = Raise ValueError s.
Proof.
  destruct b as [[[l u] r] lo]. intros Hno. unfold crop, box_ordered in *.
  destruct (Z.ltb_spec r l); [reflexivity|].
  destruct (Z.ltb_spec lo u); [reflexivity|]. lia.
Qed.

Lemma crop_region_size (img : image) (b : box) :
  width (crop_region img b) = Z.to_nat (box_width b) /\
  height (crop_region img b) = Z.to_nat (box_height b).
Proof. destruct b as [[[l u] r] lo]. split; reflexivity. Qed.

Lemma crop_region_ok (img : image) (b : box) : image_ok (crop_region img b).
Proof.
  destruct b as [[[l u] r] lo]. split; simpl.
  - apply tabulate_length.
  - apply tabulate_rows.
Qed.

Lemma crop_region_getpixel (img : image) l u r lo (x y : nat) :
  Z.of_nat x < r - l -> Z.of_nat y < lo - u ->
  getpixel (crop_region img (l, u, r, lo)) x y =
    Some (default transparent (pixel_at img (l + Z.of_nat x) (u + Z.of_nat y))).
Proof.
  intros Hx Hy. unfold getpixel. simpl.
  rewrite aget_tabulate by lia.
  destruct (pixel_at img _ _); reflexivity.
Qed.

Lemma last_cons_default {A} (xs : list A) (x d : A) :
  List.last (x :: xs) d = List.last xs x.
Proof.
  revert x d. induction xs as [|b xs IH]; intros x d; [reflexivity|].
  change (List.last (x :: b :: xs) d) with (List.last (b :: xs) d).
  now rewrite !IH.
Qed.

(** The first and the last index kept by a filter of [a, a + 1, ...]: every
    kept index lies between them, and they lie in the range. *)
Lemma filter_seq_ends (f : nat -> bool) (n a x0 : nat) (xs : list nat) :
  List.filter f (seq a n) = x0 :: xs ->
  (a <= x0 <= List.last xs x0)%nat /\ (List.last xs x0 < a + n)%nat /\
  forall z, In z (x0 :: xs) -> (x0 <= z <= List.last xs x0)%nat.
Proof.
  revert a x0 xs. induction n as [|n IH]; intros a x0 xs; simpl; [discriminate|].
  destruct (f a).
  - intros Heq. injection Heq as <- <-.
    destruct (List.filter f (seq (S a) n)) as [|x1 xs1] eqn:Hrest.
    + simpl. split; [lia|]. split; [lia|]. intros z [<-|[]]; lia.
    + destruct (IH (S a) x1 xs1 Hrest) as (Hlo & Hhi & Hall).
      rewrite last_cons_default. split; [lia|]. split; [lia|].
      intros z [<-|Hz]; [lia|]. specialize (Hall z Hz). lia.
  - intros Heq. destruct (IH (S a) x0 xs Heq) as (Hlo & Hhi & Hall).
    split; [lia|]. split; [lia|]. exact Hall.
Qed.

Section Bbox.
Variable alpha_only : bool.

(** The bounding box is not empty and lies inside the image. *)
Lemma getbbox_bounds (img : image) b0 b1 b2 b3 :
  getbbox alpha_only img = Some (b0, b1, b2, b3) ->
  0 <= b0 < b2 /\ b2 <= Z.of_nat (width img) /\
  0 <= b1 < b3 /\ b3 <= Z.of_nat (height img).
Proof.
  unfold getbbox.
  destruct (content_cols alpha_only img) as [|x0 xs] eqn:Hc; [discriminate|].
  destruct (content_rows alpha_only img) as [|y0 ys] eqn:Hr; [discriminate|].
  intros Heq. injection Heq as <- <- <- <-.
  apply filter_seq_ends in Hc. apply filter_seq_ends in Hr. lia.
Qed.

(** The bounding box holds every content pixel. *)
Lemma getbbox_holds_content (img : image) b0 b1 b2 b3 (x y : nat) :
  getbbox alpha_only img = Some (b0, b1, b2, b3) ->
  (x < width img)%nat -> (y < height img)%nat ->
  content_at alpha_only img x y = true ->
  b0 <= Z.of_nat x < b2 /\ b1 <= Z.of_nat y < b3.
Proof.
  unfold getbbox. intros Hbox Hx Hy Hc.
  assert (Hcol : In x (content_cols alpha_only img)).
  { apply filter_In. split; [apply in_seq; lia|].
    apply existsb_exists. exists y. split; [apply in_seq; lia | exact Hc]. }
  assert (Hrow : In y (content_rows alpha_only img)).
  { apply filter_In. split; [apply in_seq; lia|].
    apply existsb_exists. exists x. split; [apply in_seq; lia | exact Hc]. }
  destruct (content_cols alpha_only img) as [|x0 xs] eqn:Hcs; [discriminate|].
  destruct (content_rows alpha_only img) as [|y0 ys] eqn:Hrs; [discriminate|].
  injection Hbox as <- <- <- <-.
  apply filter_seq_ends in Hcs as (_ & _ & Hcs).
  apply filter_seq_ends in Hrs as (_ & _ & Hrs).
  specialize (Hcs x Hcol). specialize (Hrs y Hrow). lia.
Qed.

(** There is no bounding box exactly when no pixel is content. *)
Lemma getbbox_none (img : image) :
  getbbox alpha_only img = None <->
  forall x y, (x < width img)%nat -> (y < height img)%nat ->
              content_at alpha_only img x y = false.
Proof.
  unfold getbbox. split.
  - intros Hnone x y Hx Hy.
    destruct (content_at alpha_only img x y) eqn:Hc; [|reflexivity]. exfalso.
    assert (Hcol : In x (content_cols alpha_only img)).
    { apply filter_In. split; [apply in_seq; lia|].
      apply existsb_exists. exists y. split; [apply in_seq; lia | exact Hc]. }
    assert (Hrow : In y (content_rows alpha_only img)).
    { apply filter_In. split; [apply in_seq; lia|].
      apply existsb_exists. exists x. split; [apply in_seq; lia | exact Hc]. }
    destruct (content_cols alpha_only img); [contradiction|].
    destruct (content_rows alpha_only img); [contradiction|]. discriminate.
  - intros Hall.
    destruct (content_cols alpha_only img) as [|x0 xs] eqn:Hc; [reflexivity|].
    exfalso.
    assert (Hin : In x0 (content_cols alpha_only img)) by (rewrite Hc; now left).
    apply filter_In in Hin as [Hx Hex]. apply in_seq in Hx.
    apply existsb_exists in Hex as (y & Hy & Hcontent). apply in_seq in Hy.
    rewrite Hall in Hcontent by lia. discriminate.
Qed.

Lemma padded_box_ordered (img : image) (bbox : box) (padding : Z) :
  getbbox alpha_only img = Some bbox ->
  0 <= padding ->
  box_ordered (padded_box img bbox padding).
Proof.
  destruct bbox as [[[b0 b1] b2] b3]. intros Hb Hp.
  apply getbbox_bounds in Hb. unfold box_ordered, padded_box. lia.
Qed.

Lemma trim_run_blank (fs : fsys) input_path output_path padding img :
  fs !! input_path = Some img ->
  getbbox alpha_only img = None ->
  trim_to_content alpha_only input_path output_path padding fs =
    Ok output_path (<[output_path := img]> fs).
Proof.
  intros Hin Hnone. unfold trim_to_content, bind, open_rgba.
  rewrite Hin, Hnone. reflexivity.
Qed.

Lemma trim_run_content (fs : fsys) input_path output_path padding img bbox :
  fs !! input_path = Some img ->
  getbbox alpha_only img = Some bbox ->
  box_ordered (padded_box img bbox padding) ->
  trim_to_content alpha_only input_path output_path padding fs =
    Ok output_path (<[output_path := crop_region img (padded_box img bbox padding)]> fs).
Proof.
  intros Hin Hsome Hord. unfold trim_to_content, bind, open_rgba.
  rewrite Hin, Hsome, (crop_ordered _ _ _ Hord). reflexivity.
Qed.

End Bbox.


Lemma pixel_at_in_range (img : image) (x y : Z) :
  image_ok img ->
  0 <= x < Z.of_nat (width img) ->
  0 <= y < Z.of_nat (height img) ->
  exists p, pixel_at img x y = Some p /\
            getpixel img (Z.to_nat x) (Z.to_nat y) = Some p.
Proof.
  intros [Hh Hw] Hx Hy. unfold pixel_at, getpixel, aget.
  destruct (Z.leb_spec 0 x); [|lia]. destruct (Z.leb_spec 0 y); [|lia]. simpl.
  destruct (lookup_lt_is_Some_2 (rows img) (Z.to_nat y)) as [row Hrow]; [lia|].
  rewrite Hrow.
  assert (Hlen : length row = width img).
  { rewrite Forall_forall in Hw. apply Hw.
    eapply list_elem_of_lookup_2; eassumption. }
  destruct (lookup_lt_is_Some_2 row (Z.to_nat x)) as [p Hp]; [lia|].
  exists p. now rewrite Hp.
Qed.

(** A fully transparent image has no bounding box, under either reading of
    "content". *)
Lemma transparent_image_has_no_bbox (alpha_only : bool) (img : image) :
  (forall x y p, getpixel img x y = Some p -> p = transparent) ->
  getbbox alpha_only img = None.
Proof.
  intros Hall. apply getbbox_none. intros x y _ _. unfold content_at.
  destruct (getpixel img x y) as [p|] eqn:Hp; [|reflexivity].
  rewrite (Hall _ _ _ Hp). unfold is_content. destruct alpha_only; reflexivity.
Qed.

(** C4, as amended: for an image with a content bounding box
    [(b0, b1, b2, b3)] and a padding [p] for which the clamped box holds a
    pixel, as is the case for every [p >= 0], the output is the crop of
    the input at the bounding box grown by [p] on each side and clamped to
    the image.  It is [min (W, b2 + p) - max (0, b0 - p)] wide and
    [min (H, b3 + p) - max (0, b1 - p)] tall, which is the bounding box plus
    [2 p] in a direction where the grown box stays inside the image. *)
Theorem trim_crops_to_the_padded_box_clamped_to_the_image
    (alpha_only : bool) (fs : fsys) (input_path output_path : string)
    (padding : Z) (img : image) (b0 b1 b2 b3 : Z) :
  fs !! input_path = Some img ->
  getbbox alpha_only img = Some (b0, b1, b2, b3) ->
  (0 <= padding -> box_nonempty (padded_box img (b0, b1, b2, b3) padding)) /\
  (box_nonempty (padded_box img (b0, b1, b2, b3) padding) ->
   exists out,
     trim_to_content alpha_only input_path output_path padding fs =
       Ok output_path (<[output_path := out]> fs) /\
     out = crop_region img (Z.max 0 (b0 - padding), Z.max 0 (b1 - padding),
                            Z.min (Z.of_nat (width img)) (b2 + padding),
                            Z.min (Z.of_nat (height img)) (b3 + padding)) /\
     empty_image out = false /\
     Z.of_nat (width out) =
       Z.min (Z.of_nat (width img)) (b2 + padding) - Z.max 0 (b0 - padding) /\
     Z.of_nat (height out) =
       Z.min (Z.of_nat (height img)) (b3 + padding) - Z.max 0 (b1 - padding) /\
     (padding <= b0 -> b2 + padding <= Z.of_nat (width img) ->
      Z.of_nat (width out) = (b2 - b0) + 2 * padding) /\
     (padding <= b1 -> b3 + padding <= Z.of_nat (height img) ->
      Z.of_nat (height out) = (b3 - b1) + 2 * padding) /\
     (image_ok img ->
      forall x y : nat,
        (x < width out)%nat -> (y < height out)%nat ->
        is_Some (getpixel out x y) /\
        getpixel out x y =
          pixel_at img (Z.max 0 (b0 - padding) + Z.of_nat x)
                       (Z.max 0 (b1 - padding) + Z.of_nat y))).
Proof.
  intros Hin Hbox.
  pose proof (getbbox_bounds _ _ _ _ _ _ Hbox) as Hb.
  split; [intros Hp; unfold box_nonempty, padded_box; lia|].
  intros Hne.
  assert (Hord : box_ordered (padded_box img (b0, b1, b2, b3) padding))
    by (unfold box_nonempty, box_ordered, padded_box in *; lia).
  eexists.
  split; [apply (trim_run_content alpha_only fs _ _ padding img (b0, b1, b2, b3));
          assumption|].
  split; [reflexivity|].
  clear Hord. unfold box_nonempty, padded_box in *.
  set (l := Z.max 0 (b0 - padding)) in *.
  set (u := Z.max 0 (b1 - padding)) in *.
  set (r := Z.min (Z.of_nat (width img)) (b2 + padding)) in *.
  set (lo := Z.min (Z.of_nat (height img)) (b3 + padding)) in *.
  destruct (crop_region_size img (l, u, r, lo)) as [Hw Hh].
  unfold box_width, box_height in Hw, Hh. unfold empty_image. rewrite Hw, Hh.
  split.
  { apply orb_false_iff. split; apply Nat.eqb_neq; lia. }
  split; [lia|]. split; [lia|]. split; [lia|]. split; [lia|].
  intros Hok x y Hx Hy.
  rewrite crop_region_getpixel by lia.
  destruct (pixel_at_in_range img (l + Z.of_nat x) (u + Z.of_nat y))
    as (p & -> & _); [assumption | lia | lia |].
  split; [now eexists | reflexivity].
Qed.

Lemma trim_crops_to_the_padded_box_clamped_to_the_image_witness :
  (0 <= 1 -> box_nonempty (padded_box bar_sprite (1, 1, 3, 2) 1)) /\
  (box_nonempty (padded_box bar_sprite (1, 1, 3, 2) 1) ->
   exists out,
     trim_to_content true "in.png" "out.png" 1 {["in.png" := bar_sprite]} =
       Ok "out.png" (<["out.png" := out]> {["in.png" := bar_sprite]}) /\
     out = crop_region bar_sprite
             (Z.max 0 (1 - 1), Z.max 0 (1 - 1),
              Z.min (Z.of_nat (width bar_sprite)) (3 + 1),
              Z.min (Z.of_nat (height bar_sprite)) (2 + 1)) /\
     empty_image out = false /\
     Z.of_nat (width out) = Z.min (Z.of_nat (width bar_sprite)) (3 + 1) - Z.max 0 (1 - 1) /\
     Z.of_nat (height out) = Z.min (Z.of_nat (height bar_sprite)) (2 + 1) - Z.max 0 (1 - 1) /\
     (1 <= 1 -> 3 + 1 <= Z.of_nat (width bar_sprite) ->
      Z.of_nat (width out) = (3 - 1) + 2 * 1) /\
     (1 <= 1 -> 2 + 1 <= Z.of_nat (height bar_sprite) ->
      Z.of_nat (height out) = (2 - 1) + 2 * 1) /\
     (image_ok bar_sprite ->
      forall x y : nat,
        (x < width out)%nat -> (y < height out)%nat ->
        is_Some (getpixel out x y) /\
        getpixel out x y =
          pixel_at bar_sprite (Z.max 0 (1 - 1) + Z.of_nat x)
                              (Z.max 0 (1 - 1) + Z.of_nat y))).
Proof.
  apply (trim_crops_to_the_padded_box_clamped_to_the_image
           true {["in.png" := bar_sprite]} "in.png" "out.png" 1 bar_sprite 1 1 3 2);
    reflexivity.
Defined.

(** C4, as stated, fails.  A single opaque pixel has the bounding box
    (0, 0, 1, 1); trimmed with padding 8 it is written as a 1 by 1 image,
    not as the 17 by 17 image that "bounding box plus 2 p" asks for: the
    padded box is clamped to the image. *)
Lemma trim_padding_is_clamped :
  getbbox true dot_sprite = Some (0, 0, 1, 1) /\
  getbbox false dot_sprite = Some (0, 0, 1, 1) /\
  box_width (0, 0, 1, 1) + 2 * 8 = 17 /\
  box_height (0, 0, 1, 1) + 2 * 8 = 17 /\
  (forall alpha_only,
     trim_to_content alpha_only "in.png" "out.png" 8 {["in.png" := dot_sprite]} =
       Ok "out.png" (<["out.png" := dot_sprite]> {["in.png" := dot_sprite]})) /\
  width dot_sprite = 1%nat /\ height dot_sprite = 1%nat.
Proof.
  split; [reflexivity|]. split; [reflexivity|].
  split; [reflexivity|]. split; [reflexivity|].
  split; [|split; reflexivity].
  intros alpha_only.
  rewrite (trim_run_content alpha_only _ _ _ 8 dot_sprite (0, 0, 1, 1));
    [reflexivity | reflexivity | destruct alpha_only; reflexivity
    | unfold box_ordered; simpl; lia].
Qed.

(** C9: an image without a content bounding box, a fully transparent one,
    is written to the output path as it is, same size and same pixels; the
    function neither fails nor writes an empty image. *)
Theorem blank_image_is_written_unchanged
    (alpha_only : bool) (fs : fsys) (input_path output_path : string)
    (padding : Z) (img : image) :
  fs !! input_path = Some img ->
  getbbox alpha_only img = None ->
  exists fs',
    trim_to_content alpha_only input_path output_path padding fs = Ok output_path fs' /\
    fs' !! output_path = Some img.
Proof.
  intros Hin Hnone. exists (<[output_path := img]> fs).
  split; [now apply trim_run_blank | apply lookup_insert_eq].
Qed.

Lemma blank_image_is_written_unchanged_witness :
  exists fs',
    trim_to_content true "in.png" "out.png" 8 {["in.png" := blank_sprite]} =
      Ok "out.png" fs' /\
    fs' !! "out.png" = Some blank_sprite.
Proof.
  apply (blank_image_is_written_unchanged
           true {["in.png" := blank_sprite]} "in.png" "out.png" 8 blank_sprite);
    reflexivity.
Defined.


(** ** resize_nearest *)

Lemma nearest_index_spec (i n_in n_out : nat) :
  (0 < n_out)%nat ->
  (2 * n_out * nearest_index i n_in n_out <= (2 * i + 1) * n_in
   < 2 * n_out * (nearest_index i n_in n_out + 1))%nat.
Proof.
  intros Hout. unfold nearest_index.
  pose proof (Nat.div_mod ((2 * i + 1) * n_in) (2 * n_out)) as Hdm.
  pose proof (Nat.mod_upper_bound ((2 * i + 1) * n_in) (2 * n_out)) as Hmod.
  lia.
Qed.

Lemma nearest_index_in_range (i n_in n_out : nat) :
  (i < n_out)%nat -> (0 < n_in)%nat -> (nearest_index i n_in n_out < n_in)%nat.
Proof.
  intros Hi Hin.
  pose proof (nearest_index_spec i n_in n_out ltac:(lia)) as [Hlo _].
  assert ((2 * i + 1) * n_in < 2 * n_out * n_in)%nat by nia.
  nia.
Qed.

(** Resizing to the size the image already has copies it. *)
Lemma nearest_index_same_size (i n : nat) : (0 < n)%nat -> nearest_index i n n = i.
Proof.
  intros Hn. pose proof (nearest_index_spec i n n Hn). nia.
Qed.

Lemma getpixel_in_range (img : image) (x y : nat) :
  image_ok img -> (x < width img)%nat -> (y < height img)%nat ->
  is_Some (getpixel img x y).
Proof.
  intros Hok Hx Hy.
  destruct (pixel_at_in_range img (Z.of_nat x) (Z.of_nat y) Hok) as (p & _ & Hp);
    [lia | lia |].
  rewrite !Nat2Z.id in Hp. now exists p.
Qed.

Lemma resize_nearest_run (fs : fsys) input_path output_path w h img :
  fs !! input_path = Some img ->
  0 < w -> 0 < h ->
  exists resized,
    resize_nearest input_path output_path w h fs =
      Ok output_path (<[output_path := resized]> fs) /\
    width resized = Z.to_nat w /\ height resized = Z.to_nat h /\
    rows resized =
      tabulate (Z.to_nat w) (Z.to_nat h) (fun x y =>
        default transparent
          (getpixel img (nearest_index x (width img) (Z.to_nat w))
                        (nearest_index y (height img) (Z.to_nat h)))).
Proof.
  intros Hin Hw Hh. unfold resize_nearest, bind, open_rgba, resize.
  rewrite Hin.
  destruct (Z.ltb_spec w 1); [lia|]. destruct (Z.ltb_spec h 1); [lia|]. simpl.
  eexists. split; [reflexivity|]. repeat split.
Qed.

(** C5: for positive [w] and [h] the written image is exactly [w] by [h]
    pixels, and each of its pixels is a copy of one pixel of the input, one
    whose cell holds the centre of the output pixel (nearest neighbour): no
    pixel value is blended in.  The centre [(x + 1/2) * W / w] lies in the
    closed cell [sx, sx + 1] of the source column: where it falls exactly
    between two source pixels, both are nearest and either may be the one
    copied. *)
Theorem resize_gives_the_exact_size_and_copies_nearest_pixels
    (fs : fsys) (input_path output_path : string) (w h : Z) (img : image) :
  fs !! input_path = Some img ->
  0 < w ->
  0 < h ->
  exists resized,
    resize_nearest input_path output_path w h fs =
      Ok output_path (<[output_path := resized]> fs) /\
    Z.of_nat (width resized) = w /\
    Z.of_nat (height resized) = h /\
    image_ok resized /\
    (image_ok img -> (0 < width img)%nat -> (0 < height img)%nat ->
     forall x y : nat,
       Z.of_nat x < w -> Z.of_nat y < h ->
       exists (sx sy : nat) (p : pixel),
         getpixel resized x y = Some p /\
         getpixel img sx sy = Some p /\
         (sx < width img)%nat /\ (sy < height img)%nat /\
         2 * w * Z.of_nat sx <= (2 * Z.of_nat x + 1) * Z.of_nat (width img)
           <= 2 * w * (Z.of_nat sx + 1) /\
         2 * h * Z.of_nat sy <= (2 * Z.of_nat y + 1) * Z.of_nat (height img)
           <= 2 * h * (Z.of_nat sy + 1)).
Proof.
  intros Hin Hw Hh.
  destruct (resize_nearest_run fs input_path output_path w h img Hin Hw Hh)
    as (resized & Hrun & Hwd & Hht & Hrows).
  exists resized. split; [exact Hrun|].
  split; [lia|]. split; [lia|].
  split.
  { split; rewrite Hrows, ?Hwd, ?Hht; [apply tabulate_length | apply tabulate_rows]. }
  intros Hok HW HH x y Hx Hy.
  set (sx := nearest_index x (width img) (Z.to_nat w)).
  set (sy := nearest_index y (height img) (Z.to_nat h)).
  assert (Hsx : (sx < width img)%nat) by (apply nearest_index_in_range; lia).
  assert (Hsy : (sy < height img)%nat) by (apply nearest_index_in_range; lia).
  destruct (getpixel_in_range img sx sy Hok Hsx Hsy) as [p Hp].
  exists sx, sy, p.
  split.
  { unfold getpixel at 1. rewrite Hrows, aget_tabulate by lia.
    fold sx sy. now rewrite Hp. }
  split; [exact Hp|]. split; [exact Hsx|]. split; [exact Hsy|].
  pose proof (nearest_index_spec x (width img) (Z.to_nat w) ltac:(lia)) as Hnx.
  pose proof (nearest_index_spec y (height img) (Z.to_nat h) ltac:(lia)) as Hny.
  fold sx in Hnx. fold sy in Hny.
  split; nia.
Qed.

Lemma resize_gives_the_exact_size_and_copies_nearest_pixels_witness :
  exists resized,
    resize_nearest "in.png" "out.png" 6 2 {["in.png" := strip3]} =
      Ok "out.png" (<["out.png" := resized]> {["in.png" := strip3]}) /\
    Z.of_nat (width resized) = 6 /\
    Z.of_nat (height resized) = 2 /\
    image_ok resized /\
    (image_ok strip3 -> (0 < width strip3)%nat -> (0 < height strip3)%nat ->
     forall x y : nat,
       Z.of_nat x < 6 -> Z.of_nat y < 2 ->
       exists (sx sy : nat) (p : pixel),
         getpixel resized x y = Some p /\
         getpixel strip3 sx sy = Some p /\
         (sx < width strip3)%nat /\ (sy < height strip3)%nat /\
         2 * 6 * Z.of_nat sx <= (2 * Z.of_nat x + 1) * Z.of_nat (width strip3)
           <= 2 * 6 * (Z.of_nat sx + 1) /\
         2 * 2 * Z.of_nat sy <= (2 * Z.of_nat y + 1) * Z.of_nat (height strip3)
           <= 2 * 2 * (Z.of_nat sy + 1)).
Proof.
  apply (resize_gives_the_exact_size_and_copies_nearest_pixels
           {["in.png" := strip3]} "in.png" "out.png" 6 2 strip3);
    [reflexivity | lia | lia].
Defined.

(** ** mirror_horizontal *)

Lemma flip_left_right_involutive (img : image) :
  flip_left_right (flip_left_right img) = img.
Proof.
  destruct img as [w h data]. unfold flip_left_right. simpl. f_equal.
  rewrite <- list_fmap_compose.
  rewrite <- (list_fmap_id data) at 2.
  apply list_fmap_ext. intros _ row _. simpl. apply reverse_involutive.
Qed.

(** The flip is the mirror image: column [x] shows column [W - 1 - x]. *)
Lemma flip_left_right_getpixel (img : image) (x y : nat) :
  image_ok img -> (x < width img)%nat ->
  getpixel (flip_left_right img) x y = getpixel img (width img - 1 - x) y.
Proof.
  intros [_ Hw] Hx. unfold getpixel, flip_left_right, aget. simpl.
  rewrite list_lookup_fmap.
  destruct (rows img !! y) as [row|] eqn:Hrow; simpl; [|reflexivity].
  assert (Hlen : length row = width img).
  { rewrite Forall_forall in Hw. apply Hw.
    eapply list_elem_of_lookup_2; eassumption. }
  rewrite reverse_lookup by lia. f_equal. lia.
Qed.

Lemma mirror_horizontal_run (fs : fsys) input_path output_path img :
  fs !! input_path = Some img ->
  mirror_horizontal input_path output_path fs =
    Ok output_path (<[output_path := flip_left_right img]> fs).
Proof.
  intros Hin. unfold mirror_horizontal, bind, open_rgba, save, ret.
  now rewrite Hin.
Qed.

(** C6: mirroring is its own inverse.  Mirroring an image file and then
    mirroring the result writes an image identical to the original, pixel
    for pixel. *)
Theorem mirror_twice_is_the_identity
    (fs : fsys) (path_a path_b path_c : string) (img : image) :
  fs !! path_a = Some img ->
  flip_left_right (flip_left_right img) = img /\
  exists fs1 fs2,
    mirror_horizontal path_a path_b fs = Ok path_b fs1 /\
    mirror_horizontal path_b path_c fs1 = Ok path_c fs2 /\
    fs2 !! path_c = Some img.
Proof.
  intros Hin. split; [apply flip_left_right_involutive|].
  exists (<[path_b := flip_left_right img]> fs),
         (<[path_c := img]> (<[path_b := flip_left_right img]> fs)).
  split; [now apply mirror_horizontal_run|].
  split; [|apply lookup_insert_eq].
  rewrite (mirror_horizontal_run _ path_b path_c (flip_left_right img));
    [|apply lookup_insert_eq].
  now rewrite flip_left_right_involutive.
Qed.

Lemma mirror_twice_is_the_identity_witness :
  flip_left_right (flip_left_right strip3) = strip3 /\
  exists fs1 fs2,
    mirror_horizontal "w.png" "e.png" {["w.png" := strip3]} = Ok "e.png" fs1 /\
    mirror_horizontal "e.png" "w2.png" fs1 = Ok "w2.png" fs2 /\
    fs2 !! "w2.png" = Some strip3.
Proof.
  apply (mirror_twice_is_the_identity {["w.png" := strip3]} "w.png" "e.png" "w2.png" strip3).
  reflexivity.
Defined.


(** ** Frame names *)

Lemma append_cons (c : ascii) (a b : string) :
  (String c a ++ b)%string = String c (a ++ b).
Proof. reflexivity. Qed.

Lemma append_assoc3 (a b c : string) : ((a ++ b) ++ c)%string = (a ++ (b ++ c))%string.
Proof.
  induction a as [|x a IH]; [reflexivity|].
  rewrite !append_cons. now rewrite IH.
Qed.

Lemma list_ascii_of_append (a b : string) :
  list_ascii_of_string (a ++ b) = (list_ascii_of_string a ++ list_ascii_of_string b)%list.
Proof.
  induction a as [|x a IH]; [reflexivity|].
  rewrite append_cons. simpl. now rewrite IH.
Qed.

Lemma append_inv_tail (a b t : string) : (a ++ t)%string = (b ++ t)%string -> a = b.
Proof.
  intros Heq. apply (f_equal list_ascii_of_string) in Heq.
  rewrite !list_ascii_of_append in Heq. apply app_inv_tail in Heq.
  rewrite <- (string_of_list_ascii_of_string a), <- (string_of_list_ascii_of_string b).
  now rewrite Heq.
Qed.

Lemma read_decimal_decimal (n : nat) : read_decimal (decimal n) = Some n.
Proof.
  unfold read_decimal, decimal. rewrite NilEmpty.usu. simpl.
  now rewrite DecimalNat.Unsigned.of_to.
Qed.

Lemma read_decimal_zero (s : string) : read_decimal (String "0" s) = read_decimal s.
Proof.
  unfold read_decimal. simpl.
  destruct (NilEmpty.uint_of_string s); reflexivity.
Qed.

Lemma read_decimal_zeros (k : nat) (s : string) :
  read_decimal (string_of_list_ascii (repeat "0"%char k) ++ s) = read_decimal s.
Proof.
  induction k as [|k IH]; [reflexivity|].
  simpl. rewrite append_cons, read_decimal_zero. exact IH.
Qed.

Lemma read_decimal_zfill (k n : nat) : read_decimal (zfill k (decimal n)) = Some n.
Proof. unfold zfill. now rewrite read_decimal_zeros, read_decimal_decimal. Qed.

(** Distinct frame numbers are printed differently. *)
Lemma format_03d_inj (i j : Z) :
  0 <= i -> 0 <= j -> format_03d i = format_03d j -> i = j.
Proof.
  intros Hi Hj. unfold format_03d.
  destruct (Z.ltb_spec i 0); [lia|]. destruct (Z.ltb_spec j 0); [lia|].
  intros Heq. apply (f_equal read_decimal) in Heq.
  rewrite !read_decimal_zfill in Heq. injection Heq. lia.
Qed.

Lemma prefix_cons (a c : ascii) (s1 s2 : string) :
  String.prefix (String a s1) (String c s2) =
    if ascii_dec a c then String.prefix s1 s2 else false.
Proof. reflexivity. Qed.

Lemma prefix_empty (s : string) : String.prefix "" s = true.
Proof. destruct s; reflexivity. Qed.

Lemma prefix_slash_stem (base_name rest : string) :
  String.prefix "/" (base_name ++ "_f" ++ rest) = String.prefix "/" (base_name ++ "_f").
Proof.
  destruct base_name as [|c b]; [reflexivity|].
  rewrite !append_cons, !prefix_cons.
  destruct (ascii_dec "/" c); [|reflexivity]. now rewrite !prefix_empty.
Qed.

Lemma frame_path_shape (output_dir base_name : string) (i : Z) :
  frame_path output_dir base_name i =
    (frame_prefix output_dir base_name ++ format_03d i ++ ".png")%string.
Proof.
  unfold frame_path, frame_name, path_join, frame_prefix.
  rewrite prefix_slash_stem.
  destruct (String.prefix "/" (base_name ++ "_f")).
  - now rewrite append_assoc3.
  - destruct (String.eqb output_dir "" || endswith output_dir "/").
    + now rewrite !append_assoc3.
    + now rewrite !append_assoc3.
Qed.

Lemma frame_path_inj (output_dir base_name : string) (i j : Z) :
  0 <= i -> 0 <= j ->
  frame_path output_dir base_name i = frame_path output_dir base_name j -> i = j.
Proof.
  intros Hi Hj. rewrite !frame_path_shape. intros Heq.
  apply String.app_inj in Heq. apply append_inv_tail in Heq.
  now apply format_03d_inj.
Qed.

(** ** slice_sprite_sheet *)

(** The file system after a list of writes. *)
Lemma writes_lookup_other (path_of : Z -> string) (image_of : Z -> image)
    (xs : list Z) (fs : fsys) (path : string) :
  (forall i, i ∈ xs -> path <> path_of i) ->
  foldl (fun m i => <[path_of i := image_of i]> m) fs xs !! path = fs !! path.
Proof.
  revert fs. induction xs as [|x xs IH]; intros fs Hnot; [reflexivity|].
  simpl. rewrite IH.
  - apply lookup_insert_ne. intros Heq. apply (Hnot x); [left | now symmetry].
  - intros i Hi. apply Hnot. now right.
Qed.

Lemma writes_lookup_written (path_of : Z -> string) (image_of : Z -> image)
    (xs : list Z) (fs : fsys) (i : Z) :
  (forall a b, a ∈ xs -> b ∈ xs -> path_of a = path_of b -> a = b) ->
  NoDup xs ->
  i ∈ xs ->
  foldl (fun m i => <[path_of i := image_of i]> m) fs xs !! path_of i = Some (image_of i).
Proof.
  revert fs. induction xs as [|x xs IH]; intros fs Hinj Hnd Hi.
  - inversion Hi.
  - apply NoDup_cons in Hnd as [Hx Hnd]. simpl.
    apply elem_of_cons in Hi as [->|Hi].
    + rewrite writes_lookup_other; [apply lookup_insert_eq|].
      intros j Hj Heq. apply Hinj in Heq; [|left|now right]. subst. contradiction.
    + apply IH; [|assumption|assumption].
      intros a b Ha Hb. apply Hinj; now right.
Qed.

Lemma slice_loop (sheet : image) (frame_width frame_height : Z)
    (output_dir base_name : string) (xs : list Z) (fs : fsys) :
  0 <= frame_width -> 0 <= frame_height ->
  for_each xs
    (fun i => bind (crop sheet (frame_box frame_width frame_height i))
                   (fun frame => save frame (frame_path output_dir base_name i))) fs =
  Ok tt (foldl (fun m i => <[frame_path output_dir base_name i :=
                              crop_region sheet (frame_box frame_width frame_height i)]> m)
               fs xs).
Proof.
  intros Hw Hh. revert fs. induction xs as [|x xs IH]; intros fs; [reflexivity|].
  change (for_each (x :: xs) ?body) with (bind (body x) (fun _ => for_each xs body)).
  unfold bind at 1. unfold bind at 1.
  rewrite crop_ordered by (unfold frame_box, box_ordered; lia).
  unfold save at 1. apply IH.
Qed.

Lemma slice_run (fs : fsys) (sheet_path output_dir base_name : string)
    (frame_count : Z) (sheet : image) :
  fs !! sheet_path = Some sheet ->
  1 <= frame_count ->
  slice_sprite_sheet sheet_path output_dir base_name frame_count fs =
    Ok frame_count
       (foldl (fun m i =>
                 <[frame_path output_dir base_name i :=
                     crop_region sheet
                       (frame_box (Z.of_nat (width sheet) / frame_count)
                                  (Z.of_nat (height sheet)) i)]> m)
              fs (range frame_count)).
Proof.
  intros Hin Hn. unfold slice_sprite_sheet, makedirs, floordiv.
  unfold bind at 1. unfold ret at 1. unfold bind at 1. unfold open_rgba. rewrite Hin.
  unfold bind at 1. destruct (Z.eqb_spec frame_count 0); [lia|].
  unfold ret at 1. unfold bind at 1.
  rewrite slice_loop; [reflexivity | apply Z.div_pos; lia | lia].
Qed.

Lemma slice_zero (fs : fsys) (sheet_path output_dir base_name : string) (sheet : image) :
  fs !! sheet_path = Some sheet ->
  slice_sprite_sheet sheet_path output_dir base_name 0 fs = Raise ZeroDivisionError fs.
Proof.
  intros Hin. unfold slice_sprite_sheet, makedirs, floordiv, bind, ret, open_rgba.
  now rewrite Hin.
Qed.

Lemma in_range (n i : Z) : i ∈ range n <-> 0 <= i < n.
Proof. unfold range. rewrite elem_of_seqZ. lia. Qed.


(** What a successful slicing leaves on disk. *)
Lemma slice_frames (fs : fsys) (sheet_path output_dir base_name : string)
    (frame_count : Z) (sheet : image) :
  fs !! sheet_path = Some sheet ->
  1 <= frame_count ->
  exists fs',
    slice_sprite_sheet sheet_path output_dir base_name frame_count fs =
      Ok frame_count fs' /\
    (forall i, 0 <= i < frame_count ->
       fs' !! frame_path output_dir base_name i =
         Some (crop_region sheet
                 (frame_box (Z.of_nat (width sheet) / frame_count)
                            (Z.of_nat (height sheet)) i))) /\
    (forall path,
       (forall i, 0 <= i < frame_count -> path <> frame_path output_dir base_name i) ->
       fs' !! path = fs !! path).
Proof.
  intros Hin Hn. eexists.
  split; [apply (slice_run fs sheet_path output_dir base_name frame_count sheet Hin Hn)|].
  split.
  - intros i Hi.
    apply (writes_lookup_written (frame_path output_dir base_name)
             (fun i => crop_region sheet (frame_box _ _ i))).
    + intros a b Ha Hb. apply in_range in Ha, Hb. apply frame_path_inj; lia.
    + apply NoDup_seqZ.
    + now apply in_range.
  - intros path Hother.
    apply (writes_lookup_other (frame_path output_dir base_name)
             (fun i => crop_region sheet (frame_box _ _ i))).
    intros i Hi. apply Hother. now apply in_range.
Qed.









(** ** generate_beans.py *)

Lemma list_ascii_of_rev (s : string) :
  list_ascii_of_string (string_rev s) = rev (list_ascii_of_string s).
Proof. unfold string_rev. apply list_ascii_of_string_of_list_ascii. Qed.

Lemma string_rev_append (a b : string) :
  string_rev (a ++ b) = (string_rev b ++ string_rev a)%string.
Proof.
  rewrite <- (string_of_list_ascii_of_string (string_rev b ++ string_rev a)).
  rewrite list_ascii_of_append, !list_ascii_of_rev.
  unfold string_rev. now rewrite list_ascii_of_append, rev_app_distr.
Qed.

Lemma string_rev_involutive (s : string) : string_rev (string_rev s) = s.
Proof.
  unfold string_rev at 1. rewrite list_ascii_of_rev, rev_involutive.
  apply string_of_list_ascii_of_string.
Qed.

Lemma lstrip_append (a b : string) (c : ascii) :
  is_space c = false ->
  lstrip (a ++ String c b) = (lstrip a ++ String c b)%string.
Proof.
  intros Hc. induction a as [|x a IH].
  - change ("" ++ String c b)%string with (String c b). simpl. now rewrite Hc.
  - rewrite append_cons. simpl. destruct (is_space x); [exact IH|].
    now rewrite append_cons.
Qed.

Lemma prefix_append (a b : string) : String.prefix a (a ++ b) = true.
Proof.
  induction a as [|x a IH]; [apply prefix_empty|].
  rewrite append_cons, prefix_cons.
  destruct (ascii_dec x x); [exact IH | contradiction].
Qed.

(** What the script reads off a line that defines the key. *)
Lemma strip_key_line (rest : string) :
  strip (key_prefix ++ rest) = (key_prefix ++ rstrip rest)%string.
Proof.
  unfold strip.
  assert (Hl : lstrip (key_prefix ++ rest) = (key_prefix ++ rest)%string) by reflexivity.
  rewrite Hl, string_rev_append.
  change (string_rev key_prefix) with (String "="%char "YEK_IPA_INIMEG").
  rewrite lstrip_append by reflexivity.
  rewrite string_rev_append.
  change (string_rev (String "="%char "YEK_IPA_INIMEG")) with key_prefix.
  reflexivity.
Qed.

Lemma split_key_line (value : string) :
  split_once "="%char (key_prefix ++ value) = ["GEMINI_API_KEY"%string; value].
Proof. reflexivity. Qed.

Lemma load_api_key_cons (line : string) (lines : list string) :
  load_api_key (line :: lines) =
    if String.prefix key_prefix line then
      match split_once "="%char (strip line) !! 1%nat with
      | Some value => sret (Some value)
      | None => throw IndexError
      end
    else load_api_key lines.
Proof. reflexivity. Qed.

Lemma load_api_key_absent (lines : list string) (c : console) :
  no_key_line lines -> load_api_key lines c = Done None c.
Proof.
  induction 1 as [|line lines Hline _ IH]; [reflexivity|].
  rewrite load_api_key_cons, Hline. exact IH.
Qed.

Lemma load_api_key_present (lines : list string) (key : string) (c : console) :
  first_key_line lines key -> load_api_key lines c = Done (Some key) c.
Proof.
  intros (before & rest & after & -> & Hbefore & ->).
  induction Hbefore as [|line before Hline _ IH].
  - change ([] ++ (key_prefix ++ rest)%string :: after)%list
      with ((key_prefix ++ rest)%string :: after).
    rewrite load_api_key_cons, prefix_append, strip_key_line, split_key_line.
    reflexivity.
  - change ((line :: before) ++ (key_prefix ++ rest)%string :: after)%list
      with (line :: (before ++ (key_prefix ++ rest)%string :: after)%list).
    rewrite load_api_key_cons, Hline. exact IH.
Qed.

Lemma has_key_lookup (key : string) (entries : list (string * json)) :
  has_key key entries = match lookup_key key entries with
                        | Some _ => true
                        | None => false
                        end.
Proof.
  induction entries as [|[k v] entries IH]; [reflexivity|].
  unfold has_key in *. simpl. destruct (String.eqb k key); [reflexivity | exact IH].
Qed.

Lemma console_eta (c : console) : Console (stdout c) (written c) = c.
Proof. now destruct c. Qed.

Ltac script_step :=
  cbv beta iota delta [sbind sret py_in py_getitem py_iter py_slice print py_str];
  cbn [stdout written].

Section ScriptFacts.
Variable w : world.

Lemma scan_parts_text (parts : list json) (c : console) :
  forallb text_part parts = true ->
  scan_parts w parts c =
    Done false (Console (stdout c ++ flat_map part_lines parts) (written c)).
Proof.
  revert c. induction parts as [|part parts IH]; intros c Hall.
  - simpl. now rewrite app_nil_r, console_eta.
  - simpl in Hall. apply andb_true_iff in Hall as [Hpart Hall].
    destruct part as [| | | | |entries]; try discriminate.
    simpl in Hpart. apply andb_true_iff in Hpart as [Hinline Htext].
    apply negb_true_iff in Hinline.
    cbn [scan_parts part_lines flat_map]. script_step.
    rewrite Hinline, (has_key_lookup "text").
    destruct (lookup_key "text" entries) as [[| | |s| |]|] eqn:Hlk;
      try discriminate; script_step; rewrite ?Hlk; script_step;
      rewrite IH by assumption; cbn [stdout written].
    + now rewrite <- app_assoc.
    + reflexivity.
Qed.

Lemma scan_candidates_text (candidates : list json) (c : console) :
  forallb candidate_without_image candidates = true ->
  scan_candidates w candidates c =
    Done false (Console (stdout c ++ flat_map candidate_lines candidates) (written c)).
Proof.
  revert c. induction candidates as [|cand candidates IH]; intros c Hall.
  - simpl. now rewrite app_nil_r, console_eta.
  - simpl in Hall. apply andb_true_iff in Hall as [Hcand Hall].
    destruct cand as [| | | | |entries]; try discriminate.
    simpl in Hcand.
    cbn [scan_candidates candidate_lines flat_map]. script_step.
    rewrite (has_key_lookup "content").
    destruct (lookup_key "content" entries) as [[| | | | |content]|] eqn:Hlk;
      try discriminate; script_step.
    + rewrite (has_key_lookup "parts").
      destruct (lookup_key "parts" content) as [[| | | |parts|]|] eqn:Hparts;
        try discriminate; script_step.
      * rewrite scan_parts_text by assumption.
        rewrite IH by assumption. cbn [stdout written].
        now rewrite <- app_assoc.
      * now rewrite IH by assumption.
    + now rewrite IH by assumption.
Qed.

Lemma extract_image_text (result : json) (c : console) :
  response_without_image result = true ->
  extract_image w result c =
    Done false (Console (stdout c ++ response_lines result) (written c)).
Proof.
  intros Hres. destruct result as [| | | | |entries]; try discriminate.
  simpl in Hres. unfold extract_image. cbn [response_lines]. script_step.
  rewrite (has_key_lookup "candidates").
  destruct (lookup_key "candidates" entries) as [[| | | |candidates|]|] eqn:Hlk;
    try discriminate; script_step.
  - now apply scan_candidates_text.
  - now rewrite app_nil_r, console_eta.
Qed.

End ScriptFacts.


(** *** No file is written on a failing path *)

Section Quiet.
Context {A B : Type}.

Lemma quiet_sret (a : A) : quiet (sret a).
Proof. intros c. reflexivity. Qed.

Lemma quiet_throw (e : exn) : quiet (@throw A e).
Proof. intros c. reflexivity. Qed.

Lemma quiet_sys_exit (code : Z) : quiet (@sys_exit A code).
Proof. intros c. reflexivity. Qed.

Lemma quiet_sbind (m : Script A) (k : A -> Script B) :
  quiet m -> (forall a, quiet (k a)) -> quiet (sbind m k).
Proof.
  intros Hm Hk c. unfold sbind. specialize (Hm c).
  destruct (m c) as [a c'|h c']; simpl in *.
  - now rewrite Hk.
  - exact Hm.
Qed.

(** A quiet step in front of a continuation that meets [Q] from a clean
    console. *)
Lemma sbind_quiet_then (Q : run B -> Prop) (m : Script A) (k : A -> Script B) :
  quiet m ->
  (forall h c, written c = [] -> Q (Halt h c)) ->
  (forall a c, written c = [] -> Q (k a c)) ->
  forall c, written c = [] -> Q (sbind m k c).
Proof.
  intros Hm Hhalt Hk c Hc. unfold sbind. specialize (Hm c).
  destruct (m c) as [a c'|h c']; simpl in Hm.
  - apply Hk. congruence.
  - apply Hhalt. congruence.
Qed.

End Quiet.

Lemma quiet_print (line : string) : quiet (print line).
Proof. intros c. reflexivity. Qed.

Lemma quiet_py_in (key : string) (v : json) : quiet (py_in key v).
Proof. destruct v; intros c; reflexivity. Qed.

Lemma quiet_py_getitem (v : json) (key : string) : quiet (py_getitem v key).
Proof.
  destruct v; intros c; try reflexivity.
  unfold py_getitem. destruct (lookup_key key entries); reflexivity.
Qed.

Lemma quiet_py_iter (v : json) : quiet (py_iter v).
Proof. destruct v; intros c; reflexivity. Qed.

Lemma quiet_py_slice (v : json) (n : nat) : quiet (py_slice v n).
Proof. destruct v; intros c; reflexivity. Qed.

Lemma quiet_load_api_key (lines : list string) : quiet (load_api_key lines).
Proof.
  induction lines as [|line lines IH]; [apply quiet_sret|].
  rewrite load_api_key_cons. destruct (String.prefix _ line); [|exact IH].
  destruct (_ !! 1%nat); [apply quiet_sret | apply quiet_throw].
Qed.

Create HintDb quiet.
#[local] Hint Resolve quiet_sret quiet_throw quiet_sys_exit quiet_print quiet_py_in
  quiet_py_getitem quiet_py_iter quiet_py_slice quiet_load_api_key : quiet.

Ltac quiet_steps :=
  repeat first
    [ apply quiet_sbind; [|intros ?]
    | solve [auto with quiet]
    | match goal with
      | |- quiet (match ?x with _ => _ end) => destruct x
      end ].

Section ScriptSafety.
Variable w : world.

Lemma halt_clean (h : halt) (c : console) :
  written c = [] -> saved_or_clean w (Halt h c).
Proof. intros Hc. exact Hc. Qed.

Lemma scan_parts_safe (parts : list json) (c : console) :
  written c = [] -> saved_or_clean w (scan_parts w parts c).
Proof.
  revert c. induction parts as [|part parts IH]; [intros c Hc; exact Hc|].
  cbn [scan_parts].
  apply sbind_quiet_then; [auto with quiet | apply halt_clean|].
  intros [|].
  - apply sbind_quiet_then; [auto with quiet | apply halt_clean|]. intros inline_data.
    apply sbind_quiet_then; [auto with quiet | apply halt_clean|]. intros data.
    apply sbind_quiet_then; [quiet_steps | apply halt_clean|].
    intros img_data c Hc. cbn. rewrite Hc. now eexists.
  - apply sbind_quiet_then; [auto with quiet | apply halt_clean|]. intros text.
    apply sbind_quiet_then; [quiet_steps | apply halt_clean|].
    intros _. exact IH.
Qed.

Lemma scan_candidates_safe (candidates : list json) (c : console) :
  written c = [] -> saved_or_clean w (scan_candidates w candidates c).
Proof.
  revert c. induction candidates as [|cand candidates IH]; [intros c Hc; exact Hc|].
  cbn [scan_candidates].
  apply sbind_quiet_then; [auto with quiet | apply halt_clean|]. intros has_content.
  apply sbind_quiet_then; [quiet_steps | apply halt_clean|]. intros has_parts.
  destruct has_parts.
  - intros c Hc. unfold sbind at 1.
    assert (Hscan : saved_or_clean w
              (sbind (py_getitem cand "content") (fun content =>
                sbind (py_getitem content "parts") (fun parts =>
                  sbind (py_iter parts) (fun parts => scan_parts w parts))) c)).
    { revert c Hc.
      apply sbind_quiet_then; [auto with quiet | apply halt_clean|]. intros content.
      apply sbind_quiet_then; [auto with quiet | apply halt_clean|]. intros ps.
      apply sbind_quiet_then; [auto with quiet | apply halt_clean|]. intros parts.
      apply scan_parts_safe. }
    destruct (sbind (py_getitem cand "content") _ c) as [[|] c'|h c'].
    + exact Hscan.
    + apply IH. exact Hscan.
    + exact Hscan.
  - intros c Hc. unfold sbind at 1. unfold sret at 1. now apply IH.
Qed.

Lemma extract_image_safe (result : json) (c : console) :
  written c = [] -> saved_or_clean w (extract_image w result c).
Proof.
  revert c. unfold extract_image.
  apply sbind_quiet_then; [auto with quiet | apply halt_clean|].
  intros [|]; [|intros c Hc; exact Hc].
  apply sbind_quiet_then; [auto with quiet | apply halt_clean|]. intros cs.
  apply sbind_quiet_then; [auto with quiet | apply halt_clean|]. intros candidates.
  apply scan_candidates_safe.
Qed.

Lemma generate_beans_safe (c : console) :
  written c = [] -> wrote_image_or_failed w (generate_beans w c).
Proof.
  assert (Hhalt : forall h c, written c = [] -> wrote_image_or_failed w (Halt h c))
    by (intros h c' Hc; exact Hc).
  revert c. unfold generate_beans.
  apply sbind_quiet_then; [quiet_steps | exact Hhalt|]. intros lines.
  apply sbind_quiet_then; [auto with quiet | exact Hhalt|]. intros api_key.
  apply sbind_quiet_then; [quiet_steps | exact Hhalt|]. intros _.
  apply sbind_quiet_then; [auto with quiet | exact Hhalt|]. intros _.
  apply sbind_quiet_then; [auto with quiet | exact Hhalt|]. intros _.
  apply sbind_quiet_then; [quiet_steps | exact Hhalt|]. intros result.
  intros c Hc. unfold sbind at 1.
  pose proof (extract_image_safe result c Hc) as Hsafe.
  destruct (extract_image w result c) as [[|] c'|h c']; [| |exact Hsafe].
  - exact Hsafe.
  - exact Hsafe.
Qed.

End ScriptSafety.


Ltac script_run :=
  cbv beta iota delta [sbind sret throw sys_exit print];
  cbn [stdout written].

Lemma generate_beans_no_key (w : world) (lines : list string) (api_key : option string) :
  env_file w = Some lines ->
  (forall c, load_api_key lines c = Done api_key c) ->
  key_missing api_key = true ->
  run_script w = Halt (SystemExit 1) (Console [no_key_message] []).
Proof.
  intros Henv Hload Hmissing. unfold run_script, generate_beans.
  rewrite Henv. script_run. rewrite Hload, Hmissing. reflexivity.
Qed.

Lemma generate_beans_with_key (w : world) (lines : list string) (key : string) :
  env_file w = Some lines ->
  first_key_line lines key ->
  key <> ""%string ->
  (forall code body,
     urlopen w (endpoint ++ key) = HTTPError code (Some body) ->
     run_script w =
       Halt (SystemExit 1)
            (Console (calling_lines ++
                      [("API Error " ++ str_int code ++ ": " ++ body)%string]) [])) /\
  (forall result,
     urlopen w (endpoint ++ key) = Reply result ->
     response_without_image result = true ->
     run_script w =
       Halt (SystemExit 1)
            (Console (calling_lines ++ response_lines result ++
                      [no_image_message; substring 0 2000 (json_dumps w result)]) [])).
Proof.
  intros Henv Hkey Hne.
  assert (Hpresent : key_missing (Some key) = false)
    by (simpl; now apply String.eqb_neq).
  split.
  - intros code body Hreply. unfold run_script, generate_beans.
    rewrite Henv. script_run.
    rewrite (load_api_key_present lines key _ Hkey), Hpresent.
    change (default ""%string (Some key)) with key. rewrite Hreply. reflexivity.
  - intros result Hreply Hnone. unfold run_script, generate_beans.
    rewrite Henv. script_run.
    rewrite (load_api_key_present lines key _ Hkey), Hpresent.
    change (default ""%string (Some key)) with key. rewrite Hreply.
    rewrite (extract_image_text w result _ Hnone). cbn [stdout written].
    unfold calling_lines. rewrite <- !app_assoc. reflexivity.
Qed.

(** C7, as amended: each of the three failure cases, narrowed to where the
    script handles it, prints its message, ends the process with status 1
    and writes no file.
    - The key is missing from [.env] (no line defines it, or the line that
      does gives it no value): the script prints the missing-key message.
    - The key is there and the call answers with an HTTP error whose body
      decodes as text: the script prints the status code and the body.
    - The key is there and the response is an object of the shape the
      service sends, without image data: the script prints the text parts,
      then the no-image message and the response.
    And whatever the environment file, the reply and the shape of the
    response, a run that ends with a non-zero status has written no file. *)
Theorem failures_print_and_exit_without_writing (w : world) :
  (forall lines, env_file w = Some lines ->
     (no_key_line lines \/ first_key_line lines "" ->
      run_script w = Halt (SystemExit 1) (Console [no_key_message] [])) /\
     (forall key, first_key_line lines key -> key <> ""%string ->
        (forall code body,
           urlopen w (endpoint ++ key) = HTTPError code (Some body) ->
           run_script w =
             Halt (SystemExit 1)
                  (Console (calling_lines ++
                            [("API Error " ++ str_int code ++ ": " ++ body)%string]) [])) /\
        (forall result,
           urlopen w (endpoint ++ key) = Reply result ->
           response_without_image result = true ->
           run_script w =
             Halt (SystemExit 1)
                  (Console (calling_lines ++ response_lines result ++
                            [no_image_message;
                             substring 0 2000 (json_dumps w result)]) [])))) /\
  (exit_status (run_script w) <> 0 -> written (console_of (run_script w)) = []).
Proof.
  split.
  - intros lines Henv. split.
    + intros [Habsent|Hempty].
      * apply (generate_beans_no_key w lines None Henv); [|reflexivity].
        intros c. now apply load_api_key_absent.
      * apply (generate_beans_no_key w lines (Some ""%string) Henv); [|reflexivity].
        intros c. now apply load_api_key_present.
    + intros key Hkey Hne. now apply (generate_beans_with_key w lines key).
  - intros Hstatus.
    pose proof (generate_beans_safe w (Console [] []) eq_refl) as Hsafe.
    unfold run_script in *.
    destruct (generate_beans w (Console [] [])) as [[] c|h c]; simpl in *.
    + contradiction.
    + exact Hsafe.
Qed.

Lemma failures_print_and_exit_without_writing_witness :
  run_script (sample_world (Some env_without_key) (Failure "unused")) =
    Halt (SystemExit 1) (Console [no_key_message] []) /\
  run_script (sample_world (Some env_with_key) (HTTPError 403 (Some "denied"%string))) =
    Halt (SystemExit 1)
         (Console (calling_lines ++ ["API Error 403: denied"%string]) []) /\
  run_script (sample_world (Some env_with_key) (Reply text_only_reply)) =
    Halt (SystemExit 1)
         (Console (calling_lines ++ ["Text response: no image"%string] ++
                   [no_image_message; "{}"%string]) []).
Proof.
  split; [|split].
  - apply (proj1 (proj1 (failures_print_and_exit_without_writing
                           (sample_world (Some env_without_key) (Failure "unused")))
                    env_without_key eq_refl)).
    left. repeat constructor.
  - apply (proj1 (proj2 (proj1 (failures_print_and_exit_without_writing
                                  (sample_world (Some env_with_key)
                                     (HTTPError 403 (Some "denied"%string))))
                           env_with_key eq_refl)
                    "abc123"%string
                    ltac:(exists [String "#" " local settings"], "abc123  "%string, [];
                          repeat split; repeat constructor)
                    ltac:(discriminate))
             403 "denied"%string eq_refl).
  - apply (proj2 (proj2 (proj1 (failures_print_and_exit_without_writing
                                  (sample_world (Some env_with_key)
                                     (Reply text_only_reply)))
                           env_with_key eq_refl)
                    "abc123"%string
                    ltac:(exists [String "#" " local settings"], "abc123  "%string, [];
                          repeat split; repeat constructor)
                    ltac:(discriminate))
             text_only_reply eq_refl eq_refl).
Defined.

(** C7, as stated, fails.  An HTTP error whose body is not valid UTF-8 makes
    [e.read().decode("utf-8")] raise inside the handler: the process ends on
    the uncaught [UnicodeDecodeError] with a non-zero status and no file,
    but the script has printed nothing after its two progress lines.  A
    response without image data that is not of the shape the service sends,
    here a number where a candidate object belongs, ends the same way on a
    [TypeError]. *)
Lemma an_http_error_can_go_unreported :
  run_script (sample_world (Some env_with_key) (HTTPError 500 None)) =
    Halt (Uncaught UnicodeDecodeError) (Console calling_lines []) /\
  run_script (sample_world (Some env_with_key) (Reply odd_reply)) =
    Halt (Uncaught TypeError) (Console calling_lines []) /\
  ~ every_http_error_is_reported.
Proof.
  assert (Hkey : first_key_line env_with_key "abc123")
    by (exists [String "#" " local settings"], "abc123  "%string, [];
        repeat split; repeat constructor).
  assert (Hrun : run_script (sample_world (Some env_with_key) (HTTPError 500 None)) =
                 Halt (Uncaught UnicodeDecodeError) (Console calling_lines [])).
  { unfold run_script, generate_beans.
    change (env_file (sample_world (Some env_with_key) (HTTPError 500 None)))
      with (Some env_with_key).
    script_run. rewrite (load_api_key_present env_with_key "abc123" _ Hkey).
    reflexivity. }
  split; [exact Hrun|]. split.
  { unfold run_script, generate_beans.
    change (env_file (sample_world (Some env_with_key) (Reply odd_reply)))
      with (Some env_with_key).
    script_run. rewrite (load_api_key_present env_with_key "abc123" _ Hkey).
    reflexivity. }
  intros Hclaim.
  destruct (Hclaim (sample_world (Some env_with_key) (HTTPError 500 None))
              env_with_key "abc123"%string 500 None eq_refl Hkey
              ltac:(discriminate) eq_refl) as (message & Hout & _).
  rewrite Hrun in Hout. cbn [console_of stdout] in Hout.
  apply (f_equal (@length string)) in Hout. rewrite length_app in Hout.
  cbn [length] in Hout. lia.
Qed.


(* ===================================================================== *)
(** * Further properties                                                  *)
(* ===================================================================== *)

(** ** chroma_key_magenta, pixel by pixel *)

Lemma amap_amap {A B C} (f : A -> B) (g : B -> C) (a : array2 A) :
  amap g (amap f a) = amap (fun p => g (f p)) a.
Proof.
  unfold amap. rewrite <- list_fmap_compose. apply list_fmap_ext.
  intros _ row _. simpl. now rewrite <- list_fmap_compose.
Qed.

Lemma amap_id {A} (a : array2 A) : amap (fun p => p) a = a.
Proof.
  unfold amap. rewrite <- (list_fmap_id a) at 2. apply list_fmap_ext.
  intros _ row _. apply list_fmap_id.
Qed.

Lemma amap_ext_in {A B} (f g : A -> B) (a : array2 A) :
  (forall x y p, aget a x y = Some p -> f p = g p) -> amap f a = amap g a.
Proof.
  intros Hfg. unfold amap. apply list_fmap_ext. intros y row Hrow.
  apply list_fmap_ext. intros x p Hp. apply (Hfg x y). unfold aget. now rewrite Hrow.
Qed.

(** The array code of [chroma_key_magenta] is a map over the pixels. *)
Lemma chroma_key_array_is_map (tolerance : Z) (data : array2 pixel) :
  chroma_key_array tolerance data = amap (chroma_key_pixel tolerance) data.
Proof.
  apply list_eq. intros y.
  destruct (data !! y) as [row|] eqn:Hrow.
  - assert (Hlen : forall x, aget (chroma_key_array tolerance data) x y =
                             aget (amap (chroma_key_pixel tolerance) data) x y).
    { intros x. rewrite aget_amap. unfold aget at 2. rewrite Hrow.
      destruct (row !! x) as [p|] eqn:Hp.
      - apply chroma_key_array_get. unfold aget. now rewrite Hrow.
      - simpl. unfold chroma_key_array.
        destruct (aany _); rewrite ?aget_azip, ?aget_amap; unfold aget at 1;
          rewrite Hrow, Hp; reflexivity. }
    unfold aget in Hlen.
    assert (Hsome : exists r, chroma_key_array tolerance data !! y = Some r).
    { unfold chroma_key_array. destruct (aany _); unfold azip, amap;
        rewrite !lookup_zip_with, ?list_lookup_fmap, ?lookup_zip_with,
          ?list_lookup_fmap, Hrow; simpl; eexists; reflexivity. }
    destruct Hsome as [r Hr]. rewrite Hr in *.
    unfold amap in *. rewrite list_lookup_fmap, Hrow in *. simpl in *.
    f_equal. apply list_eq. exact Hlen.
  - unfold chroma_key_array, amap, azip.
    destruct (aany _);
      rewrite ?lookup_zip_with, ?list_lookup_fmap, ?lookup_zip_with,
        ?list_lookup_fmap, Hrow; reflexivity.
Qed.


Lemma chroma_key_image_ok (tolerance : Z) (img : image) :
  image_ok img -> image_ok (chroma_key_image tolerance img).
Proof.
  intros [Hh Hw]. unfold chroma_key_image. split; simpl;
    rewrite chroma_key_array_is_map; unfold amap.
  - now rewrite length_fmap.
  - apply Forall_fmap. eapply Forall_impl; [exact Hw|].
    intros row Hrow. simpl. now rewrite length_fmap.
Qed.

(** X1: the chroma key works pixel by pixel and keeps the shape of the
    image.  The written image has the size of the input, is well formed when
    the input is, and its pixel at a position is a function of the input
    pixel at that position alone: where the input has no pixel, neither has
    the output. *)
Theorem chroma_key_is_pointwise
    (fs : fsys) (input_path output_path : string) (tolerance : Z) (img : image) :
  fs !! input_path = Some img ->
  exists out,
    chroma_key_magenta input_path output_path tolerance fs =
      Ok output_path (<[output_path := out]> fs) /\
    width out = width img /\
    height out = height img /\
    (image_ok img -> image_ok out) /\
    forall x y, getpixel out x y = chroma_key_pixel tolerance <$> getpixel img x y.
Proof.
  intros Hin. exists (chroma_key_image tolerance img).
  split; [now apply chroma_key_magenta_run|].
  split; [reflexivity|]. split; [reflexivity|].
  split; [apply chroma_key_image_ok|].
  intros x y. unfold getpixel, chroma_key_image. simpl.
  now rewrite chroma_key_array_is_map, aget_amap.
Qed.

Lemma chroma_key_is_pointwise_witness :
  exists out,
    chroma_key_magenta "in.png" "out.png" 60 sample_fs =
      Ok "out.png" (<["out.png" := out]> sample_fs) /\
    width out = width sample_sprite /\
    height out = height sample_sprite /\
    (image_ok sample_sprite -> image_ok out) /\
    forall x y, getpixel out x y = chroma_key_pixel 60 <$> getpixel sample_sprite x y.
Proof.
  apply (chroma_key_is_pointwise sample_fs "in.png" "out.png" 60 sample_sprite).
  reflexivity.
Defined.

Lemma chroma_key_image_fixed (tolerance : Z) (img : image) :
  (forall x y p, getpixel img x y = Some p -> chroma_key_pixel tolerance p = p) ->
  chroma_key_image tolerance img = img.
Proof.
  intros Hfix. destruct img as [w h data]. unfold chroma_key_image. simpl. f_equal.
  rewrite chroma_key_array_is_map, <- (amap_id data) at 1.
  rewrite amap_amap. rewrite <- (amap_id data) at 2.
  apply amap_ext_in. exact Hfix.
Qed.

(** X2: with a tolerance of zero or less, as long as twice the tolerance
    is within the binary64 range, nothing is keyed: an image of byte pixels
    is written exactly as it was read. *)
Theorem chroma_key_without_tolerance_copies
    (fs : fsys) (input_path output_path : string) (tolerance : Z) (img : image) :
  fs !! input_path = Some img ->
  (forall x y p, getpixel img x y = Some p -> pixel_ok p) ->
  tolerance <= 0 ->
  float_range (tolerance * 2) ->
  chroma_key_magenta input_path output_path tolerance fs =
    Ok output_path (<[output_path := img]> fs).
Proof.
  intros Hin Hbytes Htol _.
  rewrite (chroma_key_magenta_run _ _ _ _ _ Hin). do 2 f_equal.
  apply chroma_key_image_fixed. intros x y p Hp.
  destruct (Hbytes _ _ _ Hp) as (_ & [Hg _] & _).
  apply chroma_key_pixel_cases.
  - unfold in_chroma_box. lia.
  - left. lia.
Qed.

Lemma chroma_key_without_tolerance_copies_witness :
  chroma_key_magenta "in.png" "out.png" 0 sample_fs =
    Ok "out.png" (<["out.png" := sample_sprite]> sample_fs).
Proof.
  apply (chroma_key_without_tolerance_copies sample_fs "in.png" "out.png" 0 sample_sprite);
    [reflexivity | | lia | split; vm_compute; intros H; discriminate H].
  intros [|[|x]] [|[|y]] p Hp; try discriminate;
    injection Hp as <-; unfold pixel_ok, byte_range; simpl; lia.
Defined.

(** X3: a tolerance of 256 or more, as long as twice the tolerance is
    within the binary64 range, keys everything: every byte pixel of the
    image comes out as RGBA (0, 0, 0, 0). *)
Theorem chroma_key_with_full_tolerance_clears
    (fs : fsys) (input_path output_path : string) (tolerance : Z)
    (img : image) (x y : nat) (p : pixel) :
  fs !! input_path = Some img ->
  getpixel img x y = Some p ->
  pixel_ok p ->
  256 <= tolerance ->
  float_range (tolerance * 2) ->
  exists out,
    chroma_key_magenta input_path output_path tolerance fs =
      Ok output_path (<[output_path := out]> fs) /\
    getpixel out x y = Some (RGBA 0 0 0 0).
Proof.
  intros Hin Hp (Hr & Hg & Hb & _) Htol _. exists (chroma_key_image tolerance img).
  split; [now apply chroma_key_magenta_run|].
  rewrite (chroma_key_image_getpixel _ _ _ _ _ Hp). f_equal.
  apply chroma_key_pixel_cases. unfold in_chroma_box, byte_range in *. lia.
Qed.

Lemma chroma_key_with_full_tolerance_clears_witness :
  exists out,
    chroma_key_magenta "in.png" "out.png" 256 sample_fs =
      Ok "out.png" (<["out.png" := out]> sample_fs) /\
    getpixel out 1 1 = Some (RGBA 0 0 0 0).
Proof.
  apply (chroma_key_with_full_tolerance_clears
           sample_fs "in.png" "out.png" 256 sample_sprite 1 1 (RGBA 10 200 30 255));
    [reflexivity | reflexivity | unfold pixel_ok, byte_range; simpl; lia | lia
    | split; vm_compute; intros H; discriminate H].
Defined.

Lemma chroma_key_flip (tolerance : Z) (img : image) :
  chroma_key_image tolerance (flip_left_right img) =
    flip_left_right (chroma_key_image tolerance img).
Proof.
  unfold chroma_key_image, flip_left_right. simpl. f_equal.
  rewrite !chroma_key_array_is_map. unfold amap.
  rewrite <- !list_fmap_compose. apply list_fmap_ext.
  intros _ row _. simpl. apply fmap_reverse.
Qed.

(** X4: keying and mirroring commute.  Mirroring a sprite and keying the
    mirror image writes the same image as keying the sprite and mirroring
    the result. *)
Theorem chroma_key_commutes_with_mirror
    (fs : fsys) (source mirrored keyed out1 out2 : string)
    (tolerance : Z) (img : image) :
  fs !! source = Some img ->
  exists fs1 fs1' fs2 fs2' result,
    mirror_horizontal source mirrored fs = Ok mirrored fs1 /\
    chroma_key_magenta mirrored out1 tolerance fs1 = Ok out1 fs1' /\
    chroma_key_magenta source keyed tolerance fs = Ok keyed fs2 /\
    mirror_horizontal keyed out2 fs2 = Ok out2 fs2' /\
    fs1' !! out1 = Some result /\
    fs2' !! out2 = Some result.
Proof.
  intros Hin.
  eexists _, _, _, _, (flip_left_right (chroma_key_image tolerance img)).
  split; [apply (mirror_horizontal_run _ _ _ _ Hin)|].
  split; [apply chroma_key_magenta_run, lookup_insert_eq|].
  split; [apply (chroma_key_magenta_run _ _ _ _ _ Hin)|].
  split; [apply mirror_horizontal_run, lookup_insert_eq|].
  split; [|apply lookup_insert_eq].
  rewrite lookup_insert_eq. f_equal. apply chroma_key_flip.
Qed.

Lemma chroma_key_commutes_with_mirror_witness :
  exists fs1 fs1' fs2 fs2' result,
    mirror_horizontal "in.png" "m.png" sample_fs = Ok "m.png" fs1 /\
    chroma_key_magenta "m.png" "a.png" 60 fs1 = Ok "a.png" fs1' /\
    chroma_key_magenta "in.png" "k.png" 60 sample_fs = Ok "k.png" fs2 /\
    mirror_horizontal "k.png" "b.png" fs2 = Ok "b.png" fs2' /\
    fs1' !! "a.png" = Some result /\
    fs2' !! "b.png" = Some result.
Proof.
  apply (chroma_key_commutes_with_mirror
           sample_fs "in.png" "m.png" "k.png" "a.png" "b.png" 60 sample_sprite).
  reflexivity.
Defined.


(** ** How the file operations fail *)

Lemma range_nonpositive (n : Z) : n <= 0 -> range n = [].
Proof. intros Hn. unfold range. now apply seqZ_nil. Qed.



(** ** trim_to_content: what is kept *)

Lemma content_at_getpixel (alpha_only : bool) (img : image) (x y : nat) :
  content_at alpha_only img x y = true <->
  exists p, getpixel img x y = Some p /\ is_content alpha_only p = true.
Proof.
  unfold content_at. destruct (getpixel img x y) as [p|].
  - split; [intros Hc; now exists p | intros (q & [= <-] & Hq); exact Hq].
  - split; [discriminate | intros (q & Hq & _); discriminate].
Qed.

(** X6: trimming with a padding [p >= 0] cuts no content off and never
    enlarges the image.  The written image is at least as large as the
    bounding box and at most as large as the input, and every content pixel
    of the input is found in it, moved by the left and upper edge of the
    crop box. *)
Theorem trim_keeps_all_content
    (alpha_only : bool) (fs : fsys) (input_path output_path : string)
    (padding : Z) (img : image) (b0 b1 b2 b3 : Z) :
  fs !! input_path = Some img ->
  image_ok img ->
  getbbox alpha_only img = Some (b0, b1, b2, b3) ->
  0 <= padding ->
  exists out,
    trim_to_content alpha_only input_path output_path padding fs =
      Ok output_path (<[output_path := out]> fs) /\
    b2 - b0 <= Z.of_nat (width out) <= Z.of_nat (width img) /\
    b3 - b1 <= Z.of_nat (height out) <= Z.of_nat (height img) /\
    forall (x y : nat) (p : pixel),
      getpixel img x y = Some p ->
      is_content alpha_only p = true ->
      Z.max 0 (b0 - padding) <= Z.of_nat x /\
      Z.max 0 (b1 - padding) <= Z.of_nat y /\
      getpixel out (x - Z.to_nat (Z.max 0 (b0 - padding)))
                   (y - Z.to_nat (Z.max 0 (b1 - padding))) = Some p.
Proof.
  intros Hin Hok Hbox Hpad.
  pose proof (getbbox_bounds _ _ _ _ _ _ Hbox) as Hb.
  pose proof (padded_box_ordered _ _ _ _ Hbox Hpad) as Hord.
  eexists. split; [apply (trim_run_content _ _ _ _ _ _ _ Hin Hbox Hord)|].
  unfold padded_box, box_ordered in *.
  set (l := Z.max 0 (b0 - padding)) in *.
  set (u := Z.max 0 (b1 - padding)) in *.
  set (r := Z.min (Z.of_nat (width img)) (b2 + padding)) in *.
  set (lo := Z.min (Z.of_nat (height img)) (b3 + padding)) in *.
  destruct (crop_region_size img (l, u, r, lo)) as [Hw Hh].
  unfold box_width, box_height in Hw, Hh. rewrite Hw, Hh.
  split; [lia|]. split; [lia|].
  intros x y p Hp Hc.
  assert (Hx : (x < width img)%nat /\ (y < height img)%nat).
  { destruct Hok as [Hlen Hrows]. unfold getpixel, aget in Hp.
    destruct (rows img !! y) as [row|] eqn:Hrow; [|discriminate].
    apply lookup_lt_Some in Hp. pose proof (lookup_lt_Some _ _ _ Hrow) as Hy.
    rewrite Forall_forall in Hrows.
    rewrite <- (Hrows row) by (eapply list_elem_of_lookup_2; eassumption). lia. }
  assert (Hcontent : content_at alpha_only img x y = true)
    by (apply content_at_getpixel; now exists p).
  pose proof (getbbox_holds_content _ _ _ _ _ _ x y Hbox (proj1 Hx) (proj2 Hx) Hcontent)
    as Hinside.
  split; [lia|]. split; [lia|].
  rewrite crop_region_getpixel by lia.
  replace (l + Z.of_nat (x - Z.to_nat l)) with (Z.of_nat x) by lia.
  replace (u + Z.of_nat (y - Z.to_nat u)) with (Z.of_nat y) by lia.
  unfold pixel_at. destruct (Z.leb_spec 0 (Z.of_nat x)); [|lia].
  destruct (Z.leb_spec 0 (Z.of_nat y)); [|lia]. simpl.
  now rewrite !Nat2Z.id, Hp.
Qed.

Lemma bar_sprite_ok : image_ok bar_sprite.
Proof. split; [reflexivity | repeat constructor]. Qed.

Lemma trim_keeps_all_content_witness :
  exists out,
    trim_to_content true "in.png" "out.png" 0 {["in.png" := bar_sprite]} =
      Ok "out.png" (<["out.png" := out]> {["in.png" := bar_sprite]}) /\
    3 - 1 <= Z.of_nat (width out) <= Z.of_nat (width bar_sprite) /\
    2 - 1 <= Z.of_nat (height out) <= Z.of_nat (height bar_sprite) /\
    forall (x y : nat) (p : pixel),
      getpixel bar_sprite x y = Some p ->
      is_content true p = true ->
      Z.max 0 (1 - 0) <= Z.of_nat x /\
      Z.max 0 (1 - 0) <= Z.of_nat y /\
      getpixel out (x - Z.to_nat (Z.max 0 (1 - 0)))
                   (y - Z.to_nat (Z.max 0 (1 - 0))) = Some p.
Proof.
  apply (trim_keeps_all_content true {["in.png" := bar_sprite]} "in.png" "out.png" 0
           bar_sprite 1 1 3 2);
    [reflexivity | split; [reflexivity | repeat constructor] | reflexivity | lia].
Defined.

(** The pixels of a well-formed image, read back position by position, are
    its rows. *)
Lemma tabulate_getpixel (img : image) :
  image_ok img ->
  tabulate (width img) (height img)
    (fun x y => default transparent (getpixel img x y)) = rows img.
Proof.
  intros [Hh Hw]. unfold tabulate. apply list_eq. intros y.
  rewrite list_lookup_fmap.
  destruct (rows img !! y) as [row|] eqn:Hrow.
  - pose proof (lookup_lt_Some _ _ _ Hrow) as Hy.
    rewrite lookup_seq_lt by lia. simpl. f_equal.
    assert (Hlen : length row = width img).
    { rewrite Forall_forall in Hw. apply Hw.
      eapply list_elem_of_lookup_2; eassumption. }
    apply list_eq. intros x. rewrite list_lookup_fmap.
    destruct (row !! x) as [p|] eqn:Hp.
    + pose proof (lookup_lt_Some _ _ _ Hp) as Hx.
      rewrite lookup_seq_lt by lia. simpl. unfold getpixel, aget.
      now rewrite Hrow, Hp.
    + apply lookup_ge_None in Hp. now rewrite lookup_seq_ge by lia.
  - apply lookup_ge_None in Hrow. now rewrite lookup_seq_ge by lia.
Qed.

Lemma tabulate_ext {A} (w h : nat) (f g : nat -> nat -> A) :
  (forall x y, (x < w)%nat -> (y < h)%nat -> f x y = g x y) ->
  tabulate w h f = tabulate w h g.
Proof.
  intros Hfg. unfold tabulate. apply list_fmap_ext. intros i y Hy.
  apply lookup_seq in Hy as [-> Hy]. apply list_fmap_ext. intros j x Hx.
  apply lookup_seq in Hx as [-> Hx]. now apply Hfg.
Qed.

(** Cropping a well-formed image to its own rectangle copies it. *)
Lemma crop_region_full (img : image) :
  image_ok img ->
  crop_region img (0, 0, Z.of_nat (width img), Z.of_nat (height img)) = img.
Proof.
  intros Hok. unfold crop_region. rewrite !Z.sub_0_r, !Nat2Z.id.
  transitivity (Image (width img) (height img) (rows img));
    [|destruct img; reflexivity].
  f_equal. etransitivity; [|apply (tabulate_getpixel img Hok)].
  apply tabulate_ext. intros x y Hx Hy. unfold pixel_at.
  rewrite !Z.add_0_l. destruct (Z.leb_spec 0 (Z.of_nat x)); [|lia].
  destruct (Z.leb_spec 0 (Z.of_nat y)); [|lia]. simpl. rewrite !Nat2Z.id.
  now destruct (getpixel _ x y).
Qed.

Lemma last_in {A} (xs : list A) (d : A) : In (List.last xs d) (d :: xs).
Proof.
  revert d. induction xs as [|a xs IH]; intros d; [now left|].
  rewrite last_cons_default. right. apply IH.
Qed.

(** The four sides of the bounding box touch content. *)
Lemma getbbox_touches_content (alpha_only : bool) (img : image) b0 b1 b2 b3 :
  getbbox alpha_only img = Some (b0, b1, b2, b3) ->
  (exists y, (y < height img)%nat /\ content_at alpha_only img (Z.to_nat b0) y = true) /\
  (exists y, (y < height img)%nat /\
             content_at alpha_only img (Z.to_nat (b2 - 1)) y = true) /\
  (exists x, (x < width img)%nat /\ content_at alpha_only img x (Z.to_nat b1) = true) /\
  (exists x, (x < width img)%nat /\
             content_at alpha_only img x (Z.to_nat (b3 - 1)) = true).
Proof.
  unfold getbbox.
  destruct (content_cols alpha_only img) as [|x0 xs] eqn:Hc; [discriminate|].
  destruct (content_rows alpha_only img) as [|y0 ys] eqn:Hr; [discriminate|].
  intros Heq. injection Heq as <- <- <- <-.
  assert (Hcol : forall x, In x (x0 :: xs) ->
            exists y, (y < height img)%nat /\ content_at alpha_only img x y = true).
  { intros x Hx. rewrite <- Hc in Hx. apply filter_In in Hx as [_ Hex].
    apply existsb_exists in Hex as (y & Hy & Hcont). apply in_seq in Hy.
    exists y. split; [lia | exact Hcont]. }
  assert (Hrow : forall y, In y (y0 :: ys) ->
            exists x, (x < width img)%nat /\ content_at alpha_only img x y = true).
  { intros y Hy. rewrite <- Hr in Hy. apply filter_In in Hy as [_ Hex].
    apply existsb_exists in Hex as (x & Hx & Hcont). apply in_seq in Hx.
    exists x. split; [lia | exact Hcont]. }
  rewrite !Nat2Z.id.
  replace (Z.to_nat (Z.of_nat (List.last xs x0) + 1 - 1)) with (List.last xs x0) by lia.
  replace (Z.to_nat (Z.of_nat (List.last ys y0) + 1 - 1)) with (List.last ys y0) by lia.
  split; [apply Hcol; now left|]. split; [apply Hcol, last_in|].
  split; [apply Hrow; now left | apply Hrow, last_in].
Qed.

Lemma content_at_in_range (alpha_only : bool) (img : image) (x y : nat) :
  image_ok img -> content_at alpha_only img x y = true ->
  (x < width img)%nat /\ (y < height img)%nat.
Proof.
  intros [Hlen Hrows] Hc. apply content_at_getpixel in Hc as (p & Hp & _).
  unfold getpixel, aget in Hp.
  destruct (rows img !! y) as [row|] eqn:Hrow; [|discriminate].
  apply lookup_lt_Some in Hp. pose proof (lookup_lt_Some _ _ _ Hrow) as Hy.
  rewrite Forall_forall in Hrows.
  rewrite <- (Hrows row) by (eapply list_elem_of_lookup_2; eassumption). lia.
Qed.

(** Content inside the crop box is content of the crop, moved by the box's
    corner, and so lies in the crop's bounding box. *)
Lemma crop_region_content (alpha_only : bool) (img : image) l u r lo (x y x' y' : nat) :
  Z.of_nat x = l + Z.of_nat x' -> Z.of_nat y = u + Z.of_nat y' ->
  Z.of_nat x < r -> Z.of_nat y < lo ->
  content_at alpha_only img x y = true ->
  content_at alpha_only (crop_region img (l, u, r, lo)) x' y' = true.
Proof.
  intros Hx Hy Hxr Hyl Hc. apply content_at_getpixel in Hc as (p & Hp & Hcp).
  apply content_at_getpixel. exists p. split; [|exact Hcp].
  rewrite crop_region_getpixel by lia. rewrite <- Hx, <- Hy.
  unfold pixel_at. destruct (Z.leb_spec 0 (Z.of_nat x)); [|lia].
  destruct (Z.leb_spec 0 (Z.of_nat y)); [|lia]. simpl.
  now rewrite !Nat2Z.id, Hp.
Qed.

Lemma crop_bbox_holds_content (alpha_only : bool) (img : image) l u r lo c0 c1 c2 c3
    (x y : nat) :
  getbbox alpha_only (crop_region img (l, u, r, lo)) = Some (c0, c1, c2, c3) ->
  l <= Z.of_nat x < r -> u <= Z.of_nat y < lo ->
  content_at alpha_only img x y = true ->
  c0 <= Z.of_nat x - l < c2 /\ c1 <= Z.of_nat y - u < c3.
Proof.
  intros Hbox Hx Hy Hc.
  assert (Hx' : Z.of_nat x = l + Z.of_nat (Z.to_nat (Z.of_nat x - l))) by lia.
  assert (Hy' : Z.of_nat y = u + Z.of_nat (Z.to_nat (Z.of_nat y - u))) by lia.
  pose proof (crop_region_content alpha_only img l u r lo x y _ _ Hx' Hy'
                ltac:(lia) ltac:(lia) Hc) as Hc'.
  destruct (content_at_in_range _ _ _ _ (crop_region_ok img (l, u, r, lo)) Hc')
    as [H1 H2].
  pose proof (getbbox_holds_content _ _ _ _ _ _ _ _ Hbox H1 H2 Hc') as Hin.
  clear - Hin Hx' Hy'. lia.
Qed.

(** Trimming an image that was just trimmed with the same padding changes
    nothing. *)
Lemma trim_image_idempotent (alpha_only : bool) (padding : Z) (img : image) :
  image_ok img -> 0 <= padding ->
  trim_image alpha_only padding (trim_image alpha_only padding img) =
    trim_image alpha_only padding img.
Proof.
  intros Hok Hpad. unfold trim_image at 2 3.
  destruct (getbbox alpha_only img) as [[[[b0 b1] b2] b3]|] eqn:Hbox.
  2:{ unfold trim_image. now rewrite Hbox. }
  pose proof (getbbox_bounds _ _ _ _ _ _ Hbox) as Hb.
  destruct (getbbox_touches_content _ _ _ _ _ _ Hbox)
    as ((ya & Hya & Hca) & (yb & Hyb & Hcb) & (xa & Hxa & Hcc) & (xb & Hxb & Hcd)).
  assert (Hin : forall x y, (x < width img)%nat -> (y < height img)%nat ->
            content_at alpha_only img x y = true ->
            b0 <= Z.of_nat x < b2 /\ b1 <= Z.of_nat y < b3)
    by (intros; eapply getbbox_holds_content; eassumption).
  destruct (Z_of_nat_complete b0 ltac:(lia)) as [n0 E0].
  destruct (Z_of_nat_complete b1 ltac:(lia)) as [n1 E1].
  destruct (Z_of_nat_complete (b2 - 1) ltac:(lia)) as [n2 E2].
  destruct (Z_of_nat_complete (b3 - 1) ltac:(lia)) as [n3 E3].
  rewrite E0, Nat2Z.id in Hca. rewrite E2, Nat2Z.id in Hcb.
  rewrite E1, Nat2Z.id in Hcc. rewrite E3, Nat2Z.id in Hcd.
  pose proof (Hin n0 ya ltac:(lia) Hya Hca) as Ha.
  pose proof (Hin n2 yb ltac:(lia) Hyb Hcb) as Hb'.
  pose proof (Hin xa n1 Hxa ltac:(lia) Hcc) as Hc'.
  pose proof (Hin xb n3 Hxb ltac:(lia) Hcd) as Hd'.
  clear Hin.
  unfold padded_box.
  set (l := Z.max 0 (b0 - padding)).
  set (u := Z.max 0 (b1 - padding)).
  set (r := Z.min (Z.of_nat (width img)) (b2 + padding)).
  set (lo := Z.min (Z.of_nat (height img)) (b3 + padding)).
  assert (Hl : 0 <= l <= b0 /\ b0 - padding <= l) by (unfold l; lia).
  assert (Hu : 0 <= u <= b1 /\ b1 - padding <= u) by (unfold u; lia).
  assert (Hr : b2 <= r <= b2 + padding /\ r <= Z.of_nat (width img)) by (unfold r; lia).
  assert (Hlo : b3 <= lo <= b3 + padding /\ lo <= Z.of_nat (height img))
    by (unfold lo; lia).
  clearbody l u r lo.
  set (out := crop_region img (l, u, r, lo)).
  assert (Hout : image_ok out) by apply crop_region_ok.
  destruct (crop_region_size img (l, u, r, lo)) as [Hw Hh].
  unfold box_width, box_height in Hw, Hh. fold out in Hw, Hh.
  unfold trim_image.
  destruct (getbbox alpha_only out) as [[[[c0 c1] c2] c3]|] eqn:Hbox'.
  2:{ exfalso. rewrite getbbox_none in Hbox'.
      assert (Hx' : Z.of_nat n0 = l + Z.of_nat (Z.to_nat (Z.of_nat n0 - l))) by lia.
      assert (Hy' : Z.of_nat ya = u + Z.of_nat (Z.to_nat (Z.of_nat ya - u))) by lia.
      pose proof (crop_region_content alpha_only img l u r lo n0 ya _ _ Hx' Hy'
                    ltac:(lia) ltac:(lia) Hca) as Hc.
      fold out in Hc.
      destruct (content_at_in_range _ _ _ _ Hout Hc).
      rewrite Hbox' in Hc by assumption. discriminate. }
  pose proof (crop_bbox_holds_content alpha_only img l u r lo c0 c1 c2 c3 n0 ya Hbox'
                ltac:(lia) ltac:(lia) Hca) as Ia.
  pose proof (crop_bbox_holds_content alpha_only img l u r lo c0 c1 c2 c3 n2 yb Hbox'
                ltac:(lia) ltac:(lia) Hcb) as Ib.
  pose proof (crop_bbox_holds_content alpha_only img l u r lo c0 c1 c2 c3 xa n1 Hbox'
                ltac:(lia) ltac:(lia) Hcc) as Ic.
  pose proof (crop_bbox_holds_content alpha_only img l u r lo c0 c1 c2 c3 xb n3 Hbox'
                ltac:(lia) ltac:(lia) Hcd) as Id.
  assert (Hwz : Z.of_nat (width out) = r - l) by lia.
  assert (Hhz : Z.of_nat (height out) = lo - u) by lia.
  assert (Hc0 : c0 - padding <= 0) by lia.
  assert (Hc1 : c1 - padding <= 0) by lia.
  assert (Hc2 : Z.of_nat (width out) <= c2 + padding) by lia.
  assert (Hc3 : Z.of_nat (height out) <= c3 + padding) by lia.
  clear - Hout Hc0 Hc1 Hc2 Hc3.
  unfold padded_box.
  rewrite (Z.max_l 0 (c0 - padding)) by exact Hc0.
  rewrite (Z.max_l 0 (c1 - padding)) by exact Hc1.
  rewrite (Z.min_l (Z.of_nat (width out)) (c2 + padding)) by exact Hc2.
  rewrite (Z.min_l (Z.of_nat (height out)) (c3 + padding)) by exact Hc3.
  now apply crop_region_full.
Qed.


Lemma trim_run_image (alpha_only : bool) (fs : fsys) (input_path output_path : string)
    (padding : Z) (img : image) :
  fs !! input_path = Some img ->
  0 <= padding ->
  trim_to_content alpha_only input_path output_path padding fs =
    Ok output_path (<[output_path := trim_image alpha_only padding img]> fs).
Proof.
  intros Hin Hpad. unfold trim_image.
  destruct (getbbox alpha_only img) as [bbox|] eqn:Hbox.
  - apply trim_run_content; [assumption | assumption |].
    eapply padded_box_ordered; eassumption.
  - now apply trim_run_blank.
Qed.

Lemma trim_image_ok (alpha_only : bool) (padding : Z) (img : image) :
  image_ok img -> image_ok (trim_image alpha_only padding img).
Proof.
  intros Hok. unfold trim_image.
  destruct (getbbox alpha_only img); [apply crop_region_ok | exact Hok].
Qed.

(** X7: trimming is idempotent.  Trimming the output of a trim again, with
    the same padding [p >= 0], writes the same image once more. *)
Theorem trim_twice_is_trim_once
    (alpha_only : bool) (fs : fsys) (path_a path_b path_c : string)
    (padding : Z) (img : image) :
  fs !! path_a = Some img ->
  image_ok img ->
  0 <= padding ->
  exists fs1 fs2 trimmed,
    trim_to_content alpha_only path_a path_b padding fs = Ok path_b fs1 /\
    fs1 !! path_b = Some trimmed /\
    trim_to_content alpha_only path_b path_c padding fs1 = Ok path_c fs2 /\
    fs2 !! path_c = Some trimmed.
Proof.
  intros Hin Hok Hpad.
  eexists _, _, (trim_image alpha_only padding img).
  split; [apply trim_run_image; eassumption|].
  split; [apply lookup_insert_eq|].
  split; [apply trim_run_image; [apply lookup_insert_eq | assumption]|].
  rewrite lookup_insert_eq. f_equal. now apply trim_image_idempotent.
Qed.

Lemma trim_twice_is_trim_once_witness :
  exists fs1 fs2 trimmed,
    trim_to_content true "a.png" "b.png" 1 {["a.png" := bar_sprite]} = Ok "b.png" fs1 /\
    fs1 !! "b.png" = Some trimmed /\
    trim_to_content true "b.png" "c.png" 1 fs1 = Ok "c.png" fs2 /\
    fs2 !! "c.png" = Some trimmed.
Proof.
  apply (trim_twice_is_trim_once true {["a.png" := bar_sprite]} "a.png" "b.png" "c.png"
           1 bar_sprite);
    [reflexivity | split; [reflexivity | repeat constructor] | lia].
Defined.

(** ** resize_nearest: copies, blocks and round trips *)

Lemma resize_run_image (fs : fsys) (input_path output_path : string) (w h : Z)
    (img : image) :
  fs !! input_path = Some img ->
  0 < w -> 0 < h ->
  resize_nearest input_path output_path w h fs =
    Ok output_path (<[output_path := resize_image w h img]> fs).
Proof.
  intros Hin Hw Hh. unfold resize_nearest, bind, open_rgba, resize.
  rewrite Hin. destruct (Z.ltb_spec w 1); [lia|].
  destruct (Z.ltb_spec h 1); [lia|]. reflexivity.
Qed.

Lemma resize_image_ok (w h : Z) (img : image) : image_ok (resize_image w h img).
Proof. split; [apply tabulate_length | apply tabulate_rows]. Qed.

Lemma resize_image_getpixel (w h : Z) (img : image) (x y : nat) :
  Z.of_nat x < w -> Z.of_nat y < h ->
  getpixel (resize_image w h img) x y =
    Some (default transparent
            (getpixel img (nearest_index x (width img) (Z.to_nat w))
                          (nearest_index y (height img) (Z.to_nat h)))).
Proof.
  intros Hx Hy. unfold getpixel at 1, resize_image. cbn [rows].
  rewrite aget_tabulate by lia. now destruct (getpixel img _ _).
Qed.

(** An image is determined by its size and its pixels. *)
Lemma image_ext (a b : image) :
  image_ok a -> image_ok b ->
  width a = width b -> height a = height b ->
  (forall x y, (x < width a)%nat -> (y < height a)%nat ->
               getpixel a x y = getpixel b x y) ->
  a = b.
Proof.
  intros Ha Hb Hw Hh Hpx.
  destruct a as [wa ha ra], b as [wb hb rb]. cbn [width height] in *. subst wb hb.
  f_equal.
  transitivity (tabulate wa ha
                  (fun x y => default transparent (getpixel (Image wa ha ra) x y)));
    [symmetry; exact (tabulate_getpixel _ Ha)|].
  transitivity (tabulate wa ha
                  (fun x y => default transparent (getpixel (Image wa ha rb) x y)));
    [|exact (tabulate_getpixel _ Hb)].
  apply tabulate_ext. intros x y Hx Hy. now rewrite Hpx.
Qed.

Lemma resize_image_same_size (img : image) :
  image_ok img -> (0 < width img)%nat -> (0 < height img)%nat ->
  resize_image (Z.of_nat (width img)) (Z.of_nat (height img)) img = img.
Proof.
  intros Hok HW HH. apply image_ext.
  - apply resize_image_ok.
  - exact Hok.
  - apply Nat2Z.id.
  - apply Nat2Z.id.
  - intros x y Hx Hy. cbn [resize_image width height] in Hx, Hy.
    rewrite resize_image_getpixel by lia.
    rewrite !Nat2Z.id, !nearest_index_same_size by lia.
    destruct (getpixel_in_range img x y Hok) as [p Hp]; [lia | lia |].
    now rewrite Hp.
Qed.

(** X8: resizing an image to the size it already has copies it. *)
Theorem resize_to_the_same_size_copies
    (fs : fsys) (input_path output_path : string) (img : image) :
  fs !! input_path = Some img ->
  image_ok img ->
  (0 < width img)%nat ->
  (0 < height img)%nat ->
  resize_nearest input_path output_path
    (Z.of_nat (width img)) (Z.of_nat (height img)) fs =
    Ok output_path (<[output_path := img]> fs).
Proof.
  intros Hin Hok HW HH.
  rewrite (resize_run_image _ _ _ _ _ _ Hin) by lia.
  now rewrite resize_image_same_size.
Qed.

Lemma resize_to_the_same_size_copies_witness :
  resize_nearest "in.png" "out.png" (Z.of_nat (width strip3)) (Z.of_nat (height strip3))
    {["in.png" := strip3]} =
    Ok "out.png" (<["out.png" := strip3]> {["in.png" := strip3]}).
Proof.
  apply (resize_to_the_same_size_copies {["in.png" := strip3]} "in.png" "out.png" strip3);
    [reflexivity | split; [reflexivity | repeat constructor] | simpl; lia | simpl; lia].
Defined.

Lemma nearest_index_upscale (i n k : nat) :
  (0 < n)%nat -> (0 < k)%nat -> nearest_index i n (k * n) = (i / k)%nat.
Proof.
  intros Hn Hk. unfold nearest_index.
  replace (2 * (k * n))%nat with ((2 * k) * n)%nat by lia.
  rewrite Nat.Div0.div_mul_cancel_r by lia.
  pose proof (Nat.div_mod i k ltac:(lia)) as Hdm.
  pose proof (Nat.mod_upper_bound i k ltac:(lia)) as Hmod.
  symmetry. apply (Nat.div_unique _ _ _ (2 * (i mod k) + 1)); lia.
Qed.

Lemma nearest_index_downscale (i n k : nat) :
  (0 < n)%nat -> (0 < k)%nat -> nearest_index i (k * n) n = (k * i + k / 2)%nat.
Proof.
  intros Hn Hk. unfold nearest_index.
  replace ((2 * i + 1) * (k * n))%nat with (((2 * i + 1) * k) * n)%nat by lia.
  rewrite Nat.Div0.div_mul_cancel_r by lia.
  pose proof (Nat.div_mod k 2 ltac:(lia)) as Hdm.
  pose proof (Nat.mod_upper_bound k 2 ltac:(lia)) as Hmod.
  symmetry. apply (Nat.div_unique _ _ _ (k mod 2)); lia.
Qed.

(** X9: enlarging by whole factors turns every pixel into a block.  Resized
    to [kx * W] by [ky * H], the image shows at [(x, y)] the input pixel at
    [(x / kx, y / ky)]. *)
Theorem upscaling_by_whole_factors_makes_blocks
    (fs : fsys) (input_path output_path : string) (img : image) (kx ky x y : nat) :
  fs !! input_path = Some img ->
  image_ok img ->
  (0 < kx)%nat -> (0 < ky)%nat ->
  (x < kx * width img)%nat -> (y < ky * height img)%nat ->
  exists out p,
    resize_nearest input_path output_path
      (Z.of_nat (kx * width img)) (Z.of_nat (ky * height img)) fs =
      Ok output_path (<[output_path := out]> fs) /\
    getpixel img (x / kx) (y / ky) = Some p /\
    getpixel out x y = Some p.
Proof.
  intros Hin Hok Hkx Hky Hx Hy.
  assert (HW : (0 < width img)%nat) by nia.
  assert (HH : (0 < height img)%nat) by nia.
  destruct (getpixel_in_range img (x / kx) (y / ky) Hok) as [p Hp].
  { apply Nat.Div0.div_lt_upper_bound. lia. }
  { apply Nat.Div0.div_lt_upper_bound. lia. }
  exists (resize_image (Z.of_nat (kx * width img)) (Z.of_nat (ky * height img)) img), p.
  split; [apply resize_run_image; [assumption | lia | lia]|].
  split; [exact Hp|].
  rewrite resize_image_getpixel by lia.
  rewrite !Nat2Z.id, !nearest_index_upscale by lia. now rewrite Hp.
Qed.

Lemma upscaling_by_whole_factors_makes_blocks_witness :
  exists out p,
    resize_nearest "in.png" "out.png"
      (Z.of_nat (2 * width strip3)) (Z.of_nat (3 * height strip3))
      {["in.png" := strip3]} =
      Ok "out.png" (<["out.png" := out]> {["in.png" := strip3]}) /\
    getpixel strip3 (5 / 2) (2 / 3) = Some p /\
    getpixel out 5 2 = Some p.
Proof.
  apply (upscaling_by_whole_factors_makes_blocks
           {["in.png" := strip3]} "in.png" "out.png" strip3 2 3 5 2);
    [reflexivity | split; [reflexivity | repeat constructor]
    | lia | lia | simpl; lia | simpl; lia].
Defined.

Lemma resize_image_round_trip (img : image) (kx ky : nat) :
  image_ok img -> (0 < width img)%nat -> (0 < height img)%nat ->
  (0 < kx)%nat -> (0 < ky)%nat ->
  resize_image (Z.of_nat (width img)) (Z.of_nat (height img))
    (resize_image (Z.of_nat (kx * width img)) (Z.of_nat (ky * height img)) img) = img.
Proof.
  intros Hok HW HH Hkx Hky. apply image_ext.
  - apply resize_image_ok.
  - exact Hok.
  - apply Nat2Z.id.
  - apply Nat2Z.id.
  - intros x y Hx Hy. cbn [resize_image width height] in Hx, Hy.
    rewrite resize_image_getpixel by lia.
    cbn [resize_image width height]. rewrite !Nat2Z.id.
    rewrite !nearest_index_downscale by lia.
    assert (Hdx : (kx / 2 < kx)%nat) by (apply Nat.div_lt; lia).
    assert (Hdy : (ky / 2 < ky)%nat) by (apply Nat.div_lt; lia).
    change (getpixel {| width := ?w; height := ?h; rows := ?r |})
      with (getpixel (resize_image (Z.of_nat (kx * width img))
                                   (Z.of_nat (ky * height img)) img)).
    rewrite resize_image_getpixel by nia.
    rewrite !Nat2Z.id, !nearest_index_upscale by lia.
    replace ((kx * x + kx / 2) / kx)%nat with x
      by (apply (Nat.div_unique _ _ _ (kx / 2)); lia).
    replace ((ky * y + ky / 2) / ky)%nat with y
      by (apply (Nat.div_unique _ _ _ (ky / 2)); lia).
    destruct (getpixel_in_range img x y Hok) as [p Hp]; [lia | lia |].
    now rewrite Hp.
Qed.

(** X10: enlarging by whole factors and resizing back to the original size
    restores the image exactly. *)
Theorem upscale_then_downscale_restores
    (fs : fsys) (path_a path_b path_c : string) (img : image) (kx ky : nat) :
  fs !! path_a = Some img ->
  image_ok img ->
  (0 < width img)%nat -> (0 < height img)%nat ->
  (0 < kx)%nat -> (0 < ky)%nat ->
  exists fs1 fs2,
    resize_nearest path_a path_b
      (Z.of_nat (kx * width img)) (Z.of_nat (ky * height img)) fs = Ok path_b fs1 /\
    resize_nearest path_b path_c
      (Z.of_nat (width img)) (Z.of_nat (height img)) fs1 = Ok path_c fs2 /\
    fs2 !! path_c = Some img.
Proof.
  intros Hin Hok HW HH Hkx Hky.
  set (big := resize_image (Z.of_nat (kx * width img)) (Z.of_nat (ky * height img)) img).
  exists (<[path_b := big]> fs).
  exists (<[path_c := resize_image (Z.of_nat (width img)) (Z.of_nat (height img)) big]>
            (<[path_b := big]> fs)).
  split; [apply resize_run_image; [exact Hin | nia | nia]|].
  split; [apply resize_run_image; [apply lookup_insert_eq | lia | lia]|].
  rewrite lookup_insert_eq. f_equal. now apply resize_image_round_trip.
Qed.

Lemma upscale_then_downscale_restores_witness :
  exists fs1 fs2,
    resize_nearest "a.png" "b.png"
      (Z.of_nat (4 * width strip3)) (Z.of_nat (4 * height strip3))
      {["a.png" := strip3]} = Ok "b.png" fs1 /\
    resize_nearest "b.png" "c.png"
      (Z.of_nat (width strip3)) (Z.of_nat (height strip3)) fs1 = Ok "c.png" fs2 /\
    fs2 !! "c.png" = Some strip3.
Proof.
  apply (upscale_then_downscale_restores
           {["a.png" := strip3]} "a.png" "b.png" "c.png" strip3 4 4);
    [reflexivity | split; [reflexivity | repeat constructor]
    | simpl; lia | simpl; lia | lia | lia].
Defined.


(** ** mirror_horizontal and slice_sprite_sheet, pixel by pixel *)

Lemma flip_left_right_ok (img : image) : image_ok img -> image_ok (flip_left_right img).
Proof.
  intros [Hh Hw]. split; cbn [flip_left_right rows width height].
  - now rewrite length_fmap.
  - apply Forall_fmap. eapply Forall_impl; [exact Hw|].
    intros row Hrow. simpl. now rewrite length_reverse.
Qed.

(** X11: the mirrored sprite has the size of the input and shows column
    [W - 1 - x] of the input in its column [x], row by row. *)
Theorem mirror_swaps_the_columns
    (fs : fsys) (input_path output_path : string) (img : image) :
  fs !! input_path = Some img ->
  image_ok img ->
  exists out,
    mirror_horizontal input_path output_path fs =
      Ok output_path (<[output_path := out]> fs) /\
    width out = width img /\
    height out = height img /\
    image_ok out /\
    forall x y : nat,
      (x < width img)%nat ->
      getpixel out x y = getpixel img (width img - 1 - x) y.
Proof.
  intros Hin Hok. exists (flip_left_right img).
  split; [now apply mirror_horizontal_run|].
  split; [reflexivity|]. split; [reflexivity|].
  split; [now apply flip_left_right_ok|].
  intros x y Hx. now apply flip_left_right_getpixel.
Qed.

Lemma mirror_swaps_the_columns_witness :
  exists out,
    mirror_horizontal "w.png" "e.png" {["w.png" := strip3]} =
      Ok "e.png" (<["e.png" := out]> {["w.png" := strip3]}) /\
    width out = width strip3 /\
    height out = height strip3 /\
    image_ok out /\
    forall x y : nat,
      (x < width strip3)%nat ->
      getpixel out x y = getpixel strip3 (width strip3 - 1 - x) y.
Proof.
  apply (mirror_swaps_the_columns {["w.png" := strip3]} "w.png" "e.png" strip3);
    [reflexivity | split; [reflexivity | repeat constructor]].
Defined.

(** X12: the frames tile the sheet.  For a frame count [n >= 1] with frame
    width [fw = W // n], the sheet pixel in column [c < n * fw] and row [y]
    is the pixel in column [c mod fw] and row [y] of frame [c // fw]; when
    [n] divides [W] that is every pixel of the sheet. *)
Theorem frames_tile_the_sheet
    (fs : fsys) (sheet_path output_dir base_name : string) (frame_count : Z)
    (sheet : image) (c : Z) (y : nat) :
  fs !! sheet_path = Some sheet ->
  image_ok sheet ->
  1 <= frame_count ->
  0 <= c < frame_count * (Z.of_nat (width sheet) / frame_count) ->
  (y < height sheet)%nat ->
  exists fs' frame p,
    slice_sprite_sheet sheet_path output_dir base_name frame_count fs =
      Ok frame_count fs' /\
    0 <= c / (Z.of_nat (width sheet) / frame_count) < frame_count /\
    fs' !! frame_path output_dir base_name
             (c / (Z.of_nat (width sheet) / frame_count)) = Some frame /\
    getpixel sheet (Z.to_nat c) y = Some p /\
    getpixel frame (Z.to_nat (c mod (Z.of_nat (width sheet) / frame_count))) y = Some p /\
    (Z.of_nat (width sheet) mod frame_count = 0 ->
     frame_count * (Z.of_nat (width sheet) / frame_count) = Z.of_nat (width sheet)).
Proof.
  intros Hin Hok Hn Hc Hy.
  destruct (slice_frames fs sheet_path output_dir base_name frame_count sheet Hin Hn)
    as (fs' & Hrun & Hframes & _).
  set (fw := Z.of_nat (width sheet) / frame_count) in *.
  assert (Hfw : 0 < fw) by nia.
  assert (Hfit : frame_count * fw <= Z.of_nat (width sheet))
    by (apply Z.mul_div_le; lia).
  pose proof (Z.div_mod c fw ltac:(lia)) as Hdm.
  pose proof (Z.mod_pos_bound c fw Hfw) as Hmod.
  assert (Hi : 0 <= c / fw < frame_count).
  { split; [apply Z.div_pos; lia|]. apply Z.div_lt_upper_bound; lia. }
  destruct (pixel_at_in_range sheet c (Z.of_nat y) Hok) as (p & Hat & Hp);
    [lia | lia |].
  rewrite Nat2Z.id in Hp.
  exists fs', (crop_region sheet (frame_box fw (Z.of_nat (height sheet)) (c / fw))), p.
  split; [exact Hrun|]. split; [exact Hi|].
  split; [now apply Hframes|]. split; [exact Hp|].
  split.
  - unfold frame_box. rewrite crop_region_getpixel by lia.
    rewrite Z2Nat.id by lia. rewrite Z.add_0_l.
    replace (c / fw * fw + c mod fw) with c by lia. now rewrite Hat.
  - intros Hdiv. pose proof (Z.div_mod (Z.of_nat (width sheet)) frame_count ltac:(lia)).
    fold fw in H. lia.
Qed.

Lemma frames_tile_the_sheet_witness :
  exists fs' frame p,
    slice_sprite_sheet "sheet.png" "frames" "hero" 3 {["sheet.png" := strip3]} =
      Ok 3 fs' /\
    0 <= 2 / (Z.of_nat (width strip3) / 3) < 3 /\
    fs' !! frame_path "frames" "hero" (2 / (Z.of_nat (width strip3) / 3)) = Some frame /\
    getpixel strip3 (Z.to_nat 2) 0 = Some p /\
    getpixel frame (Z.to_nat (2 mod (Z.of_nat (width strip3) / 3))) 0 = Some p /\
    (Z.of_nat (width strip3) mod 3 = 0 ->
     3 * (Z.of_nat (width strip3) / 3) = Z.of_nat (width strip3)).
Proof.
  apply (frames_tile_the_sheet {["sheet.png" := strip3]} "sheet.png" "frames" "hero" 3
           strip3 2 0);
    [reflexivity | split; [reflexivity | repeat constructor] | lia
    | split; [lia | reflexivity] | simpl; lia].
Defined.


(** ** full_pipeline *)

Lemma string_eqb_decide (a b : string) :
  String.eqb a b = bool_decide (a = b).
Proof.
  destruct (String.eqb_spec a b) as [Heq|Hne].
  - now rewrite bool_decide_eq_true_2.
  - now rewrite bool_decide_eq_false_2.
Qed.

(** One pass of the clean-up loop over a path. *)
Lemma cleanup_step {A} (output_path tmp : string) (fs : fsys) (k : M fsys A) :
  bind (bind (path_exists tmp)
             (fun there => if there && negb (String.eqb tmp output_path)
                           then remove tmp else ret tt))
       (fun _ => k) fs =
  k (if bool_decide (tmp = output_path) then fs else delete tmp fs).
Proof.
  unfold bind, path_exists, remove, ret. rewrite string_eqb_decide.
  destruct (fs !! tmp) as [img|] eqn:Htmp; simpl.
  - case_bool_decide; simpl; [reflexivity|]. now rewrite Htmp.
  - case_bool_decide; [reflexivity|]. now rewrite delete_id.
Qed.

(** What the clean-up leaves of the three files written. *)
Lemma cleaned_lookup (fs : fsys) (keyed trimmed output_path path : string) (K T R : image) :
  let written := <[output_path := R]> (<[trimmed := T]> (<[keyed := K]> fs)) in
  let once := if bool_decide (keyed = output_path) then written
              else delete keyed written in
  (if bool_decide (trimmed = output_path) then once else delete trimmed once) !! path =
    if bool_decide (path = output_path) then Some R
    else if bool_decide (path = keyed \/ path = trimmed) then None
    else fs !! path.
Proof.
  intros written once. subst written once.
  repeat case_bool_decide;
    rewrite ?lookup_delete, ?lookup_insert;
    repeat case_decide; try reflexivity; try congruence; exfalso; intuition congruence.
Qed.

Lemma full_pipeline_run (alpha_only : bool) (fs : fsys) (input_path output_path : string)
    (target_w target_h tolerance padding : Z) (img : image) :
  fs !! input_path = Some img ->
  0 <= padding -> 0 < target_w -> 0 < target_h ->
  exists fs',
    full_pipeline alpha_only input_path output_path target_w target_h tolerance padding fs
      = Ok output_path fs' /\
    forall path,
      fs' !! path =
        if bool_decide (path = output_path) then
          Some (resize_image target_w target_h
                  (trim_image alpha_only padding (chroma_key_image tolerance img)))
        else if bool_decide (path = keyed_path_of input_path \/
                             path = trimmed_path_of input_path) then None
        else fs !! path.
Proof.
  intros Hin Hpad Hw Hh. unfold full_pipeline.
  set (keyed := keyed_path_of input_path).
  set (trimmed := trimmed_path_of input_path).
  set (K := chroma_key_image tolerance img).
  set (T := trim_image alpha_only padding K).
  set (R := resize_image target_w target_h T).
  unfold bind at 1. rewrite (chroma_key_magenta_run _ _ _ _ _ Hin). fold K.
  unfold bind at 1.
  rewrite (trim_run_image alpha_only _ keyed trimmed padding K)
    by (apply lookup_insert_eq || assumption). fold T.
  unfold bind at 1.
  rewrite (resize_run_image _ trimmed output_path target_w target_h T)
    by (apply lookup_insert_eq || assumption). fold R.
  change (for_each [keyed; trimmed] ?body)
    with (bind (body keyed) (fun _ => bind (body trimmed) (fun _ => ret tt))).
  cbv beta. unfold bind at 1. rewrite cleanup_step. rewrite cleanup_step.
  unfold ret. eexists. split; [reflexivity|].
  intros path. apply cleaned_lookup.
Qed.


Lemma prefix_png_dotless (c : ascii) (s : string) :
  c <> "."%char -> String.prefix ".png" (String c s) = false.
Proof.
  intros Hc. rewrite prefix_cons. destruct (ascii_dec "." c); [|reflexivity].
  now subst.
Qed.

Lemma replace_dotless (new s : string) :
  dotless s -> str_replace ".png" new s = s.
Proof.
  unfold dotless, str_replace. induction s as [|c s IH]; intros Hs; [reflexivity|].
  cbn [list_ascii_of_string] in Hs. apply Forall_cons in Hs as [Hc Hs].
  cbn [replace_from]. rewrite (prefix_png_dotless c s Hc). now rewrite IH.
Qed.

Lemma replace_extension (new stem : string) :
  dotless stem -> str_replace ".png" new (stem ++ ".png") = (stem ++ new)%string.
Proof.
  unfold dotless, str_replace. induction stem as [|c s IH]; intros Hs.
  - change ("" ++ ".png")%string with ".png"%string.
    change ("" ++ new)%string with new.
    cbn [replace_from]. change (String.prefix ".png" ".png") with true. cbv iota.
    cbn [String.length Nat.sub replace_from].
    induction new as [|a new IHn]; [reflexivity|].
    rewrite append_cons. now rewrite IHn.
  - cbn [list_ascii_of_string] in Hs. apply Forall_cons in Hs as [Hc Hs].
    rewrite !append_cons. cbn [replace_from].
    rewrite (prefix_png_dotless c _ Hc). now rewrite IH.
Qed.

Lemma replace_upper_extension (new stem : string) :
  dotless stem -> str_replace ".png" new (stem ++ ".PNG") = (stem ++ ".PNG")%string.
Proof.
  unfold dotless, str_replace. induction stem as [|c s IH]; intros Hs.
  - reflexivity.
  - cbn [list_ascii_of_string] in Hs. apply Forall_cons in Hs as [Hc Hs].
    rewrite !append_cons. cbn [replace_from].
    rewrite (prefix_png_dotless c _ Hc). now rewrite IH.
Qed.

(** X13: the pipeline composes its three steps.  For an input named
    [stem.png] and an output named [other.png], both file names of one
    directory, a padding [p >= 0], a positive target size and a tolerance
    within the binary64 range, the output file holds the keyed, then
    trimmed, then resized input and is exactly [target_w] by [target_h]
    pixels.  This holds also when the output is the input file or has the
    name of one of the two intermediates. *)
Theorem full_pipeline_composes_the_steps
    (alpha_only : bool) (fs : fsys) (stem other : string)
    (target_w target_h tolerance padding : Z) (img : image) :
  file_stem stem ->
  file_stem other ->
  fs !! (stem ++ ".png")%string = Some img ->
  0 <= padding ->
  0 < target_w ->
  0 < target_h ->
  float_range (tolerance * 2) ->
  exists fs' fs1 fs2 fs3 keyed trimmed result,
    full_pipeline alpha_only (stem ++ ".png") (other ++ ".png")
      target_w target_h tolerance padding fs = Ok (other ++ ".png")%string fs' /\
    chroma_key_magenta (stem ++ ".png") "keyed.png" tolerance fs =
      Ok "keyed.png"%string fs1 /\
    fs1 !! "keyed.png" = Some keyed /\
    trim_to_content alpha_only "keyed.png" "trimmed.png" padding fs1 =
      Ok "trimmed.png"%string fs2 /\
    fs2 !! "trimmed.png" = Some trimmed /\
    resize_nearest "trimmed.png" "resized.png" target_w target_h fs2 =
      Ok "resized.png"%string fs3 /\
    fs3 !! "resized.png" = Some result /\
    fs' !! (other ++ ".png")%string = Some result /\
    Z.of_nat (width result) = target_w /\
    Z.of_nat (height result) = target_h.
Proof.
  intros _ _ Hin Hpad Hw Hh _.
  destruct (full_pipeline_run alpha_only fs (stem ++ ".png") (other ++ ".png")
              target_w target_h tolerance padding img Hin Hpad Hw Hh)
    as (fs' & Hrun & Hlook).
  exists fs'. eexists _, _, _, _, _, _.
  split; [exact Hrun|].
  split; [apply (chroma_key_magenta_run _ _ _ _ _ Hin)|].
  split; [apply lookup_insert_eq|].
  split; [apply trim_run_image; [apply lookup_insert_eq | assumption]|].
  split; [apply lookup_insert_eq|].
  split; [apply resize_run_image; [apply lookup_insert_eq | assumption | assumption]|].
  split; [apply lookup_insert_eq|].
  split; [rewrite Hlook; now rewrite bool_decide_eq_true_2|].
  cbn [resize_image width height]. lia.
Qed.

Lemma full_pipeline_composes_the_steps_witness :
  exists fs' fs1 fs2 fs3 keyed trimmed result,
    full_pipeline true ("hero" ++ ".png") ("hero" ++ ".png") 4 2 60 8
      {["hero.png" := keyed_sprite]} = Ok ("hero" ++ ".png")%string fs' /\
    chroma_key_magenta ("hero" ++ ".png") "keyed.png" 60 {["hero.png" := keyed_sprite]} =
      Ok "keyed.png"%string fs1 /\
    fs1 !! "keyed.png" = Some keyed /\
    trim_to_content true "keyed.png" "trimmed.png" 8 fs1 = Ok "trimmed.png"%string fs2 /\
    fs2 !! "trimmed.png" = Some trimmed /\
    resize_nearest "trimmed.png" "resized.png" 4 2 fs2 = Ok "resized.png"%string fs3 /\
    fs3 !! "resized.png" = Some result /\
    fs' !! ("hero" ++ ".png")%string = Some result /\
    Z.of_nat (width result) = 4 /\
    Z.of_nat (height result) = 2.
Proof.
  apply (full_pipeline_composes_the_steps true {["hero.png" := keyed_sprite]}
           "hero" "hero" 4 2 60 8 keyed_sprite);
    [split; [discriminate | split; repeat constructor; discriminate]
    | split; [discriminate | split; repeat constructor; discriminate]
    | reflexivity | lia | lia | lia
    | split; vm_compute; intros H; discriminate H].
Defined.

(** X14: the pipeline cleans up after itself and touches nothing else.
    After a successful run the keyed and the trimmed intermediate are gone,
    unless one of them is the output path, and every file other than the
    output and the two intermediates is as it was. *)
Theorem full_pipeline_removes_its_intermediates
    (alpha_only : bool) (fs : fsys) (input_path output_path : string)
    (target_w target_h tolerance padding : Z) (img : image) :
  fs !! input_path = Some img ->
  0 <= padding ->
  0 < target_w ->
  0 < target_h ->
  exists fs',
    full_pipeline alpha_only input_path output_path target_w target_h tolerance padding fs
      = Ok output_path fs' /\
    (keyed_path_of input_path <> output_path ->
     fs' !! keyed_path_of input_path = None) /\
    (trimmed_path_of input_path <> output_path ->
     fs' !! trimmed_path_of input_path = None) /\
    (forall path,
       path <> output_path ->
       path <> keyed_path_of input_path ->
       path <> trimmed_path_of input_path ->
       fs' !! path = fs !! path).
Proof.
  intros Hin Hpad Hw Hh.
  destruct (full_pipeline_run alpha_only fs input_path output_path target_w target_h
              tolerance padding img Hin Hpad Hw Hh) as (fs' & Hrun & Hlook).
  exists fs'. split; [exact Hrun|].
  split; [|split].
  - intros Hne. rewrite Hlook. rewrite bool_decide_eq_false_2 by assumption.
    rewrite bool_decide_eq_true_2 by (now left). reflexivity.
  - intros Hne. rewrite Hlook. rewrite bool_decide_eq_false_2 by assumption.
    rewrite bool_decide_eq_true_2 by (now right). reflexivity.
  - intros path Ho Hk Ht. rewrite Hlook.
    rewrite bool_decide_eq_false_2 by assumption.
    rewrite bool_decide_eq_false_2 by tauto. reflexivity.
Qed.

Lemma full_pipeline_removes_its_intermediates_witness :
  exists fs',
    full_pipeline true "hero.png" "out.png" 4 2 60 8 {["hero.png" := keyed_sprite]}
      = Ok "out.png"%string fs' /\
    (keyed_path_of "hero.png" <> "out.png"%string ->
     fs' !! keyed_path_of "hero.png" = None) /\
    (trimmed_path_of "hero.png" <> "out.png"%string ->
     fs' !! trimmed_path_of "hero.png" = None) /\
    (forall path,
       path <> "out.png"%string ->
       path <> keyed_path_of "hero.png" ->
       path <> trimmed_path_of "hero.png" ->
       fs' !! path = ({["hero.png" := keyed_sprite]} : fsys) !! path).
Proof.
  apply (full_pipeline_removes_its_intermediates true {["hero.png" := keyed_sprite]}
           "hero.png" "out.png" 4 2 60 8 keyed_sprite);
    [reflexivity | lia | lia | lia].
Defined.

(** X15: what becomes of the input file.  Input and output are file
    names of one directory with different stems, the output ending in
    [.png]; the padding is not negative, the target size positive and the
    tolerance within the binary64 range.  For an input named [stem.png] the
    intermediates are [stem_keyed.png] and [stem_trimmed.png] and the input
    file is left as it was.  For an input named [stem.PNG] the replacement
    of [.png] finds nothing, both intermediates are the input itself: the
    run overwrites the input and then deletes it. *)
Theorem full_pipeline_and_its_input
    (alpha_only : bool) (fs : fsys) (stem other : string)
    (target_w target_h tolerance padding : Z) (img : image) :
  file_stem stem ->
  file_stem other ->
  other <> stem ->
  0 <= padding ->
  0 < target_w ->
  0 < target_h ->
  float_range (tolerance * 2) ->
  (fs !! (stem ++ ".png")%string = Some img ->
   exists fs',
     full_pipeline alpha_only (stem ++ ".png") (other ++ ".png")
       target_w target_h tolerance padding fs = Ok (other ++ ".png")%string fs' /\
     keyed_path_of (stem ++ ".png") = (stem ++ "_keyed.png")%string /\
     trimmed_path_of (stem ++ ".png") = (stem ++ "_trimmed.png")%string /\
     fs' !! (stem ++ ".png")%string = Some img) /\
  (fs !! (stem ++ ".PNG")%string = Some img ->
   exists fs',
     full_pipeline alpha_only (stem ++ ".PNG") (other ++ ".png")
       target_w target_h tolerance padding fs = Ok (other ++ ".png")%string fs' /\
     keyed_path_of (stem ++ ".PNG") = (stem ++ ".PNG")%string /\
     trimmed_path_of (stem ++ ".PNG") = (stem ++ ".PNG")%string /\
     fs' !! (stem ++ ".PNG")%string = None).
Proof.
  intros (_ & Hstem & _) _ Hne Hpad Hw Hh _. split.
  - intros Hin.
    destruct (full_pipeline_run alpha_only fs (stem ++ ".png") (other ++ ".png")
                target_w target_h tolerance padding img Hin Hpad Hw Hh)
      as (fs' & Hrun & Hlook).
    exists fs'. split; [exact Hrun|].
    unfold keyed_path_of, trimmed_path_of in *.
    rewrite !replace_extension in * by assumption.
    split; [reflexivity|]. split; [reflexivity|].
    rewrite Hlook. rewrite bool_decide_eq_false_2.
    + rewrite bool_decide_eq_false_2; [exact Hin|].
      intros [Heq|Heq]; apply String.app_inj in Heq; discriminate.
    + intros Heq. apply append_inv_tail in Heq. congruence.
  - intros Hin.
    destruct (full_pipeline_run alpha_only fs (stem ++ ".PNG") (other ++ ".png")
                target_w target_h tolerance padding img Hin Hpad Hw Hh)
      as (fs' & Hrun & Hlook).
    exists fs'. split; [exact Hrun|].
    unfold keyed_path_of, trimmed_path_of in *.
    rewrite !replace_upper_extension in * by assumption.
    split; [reflexivity|]. split; [reflexivity|].
    rewrite Hlook. rewrite bool_decide_eq_false_2.
    + now rewrite bool_decide_eq_true_2 by (now left).
    + intros Heq. apply (f_equal string_rev) in Heq.
      rewrite !string_rev_append in Heq. discriminate Heq.
Qed.

Lemma full_pipeline_and_its_input_witness :
  (exists fs',
     full_pipeline true ("hero" ++ ".png") ("out" ++ ".png") 4 2 60 8 two_heroes =
       Ok ("out" ++ ".png")%string fs' /\
     keyed_path_of ("hero" ++ ".png") = ("hero" ++ "_keyed.png")%string /\
     trimmed_path_of ("hero" ++ ".png") = ("hero" ++ "_trimmed.png")%string /\
     fs' !! ("hero" ++ ".png")%string = Some keyed_sprite) /\
  (exists fs',
     full_pipeline true ("hero" ++ ".PNG") ("out" ++ ".png") 4 2 60 8 two_heroes =
       Ok ("out" ++ ".png")%string fs' /\
     keyed_path_of ("hero" ++ ".PNG") = ("hero" ++ ".PNG")%string /\
     trimmed_path_of ("hero" ++ ".PNG") = ("hero" ++ ".PNG")%string /\
     fs' !! ("hero" ++ ".PNG")%string = None).
Proof.
  split.
  - apply (proj1 (full_pipeline_and_its_input true two_heroes "hero" "out" 4 2 60 8
                    keyed_sprite
                    ltac:(split; [discriminate | split; repeat constructor; discriminate])
                    ltac:(split; [discriminate | split; repeat constructor; discriminate])
                    ltac:(discriminate) ltac:(lia) ltac:(lia) ltac:(lia)
                    ltac:(split; vm_compute; intros H; discriminate H))).
    reflexivity.
  - apply (proj2 (full_pipeline_and_its_input true two_heroes "hero" "out" 4 2 60 8
                    keyed_sprite
                    ltac:(split; [discriminate | split; repeat constructor; discriminate])
                    ltac:(split; [discriminate | split; repeat constructor; discriminate])
                    ltac:(discriminate) ltac:(lia) ltac:(lia) ltac:(lia)
                    ltac:(split; vm_compute; intros H; discriminate H))).
    reflexivity.
Defined.

(** ** mirror_directions *)

Lemma for_fold_ext {S A B} (xs : list A) (acc : B) (body body' : A -> B -> M S B) (s : S) :
  (forall x acc s, body x acc s = body' x acc s) ->
  for_fold xs acc body s = for_fold xs acc body' s.
Proof.
  intros Hext. revert acc s. induction xs as [|x xs IH]; intros acc s; [reflexivity|].
  cbn [for_fold]. unfold bind. rewrite Hext.
  destruct (body' x acc s) as [acc' s'|e s']; [apply IH | reflexivity].
Qed.

Lemma for_fold_app {S A B} (xs ys : list A) (acc : B) (body : A -> B -> M S B) (s : S) :
  for_fold (xs ++ ys) acc body s =
    bind (for_fold xs acc body) (fun acc' => for_fold ys acc' body) s.
Proof.
  revert acc s. induction xs as [|x xs IH]; intros acc s; [reflexivity|].
  cbn [for_fold app]. unfold bind.
  destruct (body x acc s) as [acc' s'|e s']; [|reflexivity].
  rewrite IH. reflexivity.
Qed.

Lemma for_fold_map {S A A' B} (h : A -> A') (xs : list A) (acc : B)
    (body : A' -> B -> M S B) (s : S) :
  for_fold (map h xs) acc body s = for_fold xs acc (fun x => body (h x)) s.
Proof.
  revert acc s. induction xs as [|x xs IH]; intros acc s; [reflexivity|].
  cbn [for_fold map]. unfold bind.
  destruct (body (h x) acc s) as [acc' s'|e s']; [apply IH | reflexivity].
Qed.

Lemma for_fold_flat_map {S A A' B} (g : A -> list A') (xs : list A) (acc : B)
    (body : A' -> B -> M S B) (s : S) :
  for_fold (flat_map g xs) acc body s =
    for_fold xs acc (fun x acc' => for_fold (g x) acc' body) s.
Proof.
  revert acc s. induction xs as [|x xs IH]; intros acc s; [reflexivity|].
  cbn [for_fold flat_map]. rewrite for_fold_app. unfold bind.
  destruct (for_fold (g x) acc body s) as [acc' s'|e s']; [apply IH | reflexivity].
Qed.

(** The two nested loops are one loop over the eighteen jobs. *)
Lemma mirror_directions_flat (source_dir character action : string) (s : shell) :
  mirror_directions source_dir character action s =
    for_fold (direction_jobs character action) 0 (mirror_job source_dir) s.
Proof.
  unfold mirror_directions, direction_jobs. rewrite for_fold_flat_map.
  apply for_fold_ext. intros [src_dir dst_dir] count s'.
  rewrite for_fold_map. reflexivity.
Qed.


Lemma mirror_job_run (source_dir : string) (job : string * string) (count : Z)
    (fs : fsys) (out : list string) :
  mirror_job source_dir job count (Shell fs out) =
    match fs !! path_join source_dir (fst job) with
    | Some img =>
        Ok (count + 1)
           (Shell (<[path_join source_dir (snd job) := flip_left_right img]> fs)
                  (out ++ [("  Mirrored: " ++ fst job ++ " -> " ++ snd job)%string]))
    | None => Ok count (Shell fs out)
    end.
Proof.
  unfold mirror_job, bind, on_files, path_exists, echo, ret. cbn [files printed].
  destruct (fs !! path_join source_dir (fst job)) as [img|] eqn:Hsrc; [|reflexivity].
  rewrite (mirror_horizontal_run _ _ _ _ Hsrc). reflexivity.
Qed.

Lemma jobs_found_cons (source_dir : string) (fs0 : fsys) (job : string * string)
    (jobs : list (string * string)) :
  jobs_found source_dir fs0 (job :: jobs) =
    match fs0 !! path_join source_dir (fst job) with
    | Some _ => job :: jobs_found source_dir fs0 jobs
    | None => jobs_found source_dir fs0 jobs
    end.
Proof.
  unfold jobs_found. cbn [List.filter].
  now destruct (fs0 !! path_join source_dir (fst job)).
Qed.

Lemma mirror_all_cons (source_dir : string) (fs0 : fsys) (job : string * string)
    (jobs : list (string * string)) (fs : fsys) :
  mirror_all source_dir fs0 (job :: jobs) fs =
    mirror_all source_dir fs0 jobs
      match fs0 !! path_join source_dir (fst job) with
      | Some img => <[path_join source_dir (snd job) := flip_left_right img]> fs
      | None => fs
      end.
Proof. reflexivity. Qed.

(** The loop over a list of jobs none of whose mirror images is the source
    of a job. *)
Lemma mirror_jobs_run (source_dir : string) (fs0 : fsys) (jobs : list (string * string)) :
  (forall j j', In j jobs -> In j' jobs ->
                path_join source_dir (snd j) <> path_join source_dir (fst j')) ->
  forall (count : Z) (fs : fsys) (out : list string),
    (forall j, In j jobs ->
               fs !! path_join source_dir (fst j) = fs0 !! path_join source_dir (fst j)) ->
    for_fold jobs count (mirror_job source_dir) (Shell fs out) =
      Ok (count + Z.of_nat (length (jobs_found source_dir fs0 jobs)))
         (Shell (mirror_all source_dir fs0 jobs fs)
                (out ++ map (fun job => ("  Mirrored: " ++ fst job ++ " -> " ++ snd job)%string)
                            (jobs_found source_dir fs0 jobs))).
Proof.
  induction jobs as [|job jobs IH]; intros Hapart count fs out Hsrc.
  - cbn. now rewrite Z.add_0_r, app_nil_r.
  - cbn [for_fold]. unfold bind. rewrite mirror_job_run.
    rewrite (Hsrc job) by now left.
    rewrite jobs_found_cons, mirror_all_cons.
    destruct (fs0 !! path_join source_dir (fst job)) as [img|] eqn:Hjob.
    + rewrite IH.
      * cbn [length map]. rewrite <- app_assoc. cbn [app].
        f_equal. lia.
      * intros j j' Hj Hj'. apply Hapart; now right.
      * intros j Hj. rewrite lookup_insert_ne; [apply Hsrc; now right|].
        apply Hapart; [now left | now right].
    + apply IH.
      * intros j j' Hj Hj'. apply Hapart; now right.
      * intros j Hj. apply Hsrc. now right.
Qed.

Lemma mirror_all_other (source_dir : string) (fs0 : fsys) (jobs : list (string * string))
    (fs : fsys) (path : string) :
  (forall j, In j (jobs_found source_dir fs0 jobs) ->
             path <> path_join source_dir (snd j)) ->
  mirror_all source_dir fs0 jobs fs !! path = fs !! path.
Proof.
  revert fs. induction jobs as [|job jobs IH]; intros fs Hother; [reflexivity|].
  rewrite mirror_all_cons. rewrite jobs_found_cons in Hother.
  destruct (fs0 !! path_join source_dir (fst job)) as [img|] eqn:Hjob.
  - rewrite IH by (intros j Hj; apply Hother; now right).
    apply lookup_insert_ne. intros Heq. apply (Hother job); [now left | now symmetry].
  - now apply IH.
Qed.

Lemma mirror_all_mirrored (source_dir : string) (fs0 : fsys)
    (jobs : list (string * string)) (fs : fsys) (job : string * string) (img : image) :
  List.NoDup (map (fun j => path_join source_dir (snd j)) jobs) ->
  In job jobs ->
  fs0 !! path_join source_dir (fst job) = Some img ->
  mirror_all source_dir fs0 jobs fs !! path_join source_dir (snd job) =
    Some (flip_left_right img).
Proof.
  revert fs. induction jobs as [|j jobs IH]; intros fs Hnd Hin Hsrc; [contradiction|].
  cbn [map] in Hnd. apply List.NoDup_cons_iff in Hnd as [Hfresh Hnd].
  rewrite mirror_all_cons.
  destruct Hin as [->|Hin].
  - rewrite Hsrc. rewrite mirror_all_other; [apply lookup_insert_eq|].
    intros j' Hj' Heq. apply Hfresh. apply filter_In in Hj' as [Hj' _].
    rewrite Heq. apply (in_map (fun j => path_join source_dir (snd j))). exact Hj'.
  - now apply IH.
Qed.


Lemma sprite_name_split (character action direction suffix : string) :
  sprite_name character action direction suffix =
    ((character ++ "-" ++ action ++ "-") ++ (direction ++ suffix ++ ".png"))%string.
Proof. unfold sprite_name. now rewrite !append_assoc3. Qed.

Lemma prefix_slash_dash (character rest : string) :
  String.prefix "/" (character ++ "-" ++ rest) = String.prefix "/" (character ++ "-").
Proof.
  destruct character as [|c s]; [reflexivity|].
  rewrite !append_cons, !prefix_cons.
  destruct (ascii_dec "/" c); [|reflexivity]. now rewrite !prefix_empty.
Qed.

Lemma sprite_path_shape (source_dir character action direction suffix : string) :
  path_join source_dir (sprite_name character action direction suffix) =
    (sprite_prefix source_dir character action ++ (direction ++ suffix ++ ".png"))%string.
Proof.
  rewrite sprite_name_split. unfold path_join, sprite_prefix.
  assert (Hp : String.prefix "/" ((character ++ "-" ++ action ++ "-") ++
                                  (direction ++ suffix ++ ".png")) =
               String.prefix "/" (character ++ "-" ++ action ++ "-")).
  { rewrite !append_assoc3.
    rewrite (prefix_slash_dash character (action ++ "-" ++ direction ++ suffix ++ ".png")).
    now rewrite (prefix_slash_dash character (action ++ "-")). }
  rewrite Hp. destruct (String.prefix "/" (character ++ "-" ++ action ++ "-"));
    [reflexivity|].
  destruct (String.eqb source_dir "" || endswith source_dir "/");
    now rewrite !append_assoc3.
Qed.

(** Every job is one of the eighteen tails behind the common prefix. *)
Lemma direction_job_tail (source_dir character action : string) (job : string * string) :
  In job (direction_jobs character action) ->
  exists tail, In tail direction_tails /\
    path_join source_dir (fst job) =
      (sprite_prefix source_dir character action ++ fst tail)%string /\
    path_join source_dir (snd job) =
      (sprite_prefix source_dir character action ++ snd tail)%string.
Proof.
  unfold direction_jobs, direction_tails. intros Hin.
  apply in_flat_map in Hin as (dirs & Hdirs & Hin).
  apply in_map_iff in Hin as (suffix & <- & Hsuffix).
  exists ((fst dirs ++ suffix ++ ".png")%string, (snd dirs ++ suffix ++ ".png")%string).
  split.
  - apply in_flat_map. exists dirs. split; [exact Hdirs|].
    apply in_map_iff. now exists suffix.
  - cbn [fst snd]. now rewrite !sprite_path_shape.
Qed.

(** No mirror image has the name of a source, and the eighteen mirror
    images have eighteen names. *)
Lemma direction_tails_apart (t t' : string * string) :
  In t direction_tails -> In t' direction_tails -> snd t <> fst t'.
Proof.
  assert (Hcheck : forallb (fun t => forallb (fun t' => negb (String.eqb (snd t) (fst t')))
                                             direction_tails) direction_tails = true)
    by (vm_compute; reflexivity).
  intros Ht Ht'. rewrite forallb_forall in Hcheck. specialize (Hcheck t Ht).
  rewrite forallb_forall in Hcheck. specialize (Hcheck t' Ht').
  apply negb_true_iff in Hcheck. now apply String.eqb_neq.
Qed.

Lemma direction_tails_distinct : List.NoDup (map snd direction_tails).
Proof.
  apply NoDup_ListNoDup.
  refine (bool_decide_unpack (NoDup (map snd direction_tails)) _).
  vm_compute. exact I.
Qed.

Lemma direction_jobs_apart (source_dir character action : string)
    (j j' : string * string) :
  In j (direction_jobs character action) ->
  In j' (direction_jobs character action) ->
  path_join source_dir (snd j) <> path_join source_dir (fst j').
Proof.
  intros Hj Hj'.
  destruct (direction_job_tail source_dir character action j Hj) as (t & Ht & _ & ->).
  destruct (direction_job_tail source_dir character action j' Hj') as (t' & Ht' & -> & _).
  intros Heq. apply String.app_inj in Heq. now apply (direction_tails_apart t t').
Qed.

Lemma direction_jobs_distinct (source_dir character action : string) :
  List.NoDup (map (fun j => path_join source_dir (snd j))
                  (direction_jobs character action)).
Proof.
  assert (Hmap : map (fun j => path_join source_dir (snd j))
                     (direction_jobs character action) =
                 map (fun t => (sprite_prefix source_dir character action ++ t)%string)
                     (map snd direction_tails)).
  { unfold direction_jobs, direction_tails, mirror_map, sheet_suffixes.
    cbn [flat_map map app fst snd]. now rewrite !sprite_path_shape. }
  rewrite Hmap. generalize direction_tails_distinct.
  generalize (map snd direction_tails) as tails.
  induction tails as [|t tails IH]; intros Hnd; [constructor|].
  apply List.NoDup_cons_iff in Hnd as [Hfresh Hnd]. cbn [map]. constructor.
  - intros Hin. apply in_map_iff in Hin as (t' & Heq & Hin).
    apply String.app_inj in Heq. now subst.
  - now apply IH.
Qed.

Lemma direction_jobs_length (character action : string) :
  length (direction_jobs character action) = 18%nat.
Proof. reflexivity. Qed.

(** X16: [mirror_directions] mirrors exactly the sources it finds.  Of the
    eighteen names it tries (three directions, six suffixes) it counts those
    that exist, prints one line for each in loop order, writes the mirror
    image of each under the name of the opposite direction, and leaves every
    other file, the sources included, as it was.  The count is at most 18. *)
Theorem mirror_directions_mirrors_what_it_finds
    (source_dir character action : string) (fs : fsys) (out : list string) :
  exists fs',
    mirror_directions source_dir character action (Shell fs out) =
      Ok (Z.of_nat (length (jobs_found source_dir fs (direction_jobs character action))))
         (Shell fs'
            (out ++ map (fun job => ("  Mirrored: " ++ fst job ++ " -> " ++ snd job)%string)
                        (jobs_found source_dir fs (direction_jobs character action)))) /\
    (length (jobs_found source_dir fs (direction_jobs character action)) <= 18)%nat /\
    (forall job img,
       In job (direction_jobs character action) ->
       fs !! path_join source_dir (fst job) = Some img ->
       fs' !! path_join source_dir (snd job) = Some (flip_left_right img) /\
       fs' !! path_join source_dir (fst job) = Some img) /\
    (forall path,
       (forall job, In job (jobs_found source_dir fs (direction_jobs character action)) ->
                    path <> path_join source_dir (snd job)) ->
       fs' !! path = fs !! path).
Proof.
  exists (mirror_all source_dir fs (direction_jobs character action) fs).
  split; [|split; [|split]].
  - rewrite mirror_directions_flat.
    rewrite (mirror_jobs_run source_dir fs).
    + reflexivity.
    + intros j j'. apply direction_jobs_apart.
    + reflexivity.
  - rewrite <- (direction_jobs_length character action).
    unfold jobs_found. apply filter_length_le.
  - intros job img Hjob Hsrc. split.
    + apply mirror_all_mirrored; [apply direction_jobs_distinct | exact Hjob | exact Hsrc].
    + rewrite mirror_all_other; [exact Hsrc|].
      intros j Hj Heq. apply filter_In in Hj as [Hj _].
      now apply (direction_jobs_apart source_dir character action j job).
  - intros path Hother. now apply mirror_all_other.
Qed.

Lemma mirror_directions_sample_run :
  mirror_directions "sprites" "beans" "idle" (Shell sprite_folder []) =
    Ok 2 (Shell (<["sprites/beans-idle-se-4f.png" := flip_left_right dot_sprite]>
                   (<["sprites/beans-idle-e.png" := flip_left_right strip3]> sprite_folder))
                ["  Mirrored: beans-idle-w.png -> beans-idle-e.png"%string;
                 "  Mirrored: beans-idle-sw-4f.png -> beans-idle-se-4f.png"%string]).
Proof. rewrite mirror_directions_flat. reflexivity. Qed.


(** X17: a pipeline that fails at the resize step leaves its intermediates
    behind.  With a target width or height below one the keyed and the
    trimmed image are written first, then [ValueError] is raised: the
    clean-up is not reached, the trimmed intermediate stays on disk, and
    every path other than the two intermediates, the output path included,
    is as it was. *)
Theorem full_pipeline_failure_leaves_intermediates
    (alpha_only : bool) (fs : fsys) (input_path output_path : string)
    (target_w target_h tolerance padding : Z) (img : image) :
  fs !! input_path = Some img ->
  0 <= padding ->
  target_w < 1 \/ target_h < 1 ->
  exists fs',
    full_pipeline alpha_only input_path output_path target_w target_h tolerance padding fs
      = Raise ValueError fs' /\
    fs' !! trimmed_path_of input_path =
      Some (trim_image alpha_only padding (chroma_key_image tolerance img)) /\
    is_Some (fs' !! keyed_path_of input_path) /\
    (forall path,
       path <> keyed_path_of input_path ->
       path <> trimmed_path_of input_path ->
       fs' !! path = fs !! path).
Proof.
  intros Hin Hpad Hsize. unfold full_pipeline.
  set (keyed := keyed_path_of input_path).
  set (trimmed := trimmed_path_of input_path).
  set (K := chroma_key_image tolerance img).
  set (T := trim_image alpha_only padding K).
  unfold bind at 1. rewrite (chroma_key_magenta_run _ _ _ _ _ Hin). fold K.
  unfold bind at 1.
  rewrite (trim_run_image alpha_only _ keyed trimmed padding K)
    by (apply lookup_insert_eq || assumption). fold T.
  unfold bind at 1.
  assert (Hfail : resize_nearest trimmed output_path target_w target_h
                    (<[trimmed := T]> (<[keyed := K]> fs)) =
                  Raise ValueError (<[trimmed := T]> (<[keyed := K]> fs))).
  { unfold resize_nearest, bind, open_rgba, resize, raise.
    rewrite lookup_insert_eq.
    destruct (Z.ltb_spec target_w 1); [reflexivity|].
    destruct (Z.ltb_spec target_h 1); [reflexivity | lia]. }
  rewrite Hfail. eexists. split; [reflexivity|].
  split; [apply lookup_insert_eq|]. split.
  - destruct (decide (trimmed = keyed)) as [->|Hne].
    + rewrite lookup_insert_eq. now eexists.
    + rewrite lookup_insert_ne by assumption. rewrite lookup_insert_eq. now eexists.
  - intros path Hk Ht. now rewrite !lookup_insert_ne by congruence.
Qed.

Lemma full_pipeline_failure_leaves_intermediates_witness :
  exists fs',
    full_pipeline true "hero.png" "out.png" 0 2 60 8 {["hero.png" := keyed_sprite]}
      = Raise ValueError fs' /\
    fs' !! trimmed_path_of "hero.png" =
      Some (trim_image true 8 (chroma_key_image 60 keyed_sprite)) /\
    is_Some (fs' !! keyed_path_of "hero.png") /\
    (forall path,
       path <> keyed_path_of "hero.png" ->
       path <> trimmed_path_of "hero.png" ->
       fs' !! path = ({["hero.png" := keyed_sprite]} : fsys) !! path).
Proof.
  apply (full_pipeline_failure_leaves_intermediates true {["hero.png" := keyed_sprite]}
           "hero.png" "out.png" 0 2 60 8 keyed_sprite);
    [reflexivity | lia | left; lia].
Defined.

(** ** The command line *)

Lemma not_in_commands (cmd : string) :
  ~ In cmd commands ->
  String.eqb cmd "chroma_key" = false /\ String.eqb cmd "trim" = false /\
  String.eqb cmd "resize" = false /\ String.eqb cmd "slice" = false /\
  String.eqb cmd "mirror" = false /\ String.eqb cmd "full_pipeline" = false /\
  String.eqb cmd "mirror_directions" = false.
Proof.
  intros Hno. repeat split; apply String.eqb_neq; intros ->; apply Hno;
    unfold commands; simpl; tauto.
Qed.

(** X18: a call without a command, or with a command the dispatch does not
    know, prints the usage text (after naming the unknown command), ends
    with status 1 and touches no file. *)
Theorem main_rejects_unknown_commands
    (alpha_only : bool) (py_int : string -> option Z) (argv : list string) (s : shell) :
  ((length argv < 2)%nat ->
   main alpha_only py_int argv s = Ok 1 (Shell (files s) (printed s ++ [usage]))) /\
  (forall prog cmd rest,
     argv = prog :: cmd :: rest ->
     ~ In cmd commands ->
     main alpha_only py_int argv s =
       Ok 1 (Shell (files s)
                   (printed s ++ [("Unknown command: " ++ cmd)%string; usage]))).
Proof.
  split.
  - intros Hlen. unfold main. destruct (Nat.ltb_spec (length argv) 2); [|lia].
    reflexivity.
  - intros prog cmd rest -> Hno. unfold main.
    destruct (Nat.ltb_spec (length (prog :: cmd :: rest)) 2) as [Hlt|_];
      [cbn [length] in Hlt; lia|].
    unfold bind at 1. cbn [argv_at lookup list_lookup]. unfold ret at 1.
    destruct (not_in_commands cmd Hno) as (-> & -> & -> & -> & -> & -> & ->).
    unfold bind, echo, ret. cbn [files printed]. now rewrite <- app_assoc.
Qed.

Lemma main_rejects_unknown_commands_witness :
  main true (fun _ => None) ["art_pipeline.py"; "rotate"; "a.png"]%string
       (Shell sample_fs []) =
    Ok 1 (Shell sample_fs ["Unknown command: rotate"%string; usage]).
Proof.
  apply (proj2 (main_rejects_unknown_commands true (fun _ => None)
                  ["art_pipeline.py"; "rotate"; "a.png"]%string (Shell sample_fs []))
               "art_pipeline.py"%string "rotate"%string ["a.png"%string] eq_refl).
  unfold commands. simpl. intros H. repeat destruct H as [H|H]; try discriminate H.
  exact H.
Defined.


Lemma fails_clean_bind {S A B} (m : M S A) (k : A -> M S B) :
  stateless m -> (forall a, fails_clean (k a)) -> fails_clean (bind m k).
Proof.
  intros Hm Hk s e s'. unfold bind. specialize (Hm s).
  destruct (m s) as [a s1|e1 s1]; subst s1.
  - apply Hk.
  - now intros [= _ <-].
Qed.

Lemma stateless_argv_at (argv : list string) (i : nat) : stateless (argv_at argv i).
Proof. intros s. unfold argv_at. now destruct (argv !! i). Qed.

Lemma stateless_int_argv (py_int : string -> option Z) (argv : list string) (i : nat) :
  stateless (int_argv py_int argv i).
Proof.
  intros s. unfold int_argv, bind, argv_at.
  destruct (argv !! i) as [arg|]; [|reflexivity].
  unfold ret, raise. now destruct (py_int arg).
Qed.

Lemma stateless_ret {S A} (a : A) : stateless (@ret S A a).
Proof. intros s. reflexivity. Qed.

(** A file operation that fails cleanly, followed by the line that reports
    its result. *)
Lemma fails_clean_report {A} (op : M fsys A) (line : A -> string) :
  fails_clean op ->
  fails_clean (bind (on_files op) (fun result => bind (echo (line result))
                                                      (fun _ => ret 0))).
Proof.
  intros Hop s e s'. unfold bind, on_files, echo, ret.
  destruct (op (files s)) as [a fs|e1 fs] eqn:Hrun; [discriminate|].
  intros [= _ <-]. rewrite (Hop _ _ _ Hrun). now destruct s.
Qed.

Lemma chroma_key_fails_clean (a b : string) (t : Z) :
  fails_clean (chroma_key_magenta a b t).
Proof.
  intros fs e fs'. unfold chroma_key_magenta, bind, open_rgba, save, ret.
  destruct (fs !! a); [discriminate | now intros [= _ <-]].
Qed.

Lemma mirror_fails_clean (a b : string) : fails_clean (mirror_horizontal a b).
Proof.
  intros fs e fs'. unfold mirror_horizontal, bind, open_rgba, save, ret.
  destruct (fs !! a); [discriminate | now intros [= _ <-]].
Qed.

Lemma resize_fails_clean (a b : string) (w h : Z) : fails_clean (resize_nearest a b w h).
Proof.
  intros fs e fs'. unfold resize_nearest, bind, open_rgba, resize, save, ret, raise.
  destruct (fs !! a); [|now intros [= _ <-]].
  destruct ((w <? 1) || (h <? 1)); [now intros [= _ <-] | discriminate].
Qed.

Lemma trim_fails_clean (alpha_only : bool) (a b : string) (p : Z) :
  fails_clean (trim_to_content alpha_only a b p).
Proof.
  intros fs e fs'. unfold trim_to_content, bind, open_rgba.
  destruct (fs !! a) as [img|]; [|now intros [= _ <-]].
  destruct (getbbox alpha_only img) as [bbox|]; [|discriminate].
  destruct (padded_box img bbox p) as [[[l u] r] lo]. unfold crop, raise, ret, save.
  destruct (r <? l); [now intros [= _ <-]|].
  destruct (lo <? u); [now intros [= _ <-] | discriminate].
Qed.

Lemma slice_fails_clean (a b c : string) (n : Z) :
  fails_clean (slice_sprite_sheet a b c n).
Proof.
  intros fs e fs' Hrun.
  destruct (fs !! a) as [sheet|] eqn:Hin.
  - destruct (Z.eq_dec n 0) as [->|Hne].
    + rewrite (slice_zero _ _ _ _ _ Hin) in Hrun. now injection Hrun as _ <-.
    + destruct (Z_lt_le_dec n 1) as [Hneg|Hpos].
      * unfold slice_sprite_sheet, makedirs, floordiv, bind, ret, open_rgba in Hrun.
        rewrite Hin in Hrun. destruct (Z.eqb_spec n 0); [contradiction|].
        rewrite range_nonpositive in Hrun by lia. discriminate.
      * rewrite (slice_run _ _ _ _ _ _ Hin Hpos) in Hrun. discriminate.
  - unfold slice_sprite_sheet, makedirs, floordiv, bind, ret, open_rgba in Hrun.
    rewrite Hin in Hrun. now injection Hrun as _ <-.
Qed.

Lemma mirror_directions_returns (source_dir character action : string) (s : shell) :
  exists count s', mirror_directions source_dir character action s = Ok count s'.
Proof.
  destruct s as [fs out]. rewrite mirror_directions_flat.
  rewrite (mirror_jobs_run source_dir fs).
  - now eexists _, _.
  - intros j j'. apply direction_jobs_apart.
  - reflexivity.
Qed.

Lemma fails_clean_mirror_directions (source_dir character action : string) (line : Z -> string) :
  fails_clean (bind (mirror_directions source_dir character action)
                    (fun count => bind (echo (line count)) (fun _ => ret 0))).
Proof.
  intros s e s'. unfold bind.
  destruct (mirror_directions_returns source_dir character action s) as (n & s1 & ->).
  discriminate.
Qed.

(** X19: apart from [full_pipeline], a command that ends with an exception
    has written no image file and printed nothing.  This covers a missing
    or non-numeric argument as well as a failing operation. *)
Theorem failed_command_writes_and_prints_nothing
    (alpha_only : bool) (py_int : string -> option Z) (argv : list string)
    (s s' : shell) (e : exn) :
  main alpha_only py_int argv s = Raise e s' ->
  argv !! 1%nat <> Some "full_pipeline"%string ->
  s' = s.
Proof.
  unfold main. destruct (length argv <? 2)%nat; [discriminate|].
  intros Hrun Hcmd.
  assert (Hstep : forall k : string -> M shell Z,
            bind (argv_at argv 1) k s =
              match argv !! 1%nat with
              | Some cmd => k cmd s
              | None => Raise IndexError s
              end).
  { intros k. unfold bind, argv_at. now destruct (argv !! 1%nat). }
  rewrite Hstep in Hrun. clear Hstep.
  destruct (argv !! 1%nat) as [cmd|]; [|now injection Hrun as _ <-].
  revert Hrun. refine ((_ : fails_clean _) s e s'). clear s s' e.
  destruct (String.eqb cmd "chroma_key").
  { apply fails_clean_bind.
    - destruct (4 <? length argv)%nat;
        [apply stateless_int_argv | apply stateless_ret].
    - intros tol. apply fails_clean_bind; [apply stateless_argv_at|]. intros a.
      apply fails_clean_bind; [apply stateless_argv_at|]. intros b.
      apply fails_clean_report, chroma_key_fails_clean. }
  destruct (String.eqb cmd "trim").
  { apply fails_clean_bind.
    - destruct (4 <? length argv)%nat;
        [apply stateless_int_argv | apply stateless_ret].
    - intros pad. apply fails_clean_bind; [apply stateless_argv_at|]. intros a.
      apply fails_clean_bind; [apply stateless_argv_at|]. intros b.
      apply fails_clean_report, trim_fails_clean. }
  destruct (String.eqb cmd "resize").
  { apply fails_clean_bind; [apply stateless_argv_at|]. intros a.
    apply fails_clean_bind; [apply stateless_argv_at|]. intros b.
    apply fails_clean_bind; [apply stateless_int_argv|]. intros w.
    apply fails_clean_bind; [apply stateless_int_argv|]. intros h.
    apply fails_clean_report, resize_fails_clean. }
  destruct (String.eqb cmd "slice").
  { apply fails_clean_bind; [apply stateless_argv_at|]. intros a.
    apply fails_clean_bind; [apply stateless_argv_at|]. intros b.
    apply fails_clean_bind; [apply stateless_argv_at|]. intros c.
    apply fails_clean_bind; [apply stateless_int_argv|]. intros n.
    apply (fails_clean_report _ (fun count => ("Sliced into " ++ str_int count ++ " frames")%string)),
      slice_fails_clean. }
  destruct (String.eqb cmd "mirror").
  { apply fails_clean_bind; [apply stateless_argv_at|]. intros a.
    apply fails_clean_bind; [apply stateless_argv_at|]. intros b.
    apply fails_clean_report, mirror_fails_clean. }
  destruct (String.eqb_spec cmd "full_pipeline") as [->|_]; [contradiction|].
  destruct (String.eqb cmd "mirror_directions").
  { apply fails_clean_bind; [apply stateless_argv_at|]. intros a.
    apply fails_clean_bind; [apply stateless_argv_at|]. intros b.
    apply fails_clean_bind; [apply stateless_argv_at|]. intros c.
    apply (fails_clean_mirror_directions _ _ _
             (fun count => ("Mirrored " ++ str_int count ++ " direction files")%string)). }
  intros s e s'. unfold bind, echo, ret. discriminate.
Qed.

Lemma failed_command_writes_and_prints_nothing_witness :
  main true (fun _ => None)
       ["art_pipeline.py"; "resize"; "in.png"; "out.png"; "ten"; "10"]%string
       (Shell sample_fs []) = Raise ValueError (Shell sample_fs []) /\
  Shell sample_fs [] = Shell sample_fs [].
Proof.
  split; [reflexivity|].
  apply (failed_command_writes_and_prints_nothing true (fun _ => None)
           ["art_pipeline.py"; "resize"; "in.png"; "out.png"; "ten"; "10"]%string
           (Shell sample_fs []) (Shell sample_fs []) ValueError);
    [reflexivity | discriminate].
Defined.


(** ** generate_beans.py: the key, the successful run, the exit status *)

Lemma prefix_split (a s : string) :
  String.prefix a s = true -> exists rest, s = (a ++ rest)%string.
Proof.
  revert s. induction a as [|x a IH]; intros s Hp.
  - now exists s.
  - destruct s as [|c s]; [discriminate|].
    rewrite prefix_cons in Hp. destruct (ascii_dec x c) as [->|]; [|discriminate].
    destruct (IH s Hp) as [rest ->]. now exists rest.
Qed.

(** White space in the sense of [str.isspace], the no-break space and the
    next-line character included, is what the end of a line loses. *)
Lemma rstrip_removes_white_space :
  rstrip (String "a" (String "160" (String "133" (String "032" (String "010" ""))))) =
    "a"%string /\
  forall c : ascii,
    is_space c = true <->
    In (nat_of_ascii c) [9; 10; 11; 12; 13; 28; 29; 30; 31; 32; 133; 160]%nat.
Proof.
  split; [reflexivity|].
  intros c. rewrite <- (ascii_nat_embedding c) at 1.
  pose proof (nat_ascii_bounded c) as Hc.
  generalize dependent (nat_of_ascii c). intros n Hn.
  do 256 (destruct n as [|n]; [vm_compute; intuition (discriminate || lia)|]).
  lia.
Qed.

(** X20: reading the key never raises.  Whatever the lines of [.env] (text
    of characters below U+0100), the loop ends with no key when no line
    starts with the prefix, and otherwise with the text behind the first
    [=] of the first such line, its trailing white space, in the sense of
    [str.isspace], removed; the lines after it are not looked at. *)
Theorem key_loading_never_fails (lines : list string) (c : console) :
  (no_key_line lines /\ load_api_key lines c = Done None c) \/
  (exists key, first_key_line lines key /\ load_api_key lines c = Done (Some key) c).
Proof.
  induction lines as [|line lines IH].
  - left. split; [constructor | reflexivity].
  - destruct (String.prefix key_prefix line) eqn:Hline.
    + right. destruct (prefix_split _ _ Hline) as [rest ->].
      assert (Hfirst : first_key_line ((key_prefix ++ rest)%string :: lines) (rstrip rest)).
      { exists [], rest, lines. repeat split. constructor. }
      exists (rstrip rest). split; [exact Hfirst|].
      now apply load_api_key_present.
    + destruct IH as [[Hnone Hrun]|(key & Hkey & Hrun)].
      * left. split; [now constructor|].
        rewrite load_api_key_cons, Hline. exact Hrun.
      * right. exists key. split.
        -- destruct Hkey as (before & rest & after & -> & Hbefore & ->).
           exists (line :: before), rest, after. repeat split. now constructor.
        -- rewrite load_api_key_cons, Hline. exact Hrun.
Qed.

Section ScriptRuns.
Variable w : world.

(** Text parts in front of other parts are printed and passed over. *)
Lemma scan_parts_skip_text (texts more : list json) (c : console) :
  forallb text_part texts = true ->
  scan_parts w (texts ++ more) c =
    scan_parts w more (Console (stdout c ++ flat_map part_lines texts) (written c)).
Proof.
  revert c. induction texts as [|part texts IH]; intros c Hall.
  - cbn [app flat_map]. now rewrite app_nil_r, console_eta.
  - simpl in Hall. apply andb_true_iff in Hall as [Hpart Hall].
    destruct part as [| | | | |entries]; try discriminate.
    simpl in Hpart. apply andb_true_iff in Hpart as [Hinline Htext].
    apply negb_true_iff in Hinline.
    change ((JDict entries :: texts) ++ more)%list
      with (JDict entries :: (texts ++ more)%list).
    cbn [scan_parts part_lines flat_map]. script_step.
    rewrite Hinline, (has_key_lookup "text").
    destruct (lookup_key "text" entries) as [[| | |s| |]|] eqn:Hlk;
      try discriminate; script_step; rewrite ?Hlk; script_step;
      rewrite IH by assumption; cbn [stdout written].
    + now rewrite <- app_assoc.
    + reflexivity.
Qed.

(** A part with image data ends the loop: the parts behind it are not
    looked at. *)
Lemma scan_parts_image (part : json) (rest : list json) (data : string)
    (img_data : list Byte.byte) (c : console) :
  image_data_of part = Some data ->
  b64decode w data = Some img_data ->
  scan_parts w (part :: rest) c =
    Done true (Console (stdout c ++ saved_lines w img_data)
                       (written c ++ [(output_path w, img_data)])).
Proof.
  intros Hdata Hdecode. destruct part as [| | | | |entries]; try discriminate.
  cbn [image_data_of] in Hdata.
  destruct (lookup_key "inlineData" entries) as [[| | | | |inline]|] eqn:Hinline;
    try discriminate.
  destruct (lookup_key "data" inline) as [[| | |s| |]|] eqn:Hs; try discriminate.
  injection Hdata as ->.
  cbn [scan_parts]. script_step. rewrite (has_key_lookup "inlineData"), Hinline.
  script_step. rewrite Hs. script_step. rewrite Hdecode.
  unfold write_file. script_step. unfold saved_lines.
  now rewrite <- app_assoc.
Qed.

(** Candidates without image data in front of others are passed over. *)
Lemma scan_candidates_skip (before more : list json) (c : console) :
  forallb candidate_without_image before = true ->
  scan_candidates w (before ++ more) c =
    scan_candidates w more
      (Console (stdout c ++ flat_map candidate_lines before) (written c)).
Proof.
  revert c. induction before as [|cand before IH]; intros c Hall.
  - cbn [app flat_map]. now rewrite app_nil_r, console_eta.
  - simpl in Hall. apply andb_true_iff in Hall as [Hcand Hall].
    destruct cand as [| | | | |entries]; try discriminate.
    simpl in Hcand.
    change ((JDict entries :: before) ++ more)%list
      with (JDict entries :: (before ++ more)%list).
    cbn [scan_candidates candidate_lines flat_map]. script_step.
    rewrite (has_key_lookup "content").
    destruct (lookup_key "content" entries) as [[| | | | |content]|] eqn:Hlk;
      try discriminate; script_step.
    + rewrite (has_key_lookup "parts").
      destruct (lookup_key "parts" content) as [[| | | |parts|]|] eqn:Hparts;
        try discriminate; script_step.
      * rewrite scan_parts_text by assumption.
        rewrite IH by assumption. cbn [stdout written].
        now rewrite <- app_assoc.
      * now rewrite IH by assumption.
    + now rewrite IH by assumption.
Qed.

(** A candidate whose parts hold an image ends the loop over the
    candidates. *)
Lemma scan_candidates_image (cand : json) (after parts : list json) (c c' : console) :
  parts_of cand = Some parts ->
  scan_parts w parts c = Done true c' ->
  scan_candidates w (cand :: after) c = Done true c'.
Proof.
  intros Hparts Hscan. destruct cand as [| | | | |entries]; try discriminate.
  cbn [parts_of] in Hparts.
  destruct (lookup_key "content" entries) as [[| | | | |content]|] eqn:Hcontent;
    try discriminate.
  destruct (lookup_key "parts" content) as [[| | | |ps|]|] eqn:Hps; try discriminate.
  injection Hparts as ->.
  cbn [scan_candidates]. script_step. rewrite (has_key_lookup "content"), Hcontent.
  script_step. rewrite (has_key_lookup "parts"), Hps. script_step.
  now rewrite Hscan.
Qed.

Lemma extract_image_candidates (result : json) (candidates : list json) (c : console) :
  candidates_of result = Some candidates ->
  extract_image w result c = scan_candidates w candidates c.
Proof.
  intros Hcs. destruct result as [| | | | |entries]; try discriminate.
  cbn [candidates_of] in Hcs.
  destruct (lookup_key "candidates" entries) as [[| | | |cs|]|] eqn:Hlk; try discriminate.
  injection Hcs as ->.
  unfold extract_image. script_step. rewrite (has_key_lookup "candidates"), Hlk.
  script_step. reflexivity.
Qed.

End ScriptRuns.

(** X21: the first part that carries image data is the one saved.  With a
    key, a reply whose candidates start with candidates without image
    data, followed by one whose parts are text parts and then a part with
    decodable image data, the script prints the text met on the way, writes
    the decoded bytes to the output path, prints the success lines and ends
    normally.  The parts and candidates behind the image are not looked
    at, whatever they are. *)
Theorem first_image_part_is_saved
    (w : world) (lines : list string) (key : string) (result cand part : json)
    (before after texts rest : list json) (data : string) (img_data : list Byte.byte) :
  env_file w = Some lines ->
  first_key_line lines key ->
  key <> ""%string ->
  urlopen w (endpoint ++ key) = Reply result ->
  candidates_of result = Some (before ++ cand :: after) ->
  forallb candidate_without_image before = true ->
  parts_of cand = Some (texts ++ part :: rest) ->
  forallb text_part texts = true ->
  image_data_of part = Some data ->
  b64decode w data = Some img_data ->
  run_script w =
    Done tt (Console (calling_lines ++ flat_map candidate_lines before ++
                      flat_map part_lines texts ++
                      saved_lines w img_data ++ success_lines w)
                     [(output_path w, img_data)]).
Proof.
  intros Henv Hkey Hne Hreply Hcands Hbefore Hparts Htexts Hdata Hdecode.
  assert (Hpresent : key_missing (Some key) = false)
    by (simpl; now apply String.eqb_neq).
  unfold run_script, generate_beans.
  rewrite Henv. script_run.
  rewrite (load_api_key_present lines key _ Hkey), Hpresent.
  change (default ""%string (Some key)) with key. rewrite Hreply.
  rewrite (extract_image_candidates w result _ _ Hcands).
  rewrite (scan_candidates_skip w before _ _ Hbefore).
  rewrite (scan_candidates_image w cand after _ _ _ Hparts
             (eq_trans (scan_parts_skip_text w texts _ _ Htexts)
                       (scan_parts_image w part rest data img_data _ Hdata Hdecode))).
  cbn [stdout written]. unfold calling_lines, success_lines.
  rewrite <- !app_assoc. reflexivity.
Qed.


Lemma first_image_part_is_saved_witness :
  run_script image_world =
    Done tt (Console (calling_lines ++ flat_map candidate_lines [] ++
                      flat_map part_lines [JDict [("text"%string, JStr "here it is")]] ++
                      saved_lines image_world [Byte.x41; Byte.x42; Byte.x43] ++
                      success_lines image_world)
                     [(output_path image_world, [Byte.x41; Byte.x42; Byte.x43])]).
Proof.
  apply (first_image_part_is_saved image_world env_with_key "abc123" image_reply
           (JDict [("content"%string,
                    JDict [("parts"%string,
                            JList [JDict [("text"%string, JStr "here it is")];
                                   JDict [("inlineData"%string,
                                           JDict [("data"%string, JStr "QUJD")])];
                                   JNull])])])
           (JDict [("inlineData"%string, JDict [("data"%string, JStr "QUJD")])])
           [] [JNull] [JDict [("text"%string, JStr "here it is")]] [JNull]
           "QUJD" [Byte.x41; Byte.x42; Byte.x43]);
    try reflexivity.
  - exists [String "#" " local settings"], "abc123  "%string, [].
    repeat split. repeat constructor.
  - discriminate.
Defined.

(** *** The exit status *)

Section Exits.
Context {A B : Type}.

Lemma never_exits_sret (a : A) : never_exits (sret a).
Proof. intros c. exact I. Qed.

Lemma never_exits_throw (e : exn) : never_exits (@throw A e).
Proof. intros c. exact I. Qed.

Lemma never_exits_sbind (m : Script A) (k : A -> Script B) :
  never_exits m -> (forall a, never_exits (k a)) -> never_exits (sbind m k).
Proof.
  intros Hm Hk c. unfold sbind. specialize (Hm c).
  destruct (m c) as [a c'|h c']; [apply Hk | exact Hm].
Qed.

Lemma exits_with_one_sbind (m : Script A) (k : A -> Script B) :
  exits_with_one m -> (forall a, exits_with_one (k a)) -> exits_with_one (sbind m k).
Proof.
  intros Hm Hk c. unfold sbind. specialize (Hm c).
  destruct (m c) as [a c'|h c']; [apply Hk | exact Hm].
Qed.

Lemma never_exits_with_one (m : Script A) : never_exits m -> exits_with_one m.
Proof.
  intros Hm c. specialize (Hm c).
  destruct (m c) as [a c'|[code|e] c']; [exact I | contradiction | exact I].
Qed.

Lemma sys_exit_with_one : exits_with_one (@sys_exit A 1).
Proof. intros c. reflexivity. Qed.

End Exits.

Lemma never_exits_print (line : string) : never_exits (print line).
Proof. intros c. exact I. Qed.

Lemma never_exits_write_file (path : string) (data : list Byte.byte) :
  never_exits (write_file path data).
Proof. intros c. exact I. Qed.

Lemma never_exits_py_in (key : string) (v : json) : never_exits (py_in key v).
Proof. destruct v; intros c; exact I. Qed.

Lemma never_exits_py_getitem (v : json) (key : string) : never_exits (py_getitem v key).
Proof.
  destruct v; intros c; try exact I.
  unfold py_getitem. destruct (lookup_key key entries); exact I.
Qed.

Lemma never_exits_py_iter (v : json) : never_exits (py_iter v).
Proof. destruct v; intros c; exact I. Qed.

Lemma never_exits_py_slice (v : json) (n : nat) : never_exits (py_slice v n).
Proof. destruct v; intros c; exact I. Qed.

Lemma never_exits_load_api_key (lines : list string) : never_exits (load_api_key lines).
Proof.
  induction lines as [|line lines IH]; [apply never_exits_sret|].
  rewrite load_api_key_cons. destruct (String.prefix _ line); [|exact IH].
  destruct (_ !! 1%nat); [apply never_exits_sret | apply never_exits_throw].
Qed.

Create HintDb exits.
#[local] Hint Resolve never_exits_sret never_exits_throw never_exits_print
  never_exits_write_file never_exits_py_in never_exits_py_getitem never_exits_py_iter
  never_exits_py_slice never_exits_load_api_key : exits.

Ltac exit_steps :=
  repeat first
    [ apply never_exits_sbind; [|intros ?]
    | solve [auto with exits]
    | match goal with
      | |- never_exits (match ?x with _ => _ end) => destruct x
      | |- never_exits (if ?x then _ else _) => destruct x
      end ].

Section ScriptExits.
Variable w : world.

Lemma never_exits_scan_parts (parts : list json) : never_exits (scan_parts w parts).
Proof.
  induction parts as [|part parts IH]; [apply never_exits_sret|].
  cbn [scan_parts]. apply never_exits_sbind; [auto with exits|]. intros [|].
  - exit_steps.
  - apply never_exits_sbind; [auto with exits|]. intros text.
    apply never_exits_sbind; [exit_steps | intros _; exact IH].
Qed.

Lemma never_exits_scan_candidates (candidates : list json) :
  never_exits (scan_candidates w candidates).
Proof.
  induction candidates as [|cand candidates IH]; [apply never_exits_sret|].
  cbn [scan_candidates].
  apply never_exits_sbind; [auto with exits|]. intros has_content.
  apply never_exits_sbind; [exit_steps|]. intros has_parts.
  apply never_exits_sbind.
  - destruct has_parts; [|apply never_exits_sret].
    apply never_exits_sbind; [auto with exits|]. intros content.
    apply never_exits_sbind; [auto with exits|]. intros ps.
    apply never_exits_sbind; [auto with exits|]. intros parts.
    apply never_exits_scan_parts.
  - intros [|]; [apply never_exits_sret | exact IH].
Qed.

Lemma never_exits_extract_image (result : json) : never_exits (extract_image w result).
Proof.
  unfold extract_image. apply never_exits_sbind; [auto with exits|].
  intros [|]; [|apply never_exits_sret].
  apply never_exits_sbind; [auto with exits|]. intros cs.
  apply never_exits_sbind; [auto with exits|]. intros candidates.
  apply never_exits_scan_candidates.
Qed.

Lemma generate_beans_exits_with_one : exits_with_one (generate_beans w).
Proof.
  unfold generate_beans.
  apply exits_with_one_sbind.
  { apply never_exits_with_one. exit_steps. }
  intros lines. apply exits_with_one_sbind.
  { apply never_exits_with_one. auto with exits. }
  intros api_key. apply exits_with_one_sbind.
  { destruct (key_missing api_key).
    - apply exits_with_one_sbind;
        [apply never_exits_with_one; auto with exits | intros _; apply sys_exit_with_one].
    - apply never_exits_with_one. auto with exits. }
  intros _. apply exits_with_one_sbind.
  { apply never_exits_with_one. auto with exits. }
  intros _. apply exits_with_one_sbind.
  { apply never_exits_with_one. auto with exits. }
  intros _. apply exits_with_one_sbind.
  { destruct (urlopen w _) as [result|code body|message].
    - apply never_exits_with_one. auto with exits.
    - apply exits_with_one_sbind.
      + apply never_exits_with_one. exit_steps.
      + intros error_body. apply exits_with_one_sbind;
          [apply never_exits_with_one; auto with exits | intros _; apply sys_exit_with_one].
    - apply exits_with_one_sbind;
        [apply never_exits_with_one; auto with exits | intros _; apply sys_exit_with_one]. }
  intros result. apply exits_with_one_sbind.
  { apply never_exits_with_one, never_exits_extract_image. }
  intros image_saved. apply exits_with_one_sbind.
  { destruct image_saved.
    - apply never_exits_with_one. auto with exits.
    - apply exits_with_one_sbind;
        [apply never_exits_with_one; auto with exits | intros _].
      apply exits_with_one_sbind;
        [apply never_exits_with_one; auto with exits | intros _; apply sys_exit_with_one]. }
  intros _. apply never_exits_with_one. exit_steps.
Qed.

End ScriptExits.

(** X22: the exit status tells whether the image was written.  Whatever
    the environment file and the reply, the process ends with status 0 or
    1, and with status 0 exactly when it has written a file; it then has
    written one file, at the output path. *)
Theorem exit_status_tells_whether_the_image_was_written (w : world) :
  (exit_status (run_script w) = 0 \/ exit_status (run_script w) = 1) /\
  (exit_status (run_script w) = 0 <->
     exists img_data, written (console_of (run_script w)) = [(output_path w, img_data)]) /\
  (exit_status (run_script w) = 0 <-> written (console_of (run_script w)) <> []).
Proof.
  pose proof (generate_beans_safe w (Console [] []) eq_refl) as Hsafe.
  pose proof (generate_beans_exits_with_one w (Console [] [])) as Hexit.
  unfold run_script.
  destruct (generate_beans w (Console [] [])) as [[] c|[code|e] c];
    cbn [exit_status console_of wrote_image_or_failed] in *.
  - destruct Hsafe as [img_data Hdata].
    split; [now left|]. split; split; intros _; try reflexivity.
    + now exists img_data.
    + now rewrite Hdata.
  - subst code. split; [now right|]. split; split; try discriminate.
    + intros [img_data Hdata]. rewrite Hsafe in Hdata. discriminate.
    + intros Hne. now contradiction Hne.
  - split; [now right|]. split; split; try discriminate.
    + intros [img_data Hdata]. rewrite Hsafe in Hdata. discriminate.
    + intros Hne. now contradiction Hne.
Qed.

(** X23: the failures the script does not handle.  A missing [.env] raises
    [FileNotFoundError] before anything is printed.  With a key: an
    exception raised by the request is reported on one line and ends the
    process with status 1; an HTTP error whose body is not valid UTF-8
    raises [UnicodeDecodeError] inside the handler, so that no error line
    is printed; image data that does not decode raises out of the loop
    after the text met on the way was printed.  No file is written in any
    of these cases. *)
Theorem unhandled_failures (w : world) :
  (env_file w = None ->
   run_script w = Halt (Uncaught FileNotFoundError) (Console [] [])) /\
  (forall lines key,
     env_file w = Some lines -> first_key_line lines key -> key <> ""%string ->
     (forall message,
        urlopen w (endpoint ++ key) = Failure message ->
        run_script w =
          Halt (SystemExit 1)
               (Console (calling_lines ++ [("Request failed: " ++ message)%string]) [])) /\
     (forall code,
        urlopen w (endpoint ++ key) = HTTPError code None ->
        run_script w = Halt (Uncaught UnicodeDecodeError) (Console calling_lines [])) /\
     (forall result cand part before after texts rest data,
        urlopen w (endpoint ++ key) = Reply result ->
        candidates_of result = Some (before ++ cand :: after) ->
        forallb candidate_without_image before = true ->
        parts_of cand = Some (texts ++ part :: rest) ->
        forallb text_part texts = true ->
        image_data_of part = Some data ->
        b64decode w data = None ->
        run_script w =
          Halt (Uncaught BinasciiError)
               (Console (calling_lines ++ flat_map candidate_lines before ++
                         flat_map part_lines texts) []))).
Proof.
  split.
  - intros Henv. unfold run_script, generate_beans. now rewrite Henv.
  - intros lines key Henv Hkey Hne.
    assert (Hpresent : key_missing (Some key) = false)
      by (simpl; now apply String.eqb_neq).
    split; [|split].
    + intros message Hreply. unfold run_script, generate_beans.
      rewrite Henv. script_run.
      rewrite (load_api_key_present lines key _ Hkey), Hpresent.
      change (default ""%string (Some key)) with key. now rewrite Hreply.
    + intros code Hreply. unfold run_script, generate_beans.
      rewrite Henv. script_run.
      rewrite (load_api_key_present lines key _ Hkey), Hpresent.
      change (default ""%string (Some key)) with key. now rewrite Hreply.
    + intros result cand part before after texts rest data
        Hreply Hcands Hbefore Hparts Htexts Hdata Hdecode.
      unfold run_script, generate_beans.
      rewrite Henv. script_run.
      rewrite (load_api_key_present lines key _ Hkey), Hpresent.
      change (default ""%string (Some key)) with key. rewrite Hreply.
      rewrite (extract_image_candidates w result _ _ Hcands).
      rewrite (scan_candidates_skip w before _ _ Hbefore).
      assert (Hscan : forall c,
                scan_parts w (texts ++ part :: rest) c =
                  Halt (Uncaught BinasciiError)
                       (Console (stdout c ++ flat_map part_lines texts) (written c))).
      { intros c. rewrite (scan_parts_skip_text w texts _ _ Htexts).
        destruct part as [| | | | |entries]; try discriminate.
        cbn [image_data_of] in Hdata.
        destruct (lookup_key "inlineData" entries) as [[| | | | |inline]|] eqn:Hinline;
          try discriminate.
        destruct (lookup_key "data" inline) as [[| | |s| |]|] eqn:Hs; try discriminate.
        injection Hdata as ->.
        cbn [scan_parts]. script_step.
        rewrite (has_key_lookup "inlineData"), Hinline.
        script_step. rewrite Hs. script_step. now rewrite Hdecode. }
      destruct cand as [| | | | |entries]; try discriminate.
      cbn [parts_of] in Hparts.
      destruct (lookup_key "content" entries) as [[| | | | |content]|] eqn:Hcontent;
        try discriminate.
      destruct (lookup_key "parts" content) as [[| | | |ps|]|] eqn:Hps; try discriminate.
      injection Hparts as ->.
      cbn [scan_candidates]. script_step.
      rewrite (has_key_lookup "content"), Hcontent.
      script_step. rewrite (has_key_lookup "parts"), Hps. script_step.
      rewrite Hscan. cbn [stdout written]. unfold calling_lines.
      rewrite <- !app_assoc. reflexivity.
Qed.

Lemma unhandled_failures_witness :
  run_script (sample_world None (Failure "unused")) =
    Halt (Uncaught FileNotFoundError) (Console [] []) /\
  run_script (sample_world (Some env_with_key) (Failure "timed out")) =
    Halt (SystemExit 1) (Console (calling_lines ++ ["Request failed: timed out"%string]) []) /\
  run_script (sample_world (Some env_with_key) (HTTPError 500 None)) =
    Halt (Uncaught UnicodeDecodeError) (Console calling_lines []).
Proof.
  split; [|split].
  - apply (proj1 (unhandled_failures (sample_world None (Failure "unused")))).
    reflexivity.
  - apply (proj1 (proj2 (unhandled_failures
                           (sample_world (Some env_with_key) (Failure "timed out")))
                    env_with_key "abc123"%string eq_refl
                    ltac:(exists [String "#" " local settings"], "abc123  "%string, [];
                          repeat split; repeat constructor)
                    ltac:(discriminate))
             "timed out"%string eq_refl).
  - apply (proj1 (proj2 (proj2 (unhandled_failures
                                  (sample_world (Some env_with_key) (HTTPError 500 None)))
                           env_with_key "abc123"%string eq_refl
                           ltac:(exists [String "#" " local settings"], "abc123  "%string, [];
                                 repeat split; repeat constructor)
                           ltac:(discriminate)))
             500 eq_refl).
Defined.
